(** * express-otel-observability: trace propagation, span lifecycle,
      log redaction and fallback, HTTP metrics and error middleware.

    A shallow embedding of the TypeScript sources followed by the
    properties proved about them.  Part I holds the definitions, one
    module per source file; Part II holds the lemmas and theorems. *)

From Stdlib Require Import ZArith Lia List Bool Ascii String.
From stdpp Require Import base list strings gmap pretty.
Import ListNotations.
Open Scope string_scope.

(* ================================================================== *)
(** * Part I: definitions                                              *)
(* ================================================================== *)

(** ** JavaScript values and the string operations the sources use *)

Module Js.

(** Plain data as the loggers and interceptors receive it: what JSON can
    carry, and [undefined].  Numbers are the integers; an object is the
    list of its own enumerable properties in enumeration order (as
    [Object.entries] yields them). *)
#[local] Set Warnings "-register-all".
Inductive value : Type :=
| VUndefined
| VNull
| VBool (b : bool)
| VNum (n : Z)
| VStr (s : string)
| VArr (items : list value)
| VObj (props : list (string * value)).

(** [if (v)]: undefined, null, false, 0 and the empty string are falsy. *)
Definition truthy (v : value) : bool :=
  match v with
  | VUndefined | VNull => false
  | VBool b => b
  | VNum n => negb (n =? 0)%Z
  | VStr s => negb (String.eqb s "")
  | VArr _ | VObj _ => true
  end.

(** Neither an object nor an array. *)
Definition is_scalar (v : value) : bool :=
  match v with VArr _ | VObj _ => false | _ => true end.

(** [obj[key]] on the property list of an object. *)
Fixpoint getProp {A : Type} (key : string) (props : list (string * A)) : option A :=
  match props with
  | [] => None
  | (k, v) :: rest => if String.eqb k key then Some v else getProp key rest
  end.

(** [key in obj] for own properties. *)
Definition hasProp {A : Type} (key : string) (props : list (string * A)) : bool :=
  match getProp key props with Some _ => true | None => false end.

(** [obj[key] = v]: overwrite in place or append a new property. *)
Fixpoint setProp {A : Type} (key : string) (v : A) (props : list (string * A))
  : list (string * A) :=
  match props with
  | [] => [(key, v)]
  | (k, x) :: rest =>
      if String.eqb k key then (k, v) :: rest else (k, x) :: setProp key v rest
  end.

(** What [target[key] = v] does on an object that inherits from
    [Object.prototype]: under the key [__proto__] the assignment goes to
    the inherited setter and creates no own property; under any other
    key it overwrites or appends. *)
Definition assignProp {A : Type} (key : string) (v : A) (props : list (string * A))
  : list (string * A) :=
  if String.eqb key "__proto__" then props else setProp key v props.

(** The entries that such assignments turn into own properties. *)
Definition assignable {A : Type} (props : list (string * A)) : list (string * A) :=
  List.filter (fun kv => negb (String.eqb (fst kv) "__proto__")) props.

(** [Object.entries] of an array: its elements under their decimal indices. *)
Fixpoint indexed {A : Type} (i : nat) (xs : list A) : list (string * A) :=
  match xs with
  | [] => []
  | x :: rest => (pretty i, x) :: indexed (S i) rest
  end.

(** Strings are sequences of bytes; the ASCII ones are those the string
    operations below follow exactly. *)
Definition isAscii (s : string) : bool :=
  forallb (fun c => (nat_of_ascii c <? 128)%nat) (list_ascii_of_string s).

(** Every key of every object inside the value is an ASCII string. *)
Fixpoint asciiKeys (v : value) : bool :=
  match v with
  | VObj props =>
      (fix each (ps : list (string * value)) : bool :=
         match ps with
         | [] => true
         | (k, x) :: rest => isAscii k && asciiKeys x && each rest
         end) props
  | VArr items =>
      (fix each (xs : list value) : bool :=
         match xs with
         | [] => true
         | x :: rest => asciiKeys x && each rest
         end) items
  | _ => true
  end.

(** [String.prototype.toLowerCase], exact on ASCII strings: the letters A
    to Z are lowered and every other byte is kept (outside ASCII the
    method lowers further letters, by the Unicode tables). *)
Definition lower_ascii (c : ascii) : ascii :=
  let n := nat_of_ascii c in
  if (65 <=? n)%nat && (n <=? 90)%nat then ascii_of_nat (n + 32) else c.

Fixpoint toLowerCase (s : string) : string :=
  match s with
  | EmptyString => EmptyString
  | String c rest => String (lower_ascii c) (toLowerCase rest)
  end.

(** [s.startsWith(p)] and [s.includes(p)]. *)
Definition startsWith (s p : string) : bool := String.prefix p s.

Fixpoint includes (s p : string) : bool :=
  if startsWith s p then true
  else match s with
       | EmptyString => false
       | String _ rest => includes rest p
       end.

(** [String(v)] *)
Fixpoint toStringJs (v : value) : string :=
  match v with
  | VUndefined => "undefined"
  | VNull => "null"
  | VBool true => "true"
  | VBool false => "false"
  | VNum n => pretty n
  | VStr s => s
  | VArr items =>
      (fix join (first : bool) (xs : list value) : string :=
         match xs with
         | [] => ""
         | x :: rest =>
             (if first then "" else ",")
             ++ match x with
                | VUndefined | VNull => ""
                | _ => toStringJs x
                end
             ++ join false rest
         end) true items
  | VObj _ => "[object Object]"
  end.

(** Whether converting the value to a string - [String(v)], a template
    literal - throws a TypeError.  On plain data that is the case for an
    object with an own [toString] property (it holds data, not a function,
    and [Object.prototype.valueOf] answers with the object itself) and for
    an array with such an element, [Array.prototype.toString] joining the
    converted elements. *)
Fixpoint toStringThrows (v : value) : bool :=
  match v with
  | VObj props => hasProp "toString" props
  | VArr items =>
      (fix some (xs : list value) : bool :=
         match xs with
         | [] => false
         | x :: rest => toStringThrows x || some rest
         end) items
  | _ => false
  end.

(** The own enumerable properties that [{...v}] copies. *)
Fixpoint characters (s : string) : list value :=
  match s with
  | EmptyString => []
  | String c rest => VStr (String c EmptyString) :: characters rest
  end.

Definition spreadEntries (v : value) : list (string * value) :=
  match v with
  | VObj props => props
  | VArr items => indexed 0 items
  | VStr s => indexed 0 (characters s)
  | _ => []
  end.

(** Whether the character occurs in the string. *)
Fixpoint hasChar (c : ascii) (s : string) : bool :=
  match s with
  | EmptyString => false
  | String x rest => Ascii.eqb x c || hasChar c rest
  end.

End Js.

Import Js.

(** ** The remote log emitter (logger/otel-logger.ts) *)

Module OtelLogger.

Inductive LogLevel : Type := debug | info | warn | error.

Definition level_name (l : LogLevel) : string :=
  match l with
  | debug => "debug" | info => "info" | warn => "warn" | error => "error"
  end.

(** What one logging call can see of the process: the availability flag
    of the export path, the records handed to the exporter and the
    console streams. *)
Inductive stream : Type := ConsoleError | ConsoleWarn | ConsoleDebug | ConsoleLog.

Inductive rendering : Type :=
| DevLine (timestamp level context message trace : value)
          (rest : list (string * value))
| JsonLine (entry : list (string * value)).

Record world : Type := mkWorld {
  otlpAvailable : bool;
  exported : list (LogLevel * string * list (string * value));
  console : list (stream * rendering)
}.

(** Modelled from the spec: logger/otel-logger.ts is not among the
    sources.  Section 3 (TelemetryAvailability) and section 4.3: the flag
    starts available, [emitLog] reports whether the export succeeded, a
    failed export is caught, flips the flag to unavailable and reports
    failure, and the next successful export flips it back.  [attempt] is
    the outcome of the underlying export call. *)
Definition isOtelLoggerAvailable (w : world) : bool := otlpAvailable w.

(** Modelled from the spec: section 4.3, [emitLog(level, message,
    attributes) -> bool]; see above. *)
Definition emitOtelLog (attempt : bool) (level : LogLevel) (message : string)
           (attributes : list (string * value)) (w : world) : bool * world :=
  if attempt
  then (true, mkWorld true (exported w ++ [(level, message, attributes)]) (console w))
  else (false, mkWorld false (exported w) (console w)).

Definition console_write (s : stream) (r : rendering) (w : world) : world :=
  mkWorld (otlpAvailable w) (exported w) (console w ++ [(s, r)]).

(** How a logging call ends: it returns, or a TypeError raised while the
    console line is put together escapes it. *)
Inductive completion : Type := Completed | ThrewTypeError.

Definition isString (v : value) : bool :=
  match v with VStr _ => true | _ => false end.

(** The properties of the entry that reach the line through
    [JSON.stringify]: all of them, or in development those left after the
    destructuring. *)
Definition jsonPart (r : rendering) : list (string * value) :=
  match r with
  | DevLine _ _ _ _ _ rest => rest
  | JsonLine entry => entry
  end.

End OtelLogger.

Import OtelLogger.

(** ** Sensitive-field redaction (structured-logger.ts, winston-otel-transport.ts) *)

Module StructuredLogger.

Definition REDACTED : value := VStr "[REDACTED]".

(** [this.sensitiveFields.some(field => lowerKey.includes(field.toLowerCase()))] *)
Definition isSensitive (sensitiveFields : list string) (key : string) : bool :=
  let lowerKey := toLowerCase key in
  existsb (fun field => includes lowerKey (toLowerCase field)) sensitiveFields.

(** [maskSensitiveData(data)].  The loop runs over [Object.entries(data)]
    and stores with [masked[key] = ...]: each key is a new one and is
    appended, except an own [__proto__] key of the data, for which the
    assignment reaches the prototype setter and no property is created
    (the prototype it may install is not represented: the model holds
    own properties only).  The array branch calls the function on every
    element with [typeof item === 'object' && item !== null], arrays
    included; the keys of an array are its indices. *)
Fixpoint maskSensitiveData (sensitiveFields : list string) (data : value)
  {struct data} : list (string * value) :=
  match data with
  | VObj props =>
      (fix each (entries : list (string * value)) : list (string * value) :=
         match entries with
         | [] => []
         | (key, v) :: rest =>
             let stored :=
               if isSensitive sensitiveFields key then REDACTED
               else match v with
                    | VObj _ => VObj (maskSensitiveData sensitiveFields v)
                    | VArr elems =>
                        VArr ((fix mapItems (xs : list value) : list value :=
                                 match xs with
                                 | [] => []
                                 | item :: more =>
                                     match item with
                                     | VObj _ | VArr _ =>
                                         VObj (maskSensitiveData sensitiveFields item)
                                     | _ => item
                                     end :: mapItems more
                                 end) elems)
                    | _ => v
                    end in
             if String.eqb key "__proto__" then each rest
             else (key, stored) :: each rest
         end) props
  | VArr items =>
      (fix each (i : nat) (xs : list value) : list (string * value) :=
         match xs with
         | [] => []
         | v :: rest =>
             (pretty i,
              if isSensitive sensitiveFields (pretty i) then REDACTED
              else match v with
                   | VObj _ => VObj (maskSensitiveData sensitiveFields v)
                   | VArr elems =>
                       VArr ((fix mapItems (xs : list value) : list value :=
                                match xs with
                                | [] => []
                                | item :: more =>
                                    match item with
                                    | VObj _ | VArr _ =>
                                        VObj (maskSensitiveData sensitiveFields item)
                                    | _ => item
                                    end :: mapItems more
                                end) elems)
                   | _ => v
                   end) :: each (S i) rest
         end) 0%nat items
  | _ => []
  end.

(** The callback of [value.map(...)], and what the loop stores under one
    key. *)
Definition maskItem (sensitiveFields : list string) (item : value) : value :=
  match item with
  | VObj _ | VArr _ => VObj (maskSensitiveData sensitiveFields item)
  | _ => item
  end.

Definition maskProperty (sensitiveFields : list string) (key : string) (v : value)
  : value :=
  if isSensitive sensitiveFields key then REDACTED
  else match v with
       | VObj _ => VObj (maskSensitiveData sensitiveFields v)
       | VArr elems => VArr (map (maskItem sensitiveFields) elems)
       | _ => v
       end.


(** *** The logger object and its write path *)

Record logger : Type := mkLogger {
  context : option string;
  serviceName : string;
  environment : string;
  logLevel : LogLevel;
  sensitiveFields : list string;
  enableOtlpLogs : bool;
  enableConsoleLogs : bool
}.

(** [getTraceContextInfo()] and [new Date().toISOString()], read from the
    surroundings of the call. *)
Record ambient : Type := mkAmbient {
  now : string;
  traceId : option string;
  spanId : option string
}.

Definition LOG_LEVEL_PRIORITY (l : LogLevel) : nat :=
  match l with debug => 0 | info => 1 | warn => 2 | error => 3 end.

Definition truthy_str (o : option string) : bool :=
  match o with Some s => negb (String.eqb s "") | None => false end.

Definition str_or_undefined (o : option string) : value :=
  match o with Some s => VStr s | None => VUndefined end.

(** [Object.assign(target, source)]: every own property of the source is
    assigned to the target. *)
Definition assign (target source : list (string * value)) : list (string * value) :=
  fold_left (fun t kv => assignProp (fst kv) (snd kv) t) source target.

Definition createLogEntry (lg : logger) (amb : ambient) (level : LogLevel)
           (message : string) (meta : option (list (string * value)))
  : list (string * value) :=
  let entry :=
    [ ("timestamp", VStr (now amb));
      ("level", VStr (level_name level));
      ("message", VStr message);
      ("service", VStr (serviceName lg));
      ("environment", VStr (environment lg)) ] in
  let entry :=
    if truthy_str (traceId amb)
    then setProp "trace_id" (str_or_undefined (traceId amb)) entry else entry in
  let entry :=
    if truthy_str (spanId amb)
    then setProp "span_id" (str_or_undefined (spanId amb)) entry else entry in
  let entry :=
    if truthy_str (context lg)
    then setProp "context" (str_or_undefined (context lg)) entry else entry in
  match meta with
  | Some m => assign entry (maskSensitiveData (sensitiveFields lg) (VObj m))
  | None => entry
  end.

Definition stream_of (level : LogLevel) : stream :=
  match level with
  | error => ConsoleError
  | warn => ConsoleWarn
  | debug => ConsoleDebug
  | info => ConsoleLog
  end.

Definition prop_or_undefined (key : string) (entry : list (string * value)) : value :=
  match getProp key entry with Some v => v | None => VUndefined end.

Definition without (keys : list string) (entry : list (string * value))
  : list (string * value) :=
  filter (fun kv => negb (existsb (String.eqb (fst kv)) keys)) entry.

(** The fields of the entry that the development line formats. *)
Definition lineFields : list string :=
  ["timestamp"; "level"; "message"; "context"; "trace_id"].

(** Whether putting the development line together throws: the template
    converts [context] (when truthy), [timestamp] and [message] to
    strings, calls [trace_id.substring] when [trace_id] is truthy and
    [logLevel.toUpperCase], each a TypeError on a value that does not
    support it.  The entry is the logger's own unless metadata replaced
    one of these fields. *)
Definition devLineThrows (entry : list (string * value)) : bool :=
  (truthy (prop_or_undefined "context" entry)
   && toStringThrows (prop_or_undefined "context" entry))
  || (truthy (prop_or_undefined "trace_id" entry)
      && negb (isString (prop_or_undefined "trace_id" entry)))
  || toStringThrows (prop_or_undefined "timestamp" entry)
  || negb (isString (prop_or_undefined "level" entry))
  || toStringThrows (prop_or_undefined "message" entry).

(** Whether metadata sets one of the fields that the development line
    formats. *)
Definition overridesLineField (meta : option (list (string * value))) : bool :=
  match meta with
  | Some m => existsb (fun key => hasProp key m) lineFields
  | None => false
  end.

(** The console line: in development the destructured fields and the
    remaining properties that the template renders, otherwise the entry
    that [JSON.stringify] renders. *)
Definition writeToConsole (lg : logger) (level : LogLevel)
           (entry : list (string * value)) (w : world) : completion * world :=
  if String.eqb (environment lg) "development"
  then
    if devLineThrows entry then (ThrewTypeError, w)
    else
      (Completed,
       console_write (stream_of level)
         (DevLine (prop_or_undefined "timestamp" entry)
                  (prop_or_undefined "level" entry)
                  (prop_or_undefined "context" entry)
                  (prop_or_undefined "message" entry)
                  (prop_or_undefined "trace_id" entry)
                  (without lineFields entry))
         w)
  else (Completed, console_write (stream_of level) (JsonLine entry) w).

(** [{...entry, timestamp: undefined, level: undefined, message: undefined}] *)
Definition otlpAttributes (entry : list (string * value)) : list (string * value) :=
  setProp "message" VUndefined
    (setProp "level" VUndefined (setProp "timestamp" VUndefined entry)).

(** [writeLog(level, message, meta)]; [attempt] is the outcome of the
    export should the call reach [emitOtelLog]. *)
Definition writeLog (lg : logger) (amb : ambient) (attempt : bool)
           (level : LogLevel) (message : string)
           (meta : option (list (string * value))) (w : world) : completion * world :=
  if (LOG_LEVEL_PRIORITY level <? LOG_LEVEL_PRIORITY (logLevel lg))%nat
  then (Completed, w)
  else
    let entry := createLogEntry lg amb level message meta in
    let '(otlpSuccess, w1) :=
      if enableOtlpLogs lg && isOtelLoggerAvailable w
      then emitOtelLog attempt level message (otlpAttributes entry) w
      else (false, w) in
    if enableConsoleLogs lg || (negb otlpSuccess && enableOtlpLogs lg)
    then writeToConsole lg level entry w1
    else (Completed, w1).

(** An [Error] instance as [logError] reads it. *)
Record errorObject : Type := mkErrorObject {
  errName : string;
  errMessage : string;
  errStack : value
}.

(** [logError(error, meta)]: [{...meta, error_name, stack_trace}] keeps
    the caller's properties in their order and sets the two keys. *)
Definition logError (lg : logger) (amb : ambient) (attempt : bool)
           (err : errorObject) (meta : option (list (string * value))) (w : world)
  : completion * world :=
  writeLog lg amb attempt error (errMessage err)
    (Some (setProp "stack_trace" (errStack err)
             (setProp "error_name" (VStr (errName err))
                (match meta with Some m => m | None => [] end))))
    w.

End StructuredLogger.

(** ** The Winston transport (logger/winston-otel-transport.ts) *)

Module WinstonOtelTransport.

Record transport : Type := mkTransport {
  serviceName : string;
  environment : string;
  sensitiveFields : list string;
  enableOtlp : bool;
  enableConsole : bool
}.

(** The [info] object Winston hands to [log]: the two declared string
    fields, the values under the [LEVEL] and [MESSAGE] symbols (when they
    are strings) and the remaining enumerable properties. *)
Record info : Type := mkInfo {
  level : string;
  message : string;
  symLevel : option string;
  symMessage : option string;
  extra : list (string * value)
}.

Definition REDACTED : value := VStr "[REDACTED]".

Definition isSensitive (sensitiveFields : list string) (key : string) : bool :=
  let lowerKey := toLowerCase key in
  existsb (fun field => includes lowerKey (toLowerCase field)) sensitiveFields.

(** The transport carries its own copy of [maskSensitiveData]. *)
Fixpoint maskSensitiveData (sensitiveFields : list string) (data : value)
  {struct data} : list (string * value) :=
  match data with
  | VObj props =>
      (fix each (entries : list (string * value)) : list (string * value) :=
         match entries with
         | [] => []
         | (key, v) :: rest =>
             let stored :=
               if isSensitive sensitiveFields key then REDACTED
               else match v with
                    | VObj _ => VObj (maskSensitiveData sensitiveFields v)
                    | VArr elems =>
                        VArr ((fix mapItems (xs : list value) : list value :=
                                 match xs with
                                 | [] => []
                                 | item :: more =>
                                     match item with
                                     | VObj _ | VArr _ =>
                                         VObj (maskSensitiveData sensitiveFields item)
                                     | _ => item
                                     end :: mapItems more
                                 end) elems)
                    | _ => v
                    end in
             if String.eqb key "__proto__" then each rest
             else (key, stored) :: each rest
         end) props
  | VArr items =>
      (fix each (i : nat) (xs : list value) : list (string * value) :=
         match xs with
         | [] => []
         | v :: rest =>
             (pretty i,
              if isSensitive sensitiveFields (pretty i) then REDACTED
              else match v with
                   | VObj _ => VObj (maskSensitiveData sensitiveFields v)
                   | VArr elems =>
                       VArr ((fix mapItems (xs : list value) : list value :=
                                match xs with
                                | [] => []
                                | item :: more =>
                                    match item with
                                    | VObj _ | VArr _ =>
                                        VObj (maskSensitiveData sensitiveFields item)
                                    | _ => item
                                    end :: mapItems more
                                end) elems)
                   | _ => v
                   end) :: each (S i) rest
         end) 0%nat items
  | _ => []
  end.

(** [extractMessage(message, info)] *)
Definition extractMessage (msg : string) (i : info) : string :=
  if negb (String.eqb msg "") && negb (includes msg "[object Object]")
  then msg
  else message i.

(** [extractMeta(info)]: every enumerable property except the internal
    ones, stored with [meta[key] = value]. *)
Definition internalStringFields : list string :=
  ["level"; "message"; "timestamp"; "splat"].

Definition extractMeta (i : info) : list (string * value) :=
  assignable
    (filter (fun kv => negb (existsb (String.eqb (fst kv)) internalStringFields))
            (("level", VStr (level i)) :: ("message", VStr (message i)) :: extra i)).

Definition mapToOtelLevel (lvl : string) : LogLevel :=
  let l := toLowerCase lvl in
  if existsb (String.eqb l) ["error"; "crit"; "alert"; "emerg"] then error
  else if existsb (String.eqb l) ["warn"; "warning"] then warn
  else if existsb (String.eqb l) ["debug"; "silly"; "verbose"] then debug
  else OtelLogger.info.

(** [consoleLog(level, message)]: the stream picked by the switch. *)
Definition stream_of (lvl : string) : stream :=
  if String.eqb lvl "error" then ConsoleError
  else if existsb (String.eqb lvl) ["warn"; "warning"] then ConsoleWarn
  else if String.eqb lvl "debug" then ConsoleDebug
  else ConsoleLog.

(** Whether putting the development line together throws: [trace_id]
    (when truthy) and [logLevel] go through [String(...)], [timestamp]
    and [message] through the template. *)
Definition devLineThrows (entry : list (string * value)) : bool :=
  (truthy (StructuredLogger.prop_or_undefined "trace_id" entry)
   && toStringThrows (StructuredLogger.prop_or_undefined "trace_id" entry))
  || toStringThrows (StructuredLogger.prop_or_undefined "timestamp" entry)
  || toStringThrows (StructuredLogger.prop_or_undefined "level" entry)
  || toStringThrows (StructuredLogger.prop_or_undefined "message" entry).

Definition outputToConsole (t : transport) (lvl : string)
           (entry : list (string * value)) (w : world) : completion * world :=
  if String.eqb (environment t) "development"
  then
    if devLineThrows entry then (ThrewTypeError, w)
    else
      (Completed,
       console_write (stream_of lvl)
         (DevLine (StructuredLogger.prop_or_undefined "timestamp" entry)
                  (StructuredLogger.prop_or_undefined "level" entry)
                  VUndefined
                  (StructuredLogger.prop_or_undefined "message" entry)
                  (StructuredLogger.prop_or_undefined "trace_id" entry)
                  (StructuredLogger.without
                     ["timestamp"; "level"; "message"; "trace_id"] entry))
         w)
  else (Completed, console_write (stream_of lvl) (JsonLine entry) w).

(** [sendToOtlp(level, entry)]: the outcome of [emitOtelLog] is dropped. *)
Definition sendToOtlp (attempt : bool) (lvl : string) (msg : string)
           (entry : list (string * value)) (w : world) : world :=
  snd (emitOtelLog attempt (mapToOtelLevel lvl) msg
                   (StructuredLogger.otlpAttributes entry) w).

Definition buildEntry (t : transport) (amb : StructuredLogger.ambient) (i : info)
  : string * string * list (string * value) :=
  let lvl :=
    match symLevel i with
    | Some s => if String.eqb s "" then
                  (if String.eqb (level i) "" then "info" else level i)
                else s
    | None => if String.eqb (level i) "" then "info" else level i
    end in
  let msg :=
    match symMessage i with
    | Some s => s
    | None => message i
    end in
  let timestamp :=
    match getProp "timestamp" (extra i) with
    | Some v => if truthy v then v else VStr (StructuredLogger.now amb)
    | None => VStr (StructuredLogger.now amb)
    end in
  let text := extractMessage msg i in
  let logEntry :=
    [ ("timestamp", timestamp);
      ("level", VStr lvl);
      ("message", VStr text);
      ("service", VStr (serviceName t));
      ("environment", VStr (environment t)) ] in
  let logEntry :=
    if StructuredLogger.truthy_str (StructuredLogger.traceId amb)
    then setProp "trace_id"
           (StructuredLogger.str_or_undefined (StructuredLogger.traceId amb)) logEntry
    else logEntry in
  let logEntry :=
    if StructuredLogger.truthy_str (StructuredLogger.spanId amb)
    then setProp "span_id"
           (StructuredLogger.str_or_undefined (StructuredLogger.spanId amb)) logEntry
    else logEntry in
  let meta := extractMeta i in
  let logEntry :=
    match meta with
    | [] => logEntry
    | _ :: _ =>
        StructuredLogger.assign logEntry
          (maskSensitiveData (sensitiveFields t) (VObj meta))
    end in
  (lvl, text, logEntry).

(** [log(info, callback)] up to the call of [callback]. *)
Definition log (t : transport) (amb : StructuredLogger.ambient) (attempt : bool)
           (i : info) (w : world) : completion * world :=
  let '(lvl, text, logEntry) := buildEntry t amb i in
  let w1 :=
    if enableOtlp t && isOtelLoggerAvailable w
    then sendToOtlp attempt lvl text logEntry w
    else w in
  if enableConsole t then outputToConsole t lvl logEntry w1 else (Completed, w1).

End WinstonOtelTransport.

(** ** Redaction over the object store *)

(** [maskSensitiveData] once more, now with objects and arrays living in a
    store and values referring to them, so that what the call writes and
    what it leaves alone can be told apart. *)
Module Store.

Abbreviation loc := nat.

Inductive hvalue : Type :=
| HUndefined
| HNull
| HBool (b : bool)
| HNum (n : Z)
| HStr (s : string)
| HRef (l : loc).

Inductive cell : Type :=
| CObj (props : list (string * hvalue))
| CArr (items : list hvalue).

(** The store: cell [l] is the object or array at reference [l]; a new
    object takes the next free index. *)
Abbreviation heap := (list cell).

(** A computation reads and writes the store and may abort (an uncaught
    RangeError or TypeError). *)
Definition M (A : Type) : Type := heap -> heap * option A.

Definition ret {A : Type} (a : A) : M A := fun h => (h, Some a).

Definition abort {A : Type} : M A := fun h => (h, None).

Definition bind {A B : Type} (m : M A) (k : A -> M B) : M B :=
  fun h =>
    match m h with
    | (h1, Some a) => k a h1
    | (h1, None) => (h1, None)
    end.

Notation "'let*' x ':=' c1 'in' c2" := (bind c1 (fun x => c2))
  (at level 10, x name, c1 at level 100, c2 at level 200).

Definition alloc (c : cell) : M loc := fun h => ((h ++ [c])%list, Some (length h)).

Definition read (l : loc) : M cell :=
  fun h => match h !! l with Some c => (h, Some c) | None => (h, None) end.

(** [target[key] = v] on the object at [target], which inherits from
    [Object.prototype]. *)
Definition setPropAt (target : loc) (key : string) (v : hvalue) : M unit :=
  fun h =>
    match h !! target with
    | Some (CObj props) => (<[target := CObj (assignProp key v props)]> h, Some tt)
    | _ => (h, None)
    end.

Fixpoint forEach {A : Type} (xs : list A) (body : A -> M unit) : M unit :=
  match xs with
  | [] => ret tt
  | x :: rest => let* _ := body x in forEach rest body
  end.

Fixpoint mapM {A B : Type} (f : A -> M B) (xs : list A) : M (list B) :=
  match xs with
  | [] => ret []
  | x :: rest => let* y := f x in let* ys := mapM f rest in ret (y :: ys)
  end.

(** [Object.entries] *)
Definition entriesOf (c : cell) : list (string * hvalue) :=
  match c with
  | CObj props => props
  | CArr items => indexed 0 items
  end.

(** [maskSensitiveData(data)]; [fuel] bounds the depth of the call stack. *)
Fixpoint maskSensitiveData (sensitiveFields : list string) (fuel : nat) (data : loc)
  {struct fuel} : M loc :=
  match fuel with
  | O => abort
  | S fuel =>
      let* masked := alloc (CObj []) in
      let* c := read data in
      let* _ := forEach (entriesOf c) (fun entry =>
             let key := fst entry in
             let v := snd entry in
             if StructuredLogger.isSensitive sensitiveFields key
             then setPropAt masked key (HStr "[REDACTED]")
             else match v with
                  | HRef l =>
                      let* target := read l in
                      match target with
                      | CObj _ =>
                          let* r := maskSensitiveData sensitiveFields fuel l in
                          setPropAt masked key (HRef r)
                      | CArr items =>
                          let* items' := mapM (fun item =>
                                      match item with
                                      | HRef li =>
                                          let* r := maskSensitiveData sensitiveFields fuel li in
                                          ret (HRef r)
                                      | _ => ret item
                                      end) items in
                          let* a := alloc (CArr items') in
                          setPropAt masked key (HRef a)
                      end
                  | _ => setPropAt masked key v
                  end) in
      ret masked
  end.

(** The references a cell holds. *)
Definition ref_from (n : nat) (v : hvalue) : Prop :=
  match v with HRef l => n <= l | _ => True end.

Definition cell_values (c : cell) : list hvalue :=
  match c with
  | CObj props => map snd props
  | CArr items => items
  end.

(** Every cell from index [n] on refers only to cells from index [n] on. *)
Definition closed_from (n : nat) (h : heap) : Prop :=
  forall l c, n <= l -> h !! l = Some c -> Forall (ref_from n) (cell_values c).

(** [repr h x v]: in store [h], the value [x] unfolds to the finite data [v]. *)
#[local] Set Warnings "-register-all".
Inductive repr (h : heap) : hvalue -> value -> Prop :=
| repr_undefined : repr h HUndefined VUndefined
| repr_null : repr h HNull VNull
| repr_bool b : repr h (HBool b) (VBool b)
| repr_num n : repr h (HNum n) (VNum n)
| repr_str s : repr h (HStr s) (VStr s)
| repr_arr l hitems items :
    h !! l = Some (CArr hitems) ->
    Forall2 (repr h) hitems items ->
    repr h (HRef l) (VArr items)
| repr_obj l hprops props :
    h !! l = Some (CObj hprops) ->
    Forall2 (fun hp p => fst hp = fst p /\ repr h (snd hp) (snd p)) hprops props ->
    repr h (HRef l) (VObj props).

(** Nesting depth of finite data. *)
Fixpoint depth (v : value) : nat :=
  match v with
  | VArr items => S (fold_right (fun x d => Nat.max (depth x) d) 0%nat items)
  | VObj props => S (fold_right (fun kv d => Nat.max (depth (snd kv)) d) 0%nat props)
  | _ => 0%nat
  end.

(** *** Assertions about computations on the store *)

(** [ext h0 h]: every cell of [h0] is still there, unchanged, in [h]. *)
Definition ext (h0 h : heap) : Prop :=
  forall l c, h0 !! l = Some c -> h !! l = Some c.

(** [spec n m R]: run from a store whose first [n] cells are the
    caller's, [m] leaves those cells as they are, keeps the newer cells
    closed among themselves, and returns only results satisfying [R]. *)
Definition spec {A : Type} (n : nat) (m : M A) (R : A -> Prop) : Prop :=
  forall h, n <= length h -> closed_from n h ->
    n <= length (fst (m h))
    /\ take n (fst (m h)) = take n h
    /\ closed_from n (fst (m h))
    /\ forall a, snd (m h) = Some a -> R a.

(** [total P m Q]: from every store satisfying [P], [m] returns a result
    and a store related by [Q]. *)
Definition total {A : Type} (P : heap -> Prop) (m : M A)
           (Q : A -> heap -> Prop) : Prop :=
  forall h, P h -> exists h' a, m h = (h', Some a) /\ Q a h'.

(** The invariant of the loop: the caller's store [h0] is intact and
    [masked] is an object. *)
Definition Inv (h0 : heap) (masked : loc) (h : heap) : Prop :=
  ext h0 h /\ exists props, h !! masked = Some (CObj props).

(** The body of the loop of [maskSensitiveData], by name. *)
Definition loopBody (sensitiveFields : list string) (fuel : nat) (masked : loc)
           (entry : string * hvalue) : M unit :=
  let key := fst entry in
  let v := snd entry in
  if StructuredLogger.isSensitive sensitiveFields key
  then setPropAt masked key (HStr "[REDACTED]")
  else match v with
       | HRef l =>
           let* target := read l in
           match target with
           | CObj _ =>
               let* r := maskSensitiveData sensitiveFields fuel l in
               setPropAt masked key (HRef r)
           | CArr items =>
               let* items' := mapM (fun item =>
                           match item with
                           | HRef li =>
                               let* r := maskSensitiveData sensitiveFields fuel li in
                               ret (HRef r)
                           | _ => ret item
                           end) items in
               let* a := alloc (CArr items') in
               setPropAt masked key (HRef a)
           end
       | _ => setPropAt masked key v
       end.

(** Calls nested at most [fuel] deep return on finite data of that depth. *)
Definition returns_below (sensitiveFields : list string) (fuel : nat) : Prop :=
  forall data h v,
    repr h (HRef data) v -> depth v <= fuel ->
    exists h' r, maskSensitiveData sensitiveFields fuel data h = (h', Some r).

(** Every object inside [v] has each own key once. *)
Fixpoint distinct_throughout (v : value) : bool :=
  match v with
  | VObj props =>
      (fix each (ps : list (string * value)) : bool :=
         match ps with
         | [] => true
         | (k, x) :: rest =>
             negb (hasProp k rest) && distinct_throughout x && each rest
         end) props
  | VArr items =>
      (fix each (xs : list value) : bool :=
         match xs with
         | [] => true
         | x :: rest => distinct_throughout x && each rest
         end) items
  | _ => true
  end.

(** [built_from n h x v]: [x] unfolds to [v] in [h] through cells from
    index [n] on only. *)
Inductive built_from (n : nat) (h : heap) : hvalue -> value -> Prop :=
| built_undefined : built_from n h HUndefined VUndefined
| built_null : built_from n h HNull VNull
| built_bool b : built_from n h (HBool b) (VBool b)
| built_num z : built_from n h (HNum z) (VNum z)
| built_str s : built_from n h (HStr s) (VStr s)
| built_arr l hitems items :
    n <= l ->
    h !! l = Some (CArr hitems) ->
    Forall2 (built_from n h) hitems items ->
    built_from n h (HRef l) (VArr items)
| built_obj l hprops props :
    n <= l ->
    h !! l = Some (CObj hprops) ->
    Forall2 (fun hp p => fst hp = fst p /\ built_from n h (snd hp) (snd p)) hprops props ->
    built_from n h (HRef l) (VObj props).

(** The loop invariant that also tracks what has been stored so far:
    the caller's store [h0] is intact, and the object at [masked] holds,
    key by key, new cells that unfold to [done]. *)
Definition Built (h0 : heap) (masked : loc) (done : list (string * value))
           (h : heap) : Prop :=
  ext h0 h
  /\ exists acc,
      h !! masked = Some (CObj acc)
      /\ Forall2 (fun hp p => fst hp = fst p
                              /\ built_from (S masked) h (snd hp) (snd p)) acc done.

(** A call nested at most [fuel] deep on finite data returns a new object
    that unfolds to what the function computes on the data. *)
Definition refines (sensitiveFields : list string) (fuel : nat) : Prop :=
  forall data h v,
    distinct_throughout v = true ->
    repr h (HRef data) v -> depth v <= fuel ->
    exists h' r,
      maskSensitiveData sensitiveFields fuel data h = (h', Some r)
      /\ built_from (length h) h' (HRef r)
           (VObj (StructuredLogger.maskSensitiveData sensitiveFields v)).

End Store.

(** ** Positions inside metadata *)

Module Nesting.

(** One level of nesting that the redaction clause speaks of: the
    mapping stored under a key, or the mapping that is element [i] of the
    array stored under a key. *)
Inductive hop : Type :=
| Into (key : string)
| IntoElem (key : string) (i : nat).

Definition hop_key (h : hop) : string :=
  match h with Into k | IntoElem k _ => k end.

Definition enter (h : hop) (props : list (string * value))
  : option (list (string * value)) :=
  match h with
  | Into k =>
      match getProp k props with
      | Some (VObj m) => Some m
      | _ => None
      end
  | IntoElem k i =>
      match getProp k props with
      | Some (VArr items) =>
          match items !! i with
          | Some (VObj m) => Some m
          | _ => None
          end
      | _ => None
      end
  end.

Fixpoint descend (hops : list hop) (props : list (string * value))
  : option (list (string * value)) :=
  match hops with
  | [] => Some props
  | h :: rest =>
      match enter h props with
      | Some m => descend rest m
      | None => None
      end
  end.

(** The value stored under [key] in the mapping reached by [hops]. *)
Definition valueAt (hops : list hop) (key : string) (props : list (string * value))
  : option value :=
  match descend hops props with
  | Some m => getProp key m
  | None => None
  end.

(** A JavaScript object has each own key once. *)
Fixpoint distinct_keys (props : list (string * value)) : bool :=
  match props with
  | [] => true
  | (k, _) :: rest => negb (hasProp k rest) && distinct_keys rest
  end.

(** The keys whose treatment the embedding follows exactly: ASCII names
    other than [__proto__]. *)
Definition plainKey (key : string) : bool :=
  isAscii key && negb (String.eqb key "__proto__").

(** What a log entry built from [meta] shows at every position of [meta]
    that is reached through plain keys and lies under no redacted key:
    the marker under a sensitive key, the same scalar under any other
    key, and the same scalars inside an array stored under any other
    key. *)
Definition redacted_view (sensitiveFields : list string)
           (meta entry : list (string * value)) : Prop :=
  forall (hops : list hop) (key : string) (v : value),
    valueAt hops key meta = Some v ->
    forallb (fun h => plainKey (hop_key h)
                      && negb (StructuredLogger.isSensitive sensitiveFields (hop_key h)))
            hops = true ->
    plainKey key = true ->
    (StructuredLogger.isSensitive sensitiveFields key = true ->
     valueAt hops key entry = Some (VStr "[REDACTED]"))
    /\ (StructuredLogger.isSensitive sensitiveFields key = false ->
        is_scalar v = true -> valueAt hops key entry = Some v)
    /\ (StructuredLogger.isSensitive sensitiveFields key = false ->
        forall items, v = VArr items ->
          exists items', valueAt hops key entry = Some (VArr items')
            /\ length items' = length items
            /\ forall i x, items !! i = Some x -> is_scalar x = true ->
                           items' !! i = Some x).

(** Data on which redaction has nothing to do: every key at every depth
    is a plain key that is not sensitive, and no array is itself an
    element of an array. *)
Fixpoint nothing_to_redact (sensitiveFields : list string) (v : value) : bool :=
  match v with
  | VObj props =>
      (fix each (ps : list (string * value)) : bool :=
         match ps with
         | [] => true
         | (k, x) :: rest =>
             plainKey k
             && negb (StructuredLogger.isSensitive sensitiveFields k)
             && nothing_to_redact sensitiveFields x && each rest
         end) props
  | VArr items =>
      (fix each (xs : list value) : bool :=
         match xs with
         | [] => true
         | x :: rest =>
             match x with
             | VArr _ => false
             | _ => nothing_to_redact sensitiveFields x
             end && each rest
         end) items
  | _ => true
  end.

(** What one more pass of redaction does to a value that a pass produced:
    nothing, whether the value is the data, a property value or an array
    element. *)
Definition settled (fields : list string) (v : value) : Prop :=
  StructuredLogger.maskSensitiveData fields
    (VObj (StructuredLogger.maskSensitiveData fields v))
  = StructuredLogger.maskSensitiveData fields v
  /\ (forall k, StructuredLogger.maskProperty fields k
                  (StructuredLogger.maskProperty fields k v)
                = StructuredLogger.maskProperty fields k v)
  /\ StructuredLogger.maskItem fields (StructuredLogger.maskItem fields v)
     = StructuredLogger.maskItem fields v.

(** The marker itself. *)
Definition is_marker (v : value) : bool :=
  match v with
  | VStr s => String.eqb s "[REDACTED]"
  | _ => false
  end.

(** Data in which every sensitive key, at whatever depth and through
    whatever nesting of objects and arrays, holds the marker. *)
Fixpoint redacted_throughout (sensitiveFields : list string) (v : value) : bool :=
  match v with
  | VObj props =>
      (fix each (ps : list (string * value)) : bool :=
         match ps with
         | [] => true
         | (k, x) :: rest =>
             (if StructuredLogger.isSensitive sensitiveFields k
              then is_marker x
              else redacted_throughout sensitiveFields x)
             && each rest
         end) props
  | VArr items =>
      (fix each (xs : list value) : bool :=
         match xs with
         | [] => true
         | x :: rest => redacted_throughout sensitiveFields x && each rest
         end) items
  | _ => true
  end.

(** What redaction guarantees of a value, whether it is the data, a
    property value or an array element. *)
Definition redacts (sensitiveFields : list string) (v : value) : Prop :=
  redacted_throughout sensitiveFields
    (VObj (StructuredLogger.maskSensitiveData sensitiveFields v)) = true
  /\ (forall k,
        (if StructuredLogger.isSensitive sensitiveFields k
         then is_marker (StructuredLogger.maskProperty sensitiveFields k v)
         else redacted_throughout sensitiveFields
                (StructuredLogger.maskProperty sensitiveFields k v)) = true)
  /\ redacted_throughout sensitiveFields
       (StructuredLogger.maskItem sensitiveFields v) = true.

End Nesting.

(** ** The tracing API and its trace-context propagator *)

Module OTel.

(** A carrier: message headers, handshake headers or the [_trace] field. *)
Abbreviation carrier := (gmap string value).

(** Modelled from the spec: the span context and the propagator belong to
    the tracing library, which is not among the sources.  Section 3
    (TraceContext): a 128-bit [traceId], a 64-bit [spanId], [traceFlags]
    and an optional [traceState]. *)
Record SpanContext : Type := mkSpanContext {
  traceId : N;
  spanId : N;
  traceFlags : N;
  traceState : option string
}.

(** A context holds at most one span context (the parent of new spans). *)
Abbreviation Context := (option SpanContext).

Definition isSpanContextValid (sc : SpanContext) : bool :=
  (0 <? traceId sc)%N && (traceId sc <? 2 ^ 128)%N
  && (0 <? spanId sc)%N && (spanId sc <? 2 ^ 64)%N
  && (traceFlags sc <? 256)%N.

(** *** Fixed-width lowercase hexadecimal *)

Definition hexDigit (d : N) : ascii :=
  if (d <? 10)%N then ascii_of_N (48 + d) else ascii_of_N (87 + d).

Definition hexValue (c : ascii) : option N :=
  let n := N_of_ascii c in
  if (48 <=? n)%N && (n <=? 57)%N then Some (n - 48)%N
  else if (97 <=? n)%N && (n <=? 102)%N then Some (n - 87)%N
  else None.

Fixpoint toHexOnto (width : nat) (n : N) (tail : string) : string :=
  match width with
  | O => tail
  | S w => toHexOnto w (n / 16)%N (String (hexDigit (n mod 16)%N) tail)
  end.

Definition toHex (width : nat) (n : N) : string := toHexOnto width n "".

Fixpoint parseHexFrom (acc : N) (s : string) : option N :=
  match s with
  | EmptyString => Some acc
  | String c rest =>
      match hexValue c with
      | Some d => parseHexFrom (16 * acc + d)%N rest
      | None => None
      end
  end.

Definition parseHex (width : nat) (s : string) : option N :=
  if Nat.eqb (String.length s) width then parseHexFrom 0%N s else None.

(** [s.split(sep)] for a one-character separator. *)
Fixpoint splitOn (sep : ascii) (s : string) : list string :=
  match s with
  | EmptyString => [EmptyString]
  | String c rest =>
      if Ascii.eqb c sep then EmptyString :: splitOn sep rest
      else match splitOn sep rest with
           | [] => [String c EmptyString]
           | first :: more => String c first :: more
           end
  end.

(** *** The carrier format of section 6 *)

(** Modelled from the spec: section 6, [traceparent] is
    version-traceId-spanId-flags, hyphen-joined hex, and [tracestate] an
    opaque string passed through. *)
Definition formatTraceParent (sc : SpanContext) : string :=
  "00-" ++ toHex 32 (traceId sc) ++ "-" ++ toHex 16 (spanId sc)
        ++ "-" ++ toHex 2 (traceFlags sc).

Definition parseTraceParent (s : string) : option SpanContext :=
  match splitOn "-"%char s with
  | [version; tid; sid; flags] =>
      if String.eqb version "00" then
        match parseHex 32 tid, parseHex 16 sid, parseHex 2 flags with
        | Some t, Some sp, Some f =>
            if (0 <? t)%N && (0 <? sp)%N
            then Some (mkSpanContext t sp f None) else None
        | _, _, _ => None
        end
      else None
  | _ => None
  end.

(** The header under a key: a string, or the first element of an array. *)
Definition headerString (c : carrier) (key : string) : option string :=
  match c !! key with
  | Some (VStr s) => Some s
  | Some (VArr (VStr s :: _)) => Some s
  | _ => None
  end.

(** Modelled from the spec: section 4.1, [inject] writes the two keys into
    the carrier and leaves unrelated keys as they are; nothing is written
    for a context without a valid span context. *)
Definition inject (ctx : Context) (c : carrier) : carrier :=
  match ctx with
  | Some sc =>
      if isSpanContextValid sc then
        let c1 := <["traceparent" := VStr (formatTraceParent sc)]> c in
        match traceState sc with
        | Some ts => <["tracestate" := VStr ts]> c1
        | None => c1
        end
      else c
  | None => c
  end.

(** Modelled from the spec: section 4.1, [extract] returns a context whose
    parent is the span context parsed from the carrier, and the given
    context unchanged when the carrier has no recognizable trace keys. *)
Definition extract (ctx : Context) (c : carrier) : Context :=
  match headerString c "traceparent" with
  | Some tp =>
      match parseTraceParent tp with
      | Some sc =>
          Some (mkSpanContext (traceId sc) (spanId sc) (traceFlags sc)
                              (headerString c "tracestate"))
      | None => ctx
      end
  | None => ctx
  end.

End OTel.

(** ** Manual propagation helpers (interceptors/rabbitmq-interceptor.ts) *)

Module RabbitMQContext.

(** [injectRabbitMQContext(headers)]: a copy of [headers] with the active
    context injected; [active] is [context.active()]. *)
Definition injectRabbitMQContext (active : OTel.Context)
           (headers : option (gmap string value)) : gmap string value :=
  let enrichedHeaders := match headers with Some h => h | None => ∅ end in
  OTel.inject active enrichedHeaders.

(** [extractRabbitMQContext(headers)] *)
Definition extractRabbitMQContext (active : OTel.Context)
           (headers : option (gmap string value)) : OTel.Context :=
  OTel.extract active (match headers with Some h => h | None => ∅ end).

End RabbitMQContext.

(** ** Spans, metrics and guarded code *)

Module Telemetry.

(** A thrown value: an [Error] instance with its [name] and [message], or
    any other value. *)
Inductive thrown : Type :=
| ErrorObject (name message : string)
| NonError (v : value).

Inductive SpanKind : Type := SERVER | PRODUCER | CONSUMER.

Inductive SpanStatus : Type :=
| Unset
| Ok
| Error (message : string).

(** A span, as the record of what was asked of it: how it was started, the
    last status set, the exceptions recorded and how often [end()] was
    called. *)
Record Span : Type := mkSpan {
  name : string;
  kind : SpanKind;
  attributes : list (string * value);
  parent : OTel.Context;
  spanContext : OTel.SpanContext;
  status : SpanStatus;
  exceptions : list thrown;
  endCalls : nat
}.

Inductive metric : Type :=
| RabbitMessage (queue : string) (exchange routingKey : option string)
                (operation : string) (success : bool) (durationMs : Z)
| WsEvent (event : string) (success : bool) (durationMs : Z)
| HttpRequest (method route : string) (statusCode : nat) (durationMs : Z)
| ErrorCount (type context : string) (code : value).

(** The process as the interceptors see it: the clock, the spans started
    so far, the metrics recorded so far, the active context and the
    source of fresh trace and span ids. *)
Record world : Type := mkWorld {
  clock : nat;
  spans : list Span;
  metrics : list metric;
  active : OTel.Context;
  idSource : nat -> N * N
}.

Inductive outcome (A : Type) : Type :=
| Returned (a : A)
| Threw (e : thrown).
Arguments Returned {A} a.
Arguments Threw {A} e.

(** Code that reads and writes the world and returns or throws. *)
Definition T (A : Type) : Type := world -> outcome A * world.

Definition ret {A : Type} (a : A) : T A := fun w => (Returned a, w).

Definition throw {A : Type} (e : thrown) : T A := fun w => (Threw e, w).

Definition bind {A B : Type} (m : T A) (k : A -> T B) : T B :=
  fun w =>
    match m w with
    | (Returned a, w1) => k a w1
    | (Threw e, w1) => (Threw e, w1)
    end.

Notation "'let!' x ':=' c1 'in' c2" := (bind c1 (fun x => c2))
  (at level 10, x name, c1 at level 100, c2 at level 200).

(** [try { body } catch (error) { handler(error) } finally { final }] *)
Definition tryCatchFinally {A : Type} (body : T A) (handler : thrown -> T A)
           (final : T unit) : T A :=
  fun w =>
    let '(r, w1) :=
      match body w with
      | (Returned a, w1) => (Returned a, w1)
      | (Threw e, w1) => handler e w1
      end in
    match final w1 with
    | (Returned _, w2) => (r, w2)
    | (Threw e, w2) => (Threw e, w2)
    end.

Definition dateNow : T nat := fun w => (Returned (clock w), w).

(** [Date.now() - startTime]: the difference of two readings of the
    clock, negative when the clock was set back in between. *)
Definition elapsed (startTime finished : nat) : Z :=
  (Z.of_nat finished - Z.of_nat startTime)%Z.

Definition getWorld : T world := fun w => (Returned w, w).

Definition contextActive : T OTel.Context := fun w => (Returned (active w), w).

Definition updateSpan (span : nat) (f : Span -> Span) : T unit :=
  fun w =>
    (Returned tt,
     mkWorld (clock w)
             (match spans w !! span with
              | Some s => <[span := f s]> (spans w)
              | None => spans w
              end)
             (metrics w) (active w) (idSource w)).

(** [tracer.startSpan(name, {kind, attributes}, parentContext)]: the new
    span continues the trace of its parent, or starts a trace. *)
Definition startSpan (name : string) (kind : SpanKind)
           (attributes : list (string * value)) (parentContext : OTel.Context)
  : T nat :=
  fun w =>
    let span := length (spans w) in
    let '(freshTrace, freshSpan) := idSource w span in
    let sc :=
      match parentContext with
      | Some p => OTel.mkSpanContext (OTel.traceId p) freshSpan (OTel.traceFlags p)
                                     (OTel.traceState p)
      | None => OTel.mkSpanContext freshTrace freshSpan 1 None
      end in
    (Returned span,
     mkWorld (clock w)
             (spans w ++ [mkSpan name kind attributes parentContext sc Unset [] 0])%list
             (metrics w) (active w) (idSource w)).

(** [trace.setSpan(context, span)] *)
Definition setSpan (ctx : OTel.Context) (span : nat) : T OTel.Context :=
  fun w =>
    (Returned (match spans w !! span with
               | Some s => Some (spanContext s)
               | None => ctx
               end), w).

(** [context.with(ctx, fn)]: [fn] runs with [ctx] active; the previous
    context is active again afterwards. *)
Definition contextWith {A : Type} (ctx : OTel.Context) (fn : T A) : T A :=
  fun w =>
    let previous := active w in
    let '(r, w1) := fn (mkWorld (clock w) (spans w) (metrics w) ctx (idSource w)) in
    (r, mkWorld (clock w1) (spans w1) (metrics w1) previous (idSource w1)).

Definition setStatus (span : nat) (st : SpanStatus) : T unit :=
  updateSpan span (fun s =>
    mkSpan (name s) (kind s) (attributes s) (parent s) (spanContext s)
           st (exceptions s) (endCalls s)).

Definition recordException (span : nat) (e : thrown) : T unit :=
  updateSpan span (fun s =>
    mkSpan (name s) (kind s) (attributes s) (parent s) (spanContext s)
           (status s) (exceptions s ++ [e])%list (endCalls s)).

Definition endSpan (span : nat) : T unit :=
  updateSpan span (fun s =>
    mkSpan (name s) (kind s) (attributes s) (parent s) (spanContext s)
           (status s) (exceptions s) (S (endCalls s))).

(** Modelled from the spec: metrics/metrics.ts is not among the sources.
    Section 4.3: [recordMetric] is fire-and-forget and never raises. *)
Definition recordMetric (m : metric) : T unit :=
  fun w =>
    (Returned tt,
     mkWorld (clock w) (spans w) (metrics w ++ [m])%list (active w) (idSource w)).

(** *** What a failed guarded operation leaves behind *)

Definition isFailure (m : metric) : bool :=
  match m with
  | RabbitMessage _ _ _ _ success _ => negb success
  | WsEvent _ success _ => negb success
  | _ => false
  end.

(** Between the world [after] the guarded code threw [e] and the [final]
    world: the span got one more [end()]; for an [Error] instance the
    status is error with its message and the exception is recorded, for any
    other thrown value status and exceptions are as the guarded code left
    them; one failure metric was appended. *)
Definition failureRecorded (e : thrown) (span : nat) (after final : world) : Prop :=
  forall sp,
    spans after !! span = Some sp ->
    exists sp',
      spans final !! span = Some sp'
      /\ endCalls sp' = S (endCalls sp)
      /\ status sp' = match e with
                      | ErrorObject _ message => Error message
                      | NonError _ => status sp
                      end
      /\ exceptions sp' = match e with
                          | ErrorObject _ _ => (exceptions sp ++ [e])%list
                          | NonError _ => exceptions sp
                          end
      /\ exists m, metrics final = (metrics after ++ [m])%list /\ isFailure m = true.

(** [grows ds dm w w']: from [w] to [w'], [ds] spans were started and [dm]
    metrics recorded. *)
Definition grows (ds dm : nat) (w w' : world) : Prop :=
  length (spans w') = length (spans w) + ds
  /\ length (metrics w') = length (metrics w) + dm.

(** The [if (error instanceof Error) { ... }] block that opens the catch
    clause of each interceptor. *)
Definition recordOnSpan (span : nat) (error : thrown) : T unit :=
  match error with
  | ErrorObject _ message =>
      let! _ := recordException span error in
      setStatus span (Error message)
  | NonError _ => ret tt
  end.

Definition isSuccess (m : metric) : bool :=
  match m with
  | RabbitMessage _ _ _ _ success _ => success
  | WsEvent _ success _ => success
  | _ => false
  end.

Definition metricDuration (m : metric) : Z :=
  match m with
  | RabbitMessage _ _ _ _ _ d => d
  | WsEvent _ _ d => d
  | HttpRequest _ _ _ d => d
  | ErrorCount _ _ _ => 0%Z
  end.

(** Between the world [after] the guarded code returned and the [final]
    world: the status of the span is OK, nothing more was recorded on it,
    it got one more [end()], and one success metric was appended whose
    duration is the time from [startTime] to the end of the guarded code. *)
Definition successRecorded (startTime span : nat) (after final : world) : Prop :=
  forall sp,
    spans after !! span = Some sp ->
    exists sp',
      spans final !! span = Some sp'
      /\ status sp' = Ok
      /\ exceptions sp' = exceptions sp
      /\ endCalls sp' = S (endCalls sp)
      /\ exists m, metrics final = (metrics after ++ [m])%list
                   /\ isSuccess m = true
                   /\ metricDuration m = elapsed startTime (clock after).

(** The world after the end of a [try] block that succeeded and the
    [finally] clause: status OK, the metric recorded, the span ended. *)
Definition afterSuccess (span : nat) (m : metric) (after : world) : world :=
  snd (endSpan span (snd (recordMetric m (snd (setStatus span Ok after))))).

End Telemetry.

(** ** The RabbitMQ interceptor (interceptors/rabbitmq-interceptor.ts) *)

Module RabbitMQ.
Import Telemetry.

(** The options object handed to [send]: its [headers] and the rest. *)
Record sendOptions : Type := mkSendOptions {
  optHeaders : option (gmap string value);
  optRest : list (string * value)
}.

(** The [send] method found on the prototype: the client's own, which
    runs in the process like any other code (it takes its time, may start
    spans of its own, returns or throws), or the replacement installed by
    the interceptor. *)
Inductive send_fn : Type :=
| OriginalSend (impl : string -> value -> sendOptions -> T bool)
| PatchedSend.

(** [RabbitMQClass], by its prototype when it has one. *)
Record proto : Type := mkProto { send : option send_fn }.

Record RabbitMQClass : Type := mkClass { prototype : option proto }.

(** The module-level variables. *)
Record state : Type := mkState {
  isPatched : bool;
  originalSend : option send_fn;
  serviceName : string
}.

Definition initialState : state := mkState false None "unknown-service".

Definition nonEmpty (o : option string) : option string :=
  match o with
  | Some s => if String.eqb s "" then None else Some s
  | None => None
  end.

(** [options?.serviceName || process.env.SERVICE_NAME || 'unknown-service'] *)
Definition resolveServiceName (optionsServiceName envServiceName : option string)
  : string :=
  match nonEmpty optionsServiceName with
  | Some s => s
  | None => match nonEmpty envServiceName with
            | Some s => s
            | None => "unknown-service"
            end
  end.

(** [patchRabbitMQ(RabbitMQClass)]; reading [send] off a missing prototype
    throws a TypeError. *)
Definition patchRabbitMQ (cls : RabbitMQClass) (st : state)
  : outcome (RabbitMQClass * state) :=
  match prototype cls with
  | None => Threw (ErrorObject "TypeError" "Cannot read properties of undefined")
  | Some p =>
      let '(p1, st1) :=
        match send p, originalSend st with
        | Some f, None =>
            (mkProto (Some PatchedSend),
             mkState (isPatched st) (Some f) (serviceName st))
        | _, _ => (p, st)
        end in
      Returned (mkClass (Some p1),
                mkState true (originalSend st1) (serviceName st1))
  end.

(** [initRabbitMQInterceptor(RabbitMQClass, options)] *)
Definition initRabbitMQInterceptor (cls : RabbitMQClass)
           (optionsServiceName envServiceName : option string) (st : state)
  : RabbitMQClass * state :=
  if isPatched st then (cls, st)
  else
    let st1 :=
      mkState (isPatched st) (originalSend st)
              (resolveServiceName optionsServiceName envServiceName) in
    match patchRabbitMQ cls st1 with
    | Returned r => r
    | Threw _ => (cls, st1)
    end.

(** [originalSend!.call(this, queue, msg, options)].  A missing original
    is a TypeError; the replacement stored as its own original would call
    itself until the stack is exhausted. *)
Definition callOriginal (st : state) (queue : string) (msg : value)
           (options : sendOptions) : T bool :=
  match originalSend st with
  | Some (OriginalSend impl) => impl queue msg options
  | Some PatchedSend =>
      throw (ErrorObject "RangeError" "Maximum call stack size exceeded")
  | None => throw (ErrorObject "TypeError" "Cannot read properties of null")
  end.

(** A client [send] that itself starts no span and records no metric. *)
Definition quietSend (impl : string -> value -> sendOptions -> T bool) : Prop :=
  forall queue msg options w, grows 0 0 w (snd (impl queue msg options w)).

(** What the patched [send] has set up when it enters its [try] block. *)
Record sendScope : Type := mkSendScope {
  sendStartTime : nat;
  sendHeaders : gmap string value;
  sendSpan : nat
}.

Definition openSendScope (st : state) (queue : string) (options : option sendOptions)
  : T sendScope :=
  let! startTime := dateNow in
  let headers : gmap string value :=
    match options with
    | Some o => match optHeaders o with Some h => h | None => ∅ end
    | None => ∅
    end in
  let! ambient := contextActive in
  let! span :=
    startSpan (queue ++ " send") PRODUCER
      [ ("messaging.system", VStr "rabbitmq");
        ("messaging.operation", VStr "publish");
        ("messaging.destination", VStr queue);
        ("messaging.rabbitmq.queue", VStr queue);
        ("service.name", VStr (serviceName st)) ]
      ambient in
  ret (mkSendScope startTime headers span).

(** The first statements of the [try] block: the context of the span is
    injected into the headers and the original is called with
    [{...options, headers}]. *)
Definition forwardSend (st : state) (queue : string) (msg : value)
           (options : option sendOptions) (sc : sendScope) : T bool :=
  let! current := contextActive in
  let! activeContext := setSpan current (sendSpan sc) in
  let headers := OTel.inject activeContext (sendHeaders sc) in
  callOriginal st queue msg
    (mkSendOptions (Some headers)
                   (match options with Some o => optRest o | None => [] end)).

(** The function installed as [proto.send]. *)
Definition patchedSend (st : state) (queue : string) (msg : value)
           (options : option sendOptions) : T bool :=
  let! sc := openSendScope st queue options in
  tryCatchFinally
    (let! result := forwardSend st queue msg options sc in
     let! _ := setStatus (sendSpan sc) Ok in
     let! finished := dateNow in
     let! _ := recordMetric
                 (RabbitMessage queue None None "publish" true
                                (elapsed (sendStartTime sc) finished)) in
     ret result)
    (fun error =>
     let! _ := recordOnSpan (sendSpan sc) error in
     let! finished := dateNow in
     let! _ := recordMetric
                 (RabbitMessage queue None None "publish" false
                                (elapsed (sendStartTime sc) finished)) in
     throw error)
    (endSpan (sendSpan sc)).

(** [instance.send(queue, msg, options)] through the prototype. *)
Definition callSend (cls : RabbitMQClass) (st : state) (queue : string) (msg : value)
           (options : option sendOptions) : T bool :=
  match prototype cls with
  | Some (mkProto (Some (OriginalSend impl))) =>
      impl queue msg (match options with Some o => o | None => mkSendOptions None [] end)
  | Some (mkProto (Some PatchedSend)) => patchedSend st queue msg options
  | _ => throw (ErrorObject "TypeError" "send is not a function")
  end.

(** *** Consuming *)

Record ConsumeMessage : Type := mkConsumeMessage {
  exchange : string;
  routingKey : string;
  deliveryTag : nat;
  headers : option (gmap string value)
}.

(** What [wrapConsumer] has set up when it enters its [try] block. *)
Record consumeScope : Type := mkConsumeScope {
  startTime : nat;
  scopeExchange : string;
  scopeRoutingKey : string;
  span : nat;
  activeContext : OTel.Context
}.

Definition openConsumeScope (st : state) (msg : ConsumeMessage) (queue : string)
  : T consumeScope :=
  let! startTime := dateNow in
  let headers : gmap string value :=
    match headers msg with Some h => h | None => ∅ end in
  let! ambient := contextActive in
  let parentContext := OTel.extract ambient headers in
  let exchange := if String.eqb (exchange msg) "" then "default" else exchange msg in
  let routingKey := if String.eqb (routingKey msg) "" then queue else routingKey msg in
  let! span :=
    startSpan (queue ++ " process") CONSUMER
      [ ("messaging.system", VStr "rabbitmq");
        ("messaging.operation", VStr "process");
        ("messaging.destination", VStr exchange);
        ("messaging.rabbitmq.exchange", VStr exchange);
        ("messaging.rabbitmq.routing_key", VStr routingKey);
        ("messaging.rabbitmq.queue", VStr queue);
        ("service.name", VStr (serviceName st)) ]
      parentContext in
  let! activeContext := setSpan parentContext span in
  ret (mkConsumeScope startTime exchange routingKey span activeContext).

(** [wrapConsumer(msg, queue, handler)] *)
Definition wrapConsumer {A : Type} (st : state) (msg : ConsumeMessage) (queue : string)
           (handler : nat -> T A) : T A :=
  let! sc := openConsumeScope st msg queue in
  tryCatchFinally
    (let! result := contextWith (activeContext sc) (handler (span sc)) in
     let! _ := setStatus (span sc) Ok in
     let! finished := dateNow in
     let! _ := recordMetric
                 (RabbitMessage queue (Some (scopeExchange sc)) (Some (scopeRoutingKey sc))
                                "consume" true (elapsed (startTime sc) finished)) in
     ret result)
    (fun error =>
     let! _ := recordOnSpan (span sc) error in
     let! finished := dateNow in
     let! _ := recordMetric
                 (RabbitMessage queue (Some (scopeExchange sc)) (Some (scopeRoutingKey sc))
                                "consume" false (elapsed (startTime sc) finished)) in
     throw error)
    (endSpan (span sc)).

(** [restoreRabbitMQ(RabbitMQClass)].  Assigning [send] on a missing
    prototype throws a TypeError, before any module variable is written. *)
Definition restoreRabbitMQ (cls : RabbitMQClass) (st : state)
  : outcome (RabbitMQClass * state) :=
  if negb (isPatched st) then Returned (cls, st)
  else
    match originalSend st with
    | Some f =>
        match prototype cls with
        | Some _ =>
            Returned (mkClass (Some (mkProto (Some f))),
                      mkState false None (serviceName st))
        | None => Threw (ErrorObject "TypeError" "Cannot set properties of undefined")
        end
    | None => Returned (cls, mkState false (originalSend st) (serviceName st))
    end.

End RabbitMQ.

(** ** The Socket.IO interceptor (interceptors/socketio-interceptor.ts) *)

Module SocketIO.
Import Telemetry.

Record handshake : Type := mkHandshake {
  headers : option (list (string * value));
  query : option (list (string * value));
  address : value
}.

(** What the traced handlers read off the socket. *)
Record socketInfo : Type := mkSocketInfo {
  socketId : string;
  socketHandshake : option handshake
}.

(** [headersToCarrier(headers)] *)
Definition headersToCarrier (headers : list (string * value)) : gmap string value :=
  fold_left
    (fun (carrier : gmap string value) (entry : string * value) =>
       match snd entry with
       | VStr s => <[toLowerCase (fst entry) := VStr s]> carrier
       | VArr (first :: _) => <[toLowerCase (fst entry) := first]> carrier
       | _ => carrier
       end)
    headers ∅.

(** The value of [socket.handshake?.query?.[key]] when it is truthy. *)
Definition queryParam (sock : socketInfo) (key : string) : option value :=
  match socketHandshake sock with
  | Some hs =>
      match query hs with
      | Some q =>
          match getProp key q with
          | Some v => if truthy v then Some v else None
          | None => None
          end
      | None => None
      end
  | None => None
  end.

(** The carrier that [extractTraceContext(socket, args)] hands to
    [propagation.extract]. *)
Definition traceCarrier (sock : socketInfo) (args : list value) : gmap string value :=
  let carrier : gmap string value := ∅ in
  (* 1. Handshake headers *)
  let carrier :=
    match socketHandshake sock with
    | Some hs =>
        match headers hs with
        | Some h => headersToCarrier h
        | None => carrier
        end
    | None => carrier
    end in
  (* 2. _trace property in payload *)
  let carrier :=
    match args with
    | VObj props :: _ =>
        match getProp "_trace" props with
        | Some t => list_to_map (spreadEntries t) ∪ carrier
        | None => carrier
        end
    | _ => carrier
    end in
  (* 3. Query params *)
  let carrier :=
    match queryParam sock "traceparent" with
    | Some v => <["traceparent" := VStr (toStringJs v)]> carrier
    | None => carrier
    end in
  let carrier :=
    match queryParam sock "tracestate" with
    | Some v => <["tracestate" := VStr (toStringJs v)]> carrier
    | None => carrier
    end in
  carrier.

Definition extractTraceContext (sock : socketInfo) (args : list value)
  : T OTel.Context :=
  let! ambient := contextActive in
  ret (OTel.extract ambient (traceCarrier sock args)).

(** What the traced handler has set up when it enters its [try] block. *)
Record eventScope : Type := mkEventScope {
  startTime : nat;
  span : nat;
  activeContext : OTel.Context
}.

Definition openEventScope (serviceName : string) (sock : socketInfo) (event : string)
           (args : list value) : T eventScope :=
  let! startTime := dateNow in
  let! parentContext := extractTraceContext sock args in
  let! span :=
    startSpan ("ws." ++ event) SERVER
      [ ("messaging.system", VStr "socket.io");
        ("messaging.operation.type", VStr "receive");
        ("ws.event.name", VStr event);
        ("ws.client.id", VStr (socketId sock));
        ("service.name", VStr serviceName);
        ("network.transport", VStr "websocket");
        ("client.address",
         match socketHandshake sock with
         | Some hs => address hs
         | None => VUndefined
         end) ]
      parentContext in
  let! activeContext := setSpan parentContext span in
  ret (mkEventScope startTime span activeContext).

(** [wrappedHandler(...args)] of [wrapSocket], for the handler given to
    [socket.on(event, handler)]. *)
Definition wrappedHandler (serviceName : string) (sock : socketInfo) (event : string)
           (handler : list value -> T unit) (args : list value) : T unit :=
  let! sc := openEventScope serviceName sock event args in
  tryCatchFinally
    (let! _ := contextWith (activeContext sc) (handler args) in
     let! _ := setStatus (span sc) Ok in
     let! finished := dateNow in
     recordMetric (WsEvent event true (elapsed (startTime sc) finished)))
    (fun error =>
     let! _ := recordOnSpan (span sc) error in
     let! finished := dateNow in
     let! _ := recordMetric (WsEvent event false (elapsed (startTime sc) finished)) in
     throw error)
    (endSpan (span sc)).

(** What the function returned by [wrapSocketHandler] has set up when it
    enters its [try] block. *)
Definition openHandlerScope (serviceName : string) (sock : socketInfo) (event : string)
           (args : list value) : T eventScope :=
  let! startTime := dateNow in
  let! parentContext := extractTraceContext sock args in
  let! span :=
    startSpan ("ws." ++ event) SERVER
      [ ("messaging.system", VStr "socket.io");
        ("ws.event.name", VStr event);
        ("ws.client.id", VStr (socketId sock));
        ("service.name", VStr serviceName) ]
      parentContext in
  let! activeContext := setSpan parentContext span in
  ret (mkEventScope startTime span activeContext).

(** The function that [wrapSocketHandler(event, socket, handler)] returns. *)
Definition wrapSocketHandler {A : Type} (serviceName : string) (sock : socketInfo)
           (event : string) (handler : list value -> T A) (args : list value) : T A :=
  let! sc := openHandlerScope serviceName sock event args in
  tryCatchFinally
    (let! result := contextWith (activeContext sc) (handler args) in
     let! _ := setStatus (span sc) Ok in
     let! finished := dateNow in
     let! _ := recordMetric (WsEvent event true (elapsed (startTime sc) finished)) in
     ret result)
    (fun error =>
     let! _ := recordOnSpan (span sc) error in
     let! finished := dateNow in
     let! _ := recordMetric (WsEvent event false (elapsed (startTime sc) finished)) in
     throw error)
    (endSpan (span sc)).

(** The own properties of a carrier object that the propagator filled, in
    the order it writes them. *)
Definition carrierObject (c : gmap string value) : value :=
  VObj (omap (fun key => match c !! key with
                         | Some v => Some (key, v)
                         | None => None
                         end)
             ["traceparent"; "tracestate"]).

(** [injectTraceContext(data)]: [{...data, _trace: carrier}] *)
Definition injectTraceContext (data : list (string * value))
  : T (list (string * value)) :=
  let! ambient := contextActive in
  let carrier := OTel.inject ambient ∅ in
  ret (setProp "_trace" (carrierObject carrier) data).

(** *** Registration *)

(** A registered listener: the application's function, or the traced
    version built around another listener. *)
Inductive handler : Type :=
| AppHandler (run : list value -> T unit)
| Traced (event : string) (inner : handler).

Fixpoint runHandler (serviceName : string) (sock : socketInfo) (h : handler)
  : list value -> T unit :=
  match h with
  | AppHandler run => run
  | Traced event inner =>
      wrappedHandler serviceName sock event (runHandler serviceName sock inner)
  end.

(** The [on] method of a socket: the library's, or the override installed
    by [wrapSocket] around the method it found. *)
Inductive on_fn : Type :=
| NativeOn
| InterceptedOn (originalOn : on_fn).

Record socket : Type := mkSocket {
  info : socketInfo;
  on : on_fn;
  listeners : list (string * handler)
}.

Definition isReserved (event : string) : bool :=
  startsWith event "$" || String.eqb event "disconnect" || String.eqb event "error".

(** [on(event, handler)]: what ends up among the socket's listeners. *)
Fixpoint callOn (f : on_fn) (event : string) (h : handler)
         (registered : list (string * handler)) : list (string * handler) :=
  match f with
  | NativeOn => (registered ++ [(event, h)])%list
  | InterceptedOn originalOn =>
      if isReserved event then callOn originalOn event h registered
      else callOn originalOn event (Traced event h) registered
  end.

Definition socketOn (s : socket) (event : string) (h : handler) : socket :=
  mkSocket (info s) (on s) (callOn (on s) event h (listeners s)).

(** [wrapSocket(socket)] *)
Definition wrapSocket (s : socket) : socket :=
  mkSocket (info s) (InterceptedOn (on s)) (listeners s).

(** A listener of the server's [connection] event: the interceptor's, or
    an application's that registers the given handlers on the socket. *)
Inductive connectionListener : Type :=
| InterceptorListener
| AppListener (registers : list (string * handler)).

Record server : Type := mkServer { connectionListeners : list connectionListener }.

(** [io.on('connection', listener)] *)
Definition ioOnConnection (io : server) (l : connectionListener) : server :=
  mkServer (connectionListeners io ++ [l])%list.

(** [initSocketIOInterceptor(io, options)]: the server and the module's
    [serviceName] afterwards. *)
Definition initSocketIOInterceptor (io : server)
           (optionsServiceName envServiceName : option string)
  : server * string :=
  (ioOnConnection io InterceptorListener,
   RabbitMQ.resolveServiceName optionsServiceName envServiceName).

(** A client connects: the [connection] listeners run in the order of
    their registration. *)
Definition runConnectionListener (s : socket) (l : connectionListener) : socket :=
  match l with
  | InterceptorListener => wrapSocket s
  | AppListener registers =>
      fold_left (fun s eh => socketOn s (fst eh) (snd eh)) registers s
  end.

Definition connect (io : server) (s : socket) : socket :=
  fold_left runConnectionListener (connectionListeners io) s.

(** The socket receives [event]: every listener registered for it runs;
    the settlements of the promises they return are collected. *)
Fixpoint runListeners (serviceName : string) (sock : socketInfo) (event : string)
         (args : list value) (registered : list (string * handler))
  : world -> list (outcome unit) * world :=
  fun w =>
    match registered with
    | [] => ([], w)
    | (ev, h) :: rest =>
        if String.eqb ev event then
          let '(r, w1) := runHandler serviceName sock h args w in
          let '(rs, w2) := runListeners serviceName sock event args rest w1 in
          (r :: rs, w2)
        else runListeners serviceName sock event args rest w
    end.

Definition receive (serviceName : string) (s : socket) (event : string)
           (args : list value) : world -> list (outcome unit) * world :=
  runListeners serviceName (info s) event args (listeners s).

(** [n] traced layers around a listener, and [n] overrides around [on]. *)
Fixpoint tracedTimes (n : nat) (event : string) (h : handler) : handler :=
  match n with
  | O => h
  | S k => Traced event (tracedTimes k event h)
  end.

Fixpoint interceptedTimes (n : nat) (f : on_fn) : on_fn :=
  match n with
  | O => f
  | S k => InterceptedOn (interceptedTimes k f)
  end.

(** [initSocketIOInterceptor(io)] called [n] times on the same server. *)
Definition initTimes (n : nat) (io : server) : server :=
  Nat.iter n (fun io => fst (initSocketIOInterceptor io None None)) io.

(** An application handler that itself starts no span and records no
    metric. *)
Definition quiet (run : list value -> T unit) : Prop :=
  forall args w, grows 0 0 w (snd (run args w)).

(** *** The three sources in the words of the specification *)

(** The carrier of each source, when the source is present. *)
Definition payloadSource (args : list value) : option (gmap string value) :=
  match args with
  | VObj props :: _ =>
      match getProp "_trace" props with
      | Some t => Some (list_to_map (spreadEntries t))
      | None => None
      end
  | _ => None
  end.

Definition handshakeSource (sock : socketInfo) : option (gmap string value) :=
  match socketHandshake sock with
  | Some hs =>
      match headers hs with
      | Some h => Some (headersToCarrier h)
      | None => None
      end
  | None => None
  end.

Definition querySource (sock : socketInfo) : option (gmap string value) :=
  match queryParam sock "traceparent", queryParam sock "tracestate" with
  | None, None => None
  | tp, ts =>
      Some (match ts with
            | Some v => <["tracestate" := VStr (toStringJs v)]>
            | None => fun c => c
            end
              (match tp with
               | Some v => {["traceparent" := VStr (toStringJs v)]}
               | None => ∅
               end))
  end.

(** The query parameter that overrides [key], if any. *)
Definition queryOverride (sock : socketInfo) (key : string) : option value :=
  if String.eqb key "traceparent" || String.eqb key "tracestate"
  then match queryParam sock key with
       | Some v => Some (VStr (toStringJs v))
       | None => None
       end
  else None.

Definition sourceLookup (source : option (gmap string value)) (key : string)
  : option value :=
  match source with
  | Some c => c !! key
  | None => None
  end.

(** First match wins, no merging: payload field, then handshake headers,
    then query parameters. *)
Definition spec_firstMatchCarrier (sock : socketInfo) (args : list value)
  : gmap string value :=
  match payloadSource args with
  | Some c => c
  | None =>
      match handshakeSource sock with
      | Some c => c
      | None =>
          match querySource sock with
          | Some c => c
          | None => ∅
          end
      end
  end.



End SocketIO.

(** ** The HTTP metrics middleware (middlewares/http-metrics.ts) *)

Module HttpMetrics.
Import Telemetry.

Record request : Type := mkRequest {
  method : string;
  path : string;
  baseUrl : string;
  routePath : option string      (* req.route?.path *)
}.

(** The listeners of the response's [finish] event: each remembers the
    [startTime] its middleware call captured. *)
Record response : Type := mkResponse {
  statusCode : nat;
  finishListeners : list nat
}.

Definition ignoredPaths : list string :=
  ["/health"; "/healthz"; "/ready"; "/metrics"; "/favicon.ico"].

(** [shouldIgnore(path)] *)
Definition shouldIgnore (path : string) : bool :=
  existsb (fun ignored => startsWith path ignored) ignoredPaths.

(** *** The two regular expressions of [getRoute] *)

Inductive charClass : Type := Hex | Dash.

Definition isDigit (c : ascii) : bool :=
  let n := nat_of_ascii c in (48 <=? n)%nat && (n <=? 57)%nat.

(** [[0-9a-f]] under the [i] flag. *)
Definition isHex (c : ascii) : bool :=
  let n := nat_of_ascii c in
  isDigit c || ((97 <=? n)%nat && (n <=? 102)%nat) || ((65 <=? n)%nat && (n <=? 70)%nat).

Definition inClass (k : charClass) (c : ascii) : bool :=
  match k with
  | Hex => isHex c
  | Dash => Ascii.eqb c "-"
  end.

(** [[0-9a-f]{8}-[0-9a-f]{4}-[0-9a-f]{4}-[0-9a-f]{4}-[0-9a-f]{12}] *)
Definition uuidPattern : list charClass :=
  (repeat Hex 8 ++ [Dash] ++ repeat Hex 4 ++ [Dash] ++ repeat Hex 4 ++ [Dash]
   ++ repeat Hex 4 ++ [Dash] ++ repeat Hex 12)%list.

(** Whether the string starts with a match of the pattern. *)
Fixpoint matchesAt (pattern : list charClass) (s : string) : bool :=
  match pattern, s with
  | [], _ => true
  | k :: ks, String c rest => inClass k c && matchesAt ks rest
  | _ :: _, EmptyString => false
  end.

(** [s.replace(/<uuid>/gi, ':id')]: matches are found left to right and do
    not overlap; [skip] counts the characters of a match still to drop. *)
Fixpoint replaceUuids (skip : nat) (s : string) : string :=
  match s with
  | EmptyString => EmptyString
  | String c rest =>
      match skip with
      | S k => replaceUuids k rest
      | O =>
          if matchesAt uuidPattern s then ":id" ++ replaceUuids 35 rest
          else String c (replaceUuids 0 rest)
      end
  end.

Definition startsWithDigit (s : string) : bool :=
  match s with
  | String c _ => isDigit c
  | EmptyString => false
  end.

(** [s.replace(/\/\d+/g, '/:id')]; [inMatch] says that the digits of a
    match are being dropped. *)
Fixpoint replaceNumbers (inMatch : bool) (s : string) : string :=
  match s with
  | EmptyString => EmptyString
  | String c rest =>
      if inMatch && isDigit c then replaceNumbers true rest
      else if Ascii.eqb c "/" && startsWithDigit rest
           then "/:id" ++ replaceNumbers true rest
           else String c (replaceNumbers false rest)
  end.

Definition nonEmptyString (o : option string) : bool :=
  match o with Some s => negb (String.eqb s "") | None => false end.

(** [getRoute(req)] *)
Definition getRoute (req : request) : string :=
  if nonEmptyString (routePath req)
  then match routePath req with Some p => p | None => "" end
  else if negb (String.eqb (baseUrl req) "") && nonEmptyString (routePath req)
       then baseUrl req ++ match routePath req with Some p => p | None => "" end
       else replaceNumbers false (replaceUuids 0 (path req)).

(** [httpMetricsMiddleware(req, res, next)]: the response object as the
    call leaves it; [next] is the rest of the chain. *)
Definition httpMetricsMiddleware (req : request) (res : response) (next : T unit)
  : T response :=
  if shouldIgnore (path req) then
    let! _ := next in ret res
  else
    let! startTime := dateNow in
    let res := mkResponse (statusCode res) (finishListeners res ++ [startTime])%list in
    let! _ := next in
    ret res.

(** The response finishes: every [finish] listener records its metric,
    reading the request and the response as they are by then. *)
Fixpoint runFinishListeners (req : request) (status : nat) (starts : list nat)
  : T unit :=
  match starts with
  | [] => ret tt
  | startTime :: rest =>
      let! finished := dateNow in
      let durationMs := elapsed startTime finished in
      let route := getRoute req in
      let! _ := recordMetric (HttpRequest (method req) route status durationMs) in
      runFinishListeners req status rest
  end.

Definition emitFinish (req : request) (res : response) : T unit :=
  runFinishListeners req (statusCode res) (finishListeners res).

(** *** Segments, for the normalization as the specification words it *)

Fixpoint allDigits (s : string) : bool :=
  match s with
  | EmptyString => true
  | String c rest => isDigit c && allDigits rest
  end.

Fixpoint containsUuid (s : string) : bool :=
  matchesAt uuidPattern s
  || match s with
     | EmptyString => false
     | String _ rest => containsUuid rest
     end.

Definition isUuidSegment (s : string) : bool :=
  matchesAt uuidPattern s && Nat.eqb (String.length s) 36.

Definition isNumericSegment (s : string) : bool :=
  negb (String.eqb s "") && allDigits s.

(** A segment the two expressions leave alone: it does not start with a
    digit and contains no match of the UUID pattern. *)
Definition isPlainSegment (s : string) : bool :=
  negb (startsWithDigit s) && negb (containsUuid s).

(** ["/" ++ s1 ++ "/" ++ s2 ++ ...] *)
Fixpoint joinSegments (segments : list string) : string :=
  match segments with
  | [] => EmptyString
  | s :: rest => "/" ++ s ++ joinSegments rest
  end.

(** The specification's rule: a UUID-shaped or purely numeric segment
    becomes the placeholder, every other segment stays. *)
Definition spec_normalizeSegment (s : string) : string :=
  if isUuidSegment s || isNumericSegment s then ":id" else s.

Definition spec_normalizePath (segments : list string) : string :=
  joinSegments (map spec_normalizeSegment segments).

(** What each of the two passes makes of a segment. *)
Definition afterUuids (s : string) : string := if isUuidSegment s then ":id" else s.

Definition afterNumbers (s : string) : string :=
  if isNumericSegment s then ":id" else s.

(** What the second pass can be given. *)
Definition secondPassSegment (s : string) : bool :=
  negb (hasChar "/" s) && (isNumericSegment s || negb (startsWithDigit s)).

(** A tail of a joined path: nothing, or a slash and more. *)
Definition pathTail (t : string) : Prop := t = "" \/ exists r, t = String "/" r.

(** The paths on which code and rule agree. *)
Definition regularSegment (s : string) : bool :=
  negb (hasChar "/" s)
  && (isUuidSegment s || isNumericSegment s || isPlainSegment s).

(** Whether a slash is directly followed by a digit somewhere in the
    string: whether [/\/\d+/] has a match. *)
Fixpoint hasSlashDigit (s : string) : bool :=
  match s with
  | EmptyString => false
  | String c rest => (Ascii.eqb c "/" && startsWithDigit rest) || hasSlashDigit rest
  end.

End HttpMetrics.

(** ** The error middleware (middlewares/error-handler.ts) *)

Module ErrorHandler.
Import Telemetry.

(** [isAxiosError(error)] *)
Definition isAxiosError (error : list (string * value)) : bool :=
  match getProp "isAxiosError" error with
  | Some v => truthy v
  | None => false
  end.

(** [isPrismaKnownRequestError(error)] *)
Definition isPrismaKnownRequestError (error : list (string * value)) : bool :=
  hasProp "code" error && hasProp "clientVersion" error && hasProp "name" error
  && match getProp "name" error with
     | Some (VStr n) => String.eqb n "PrismaClientKnownRequestError"
     | _ => false
     end.

Inductive ErrorType : Type := AXIOS | PRISMA_KNOWN | GENERIC.

Definition errorTypeName (t : ErrorType) : string :=
  match t with
  | AXIOS => "AxiosError"
  | PRISMA_KNOWN => "PrismaClientKnownRequestError"
  | GENERIC => "Error"
  end.

(** [classifyError(error)] *)
Definition classifyError (error : list (string * value)) : ErrorType :=
  if isAxiosError error then AXIOS
  else if isPrismaKnownRequestError error then PRISMA_KNOWN
  else GENERIC.

Definition prop (key : string) (obj : list (string * value)) : value :=
  match getProp key obj with Some v => v | None => VUndefined end.

Definition text (v : value) : string :=
  match v with VStr s => s | _ => "" end.

(** [a || b] *)
Definition orElse (a b : value) : value := if truthy a then a else b.

(** The span of the active context, when it is one of this process. *)
Definition activeSpan (w : world) : option nat :=
  match active w with
  | Some sc =>
      fst <$> list_find (fun s => bool_decide (OTel.spanId (spanContext s) = OTel.spanId sc
                                               /\ OTel.traceId (spanContext s) = OTel.traceId sc))
                        (spans w)
  | None => None
  end.

Definition setAttribute (span : nat) (key : string) (v : value) : T unit :=
  updateSpan span (fun s =>
    mkSpan (name s) (kind s) (setProp key v (attributes s)) (parent s) (spanContext s)
           (status s) (exceptions s) (endCalls s)).

(** What the middleware hands to [res.status(...).json(...)] and to
    [logger.error(...)]. *)
Record handled : Type := mkHandled {
  sentStatus : value;
  sentBody : value;
  logMessage : string;
  logMeta : list (string * value)
}.

Record request : Type := mkRequest { method : string; url : string; path : string }.

(** The response object, by the one thing the middleware asks of it:
    [res.status(code).json(body)].  The object is Express's: whether it
    sends the code, coerces it or throws on one that is no HTTP status is
    not decided in this repository. *)
Record response : Type := mkResponse { statusJson : value -> value -> T unit }.

(** [error.response?.status || error.code || 'unknown'] *)
Definition errorCodeSource (error : list (string * value)) : value :=
  orElse (orElse (match prop "response" error with
                  | VObj r => prop "status" r
                  | _ => VUndefined
                  end)
                 (prop "code" error))
         (VStr "unknown").

(** Whether the error code can be computed: [String(...)] is reached for
    an Axios error without the Prisma shape and throws on a value that
    cannot be converted. *)
Definition errorCodeConverts (error : list (string * value)) : bool :=
  isPrismaKnownRequestError error
  || negb (isAxiosError error)
  || negb (toStringThrows (errorCodeSource error)).

(** [observabilityErrorMiddleware(error, req, res, next)] up to its last
    statement: the telemetry, and what is handed to the logger and then
    to the response.  The call of [logger.error] acts on the console and
    on the log exporter, which are no part of [world]; its metadata has
    the five keys below and none of the fields that the development line
    formats. *)
Definition beforeResponse (error : list (string * value)) (req : request)
  : T handled :=
  let errorType := classifyError error in
  let! w := getWorld in
  let! _ :=
    match activeSpan w with
    | Some span =>
        let! _ := recordException span
                    (ErrorObject (text (prop "name" error)) (text (prop "message" error))) in
        let! _ := setStatus span (Error (text (prop "message" error))) in
        setAttribute span "error.type" (VStr (errorTypeName errorType))
    | None => ret tt
    end in
  let! errorCode :=
    if isPrismaKnownRequestError error then ret (prop "code" error)
    else if isAxiosError error then
      if toStringThrows (errorCodeSource error)
      then throw (ErrorObject "TypeError" "Cannot convert object to primitive value")
      else ret (VStr (toStringJs (errorCodeSource error)))
    else ret VUndefined in
  let! _ := recordMetric (ErrorCount (errorTypeName errorType) "http" errorCode) in
  let statusCode := orElse (prop "status" error) (VNum 500) in
  ret (mkHandled
         statusCode
         (VObj [("error", VObj [("message", prop "message" error);
                                ("type", VStr (errorTypeName errorType))])])
         ("Error in " ++ method req ++ " " ++ path req)
         [ ("error_type", VStr (errorTypeName errorType));
           ("error_name", prop "name" error);
           ("error_message", prop "message" error);
           ("stack_trace", prop "stack" error);
           ("http", VObj [("method", VStr (method req));
                          ("url", VStr (url req));
                          ("path", VStr (path req))]) ]).

(** [observabilityErrorMiddleware(error, req, res, next)]: the last
    statement is the call on the response; [next] is not used. *)
Definition observabilityErrorMiddleware (error : list (string * value)) (req : request)
           (res : response) : T unit :=
  let! h := beforeResponse error req in
  statusJson res (sentStatus h) (sentBody h).

End ErrorHandler.

(** ** Concrete inputs used by the examples of Part II *)

Module Scenario.

Definition passwordAndToken : list string := ["password"; "token"].

(** [{password: "secret", user: {token: "abc"}}] *)
Definition credentials : list (string * value) :=
  [ ("password", VStr "secret");
    ("user", VObj [("token", VStr "abc")]) ].

Definition devLogger (sensitive : list string) (otlp console : bool)
  : StructuredLogger.logger :=
  StructuredLogger.mkLogger (Some "Auth") "api" "development" OtelLogger.info
                            sensitive otlp console.

Definition noTrace : StructuredLogger.ambient :=
  StructuredLogger.mkAmbient "2024-01-01T00:00:00.000Z" None None.

(** A sampled span context. *)
Definition sampleContext : OTel.SpanContext :=
  OTel.mkSpanContext 0x4bf92f3577b34da6a3ce929d0e0e4736%N 0x00f067aa0ba902b7%N 1 None.

(** A socket whose handshake carried a [traceparent] header, and an event
    payload whose [_trace] field carries only a [tracestate]. *)
Definition tracedSocket : SocketIO.socketInfo :=
  SocketIO.mkSocketInfo "sock-1"
    (Some (SocketIO.mkHandshake
             (Some [("traceparent",
                     VStr "00-4bf92f3577b34da6a3ce929d0e0e4736-00f067aa0ba902b7-01")])
             None (VStr "10.0.0.7"))).

Definition payloadWithState : list value :=
  [VObj [("text", VStr "hi"); ("_trace", VObj [("tracestate", VStr "vendor=1")])]].

Definition freshIds (n : nat) : N * N := (N.of_nat n + 1, N.of_nat n + 1)%N.

(** Nothing started, nothing recorded, no active span. *)
Definition quietWorld : Telemetry.world := Telemetry.mkWorld 0 [] [] None freshIds.

Definition order : RabbitMQ.ConsumeMessage := RabbitMQ.mkConsumeMessage "" "" 1 None.

Definition plainSocket : SocketIO.socket :=
  SocketIO.mkSocket (SocketIO.mkSocketInfo "sock-2" None) SocketIO.NativeOn [].

(** A client whose [send] always succeeds. *)
Definition client : RabbitMQ.RabbitMQClass :=
  RabbitMQ.mkClass
    (Some (RabbitMQ.mkProto
             (Some (RabbitMQ.OriginalSend (fun _ _ _ => Telemetry.ret true))))).

End Scenario.

(* ================================================================== *)
(** * Part II: properties                                              *)
(* ================================================================== *)

Section Indices.

(** A decimal index is never the key [__proto__]. *)
Lemma pretty_N_go_head (x : N) :
  forall (s t : string), s <> String "_" t -> pretty_N_go x s <> String "_" t.
Proof.
  induction (N.lt_wf_0 x) as [x _ IH]. intros s t Hs.
  destruct (N.eq_dec x 0%N) as [->|Hx].
  - rewrite pretty_N_go_0. exact Hs.
  - assert (Hpos : (0 < x)%N) by lia.
    rewrite (pretty_N_go_step x s Hpos). apply IH.
    + apply N.div_lt; lia.
    + intros [= Hc _]. revert Hc. unfold pretty_N_char.
      repeat case_match; discriminate.
Qed.

Lemma pretty_index_assigned (i : nat) : String.eqb (pretty i) "__proto__" = false.
Proof.
  apply String.eqb_neq. unfold pretty, pretty_nat, pretty, pretty_N.
  destruct (decide (N.of_nat i = 0%N)); [discriminate|].
  apply pretty_N_go_head. discriminate.
Qed.

Lemma assignable_indexed {A : Type} (xs : list A) :
  forall i, assignable (indexed i xs) = indexed i xs.
Proof.
  unfold assignable. induction xs as [|x rest IH]; intros i; [reflexivity|].
  cbn [indexed List.filter fst]. rewrite pretty_index_assigned, IH. reflexivity.
Qed.

Lemma assignable_map {A B : Type} (f : string -> A -> B) (entries : list (string * A)) :
  assignable (map (fun kv => (fst kv, f (fst kv) (snd kv))) entries)
  = map (fun kv => (fst kv, f (fst kv) (snd kv))) (assignable entries).
Proof.
  unfold assignable. induction entries as [|[k x] rest IH]; [reflexivity|].
  cbn [map List.filter fst snd]. rewrite IH.
  destruct (String.eqb k "__proto__"); reflexivity.
Qed.

Lemma assignable_idempotent {A : Type} (entries : list (string * A)) :
  assignable (assignable entries) = assignable entries.
Proof.
  unfold assignable. induction entries as [|[k x] rest IH]; [reflexivity|].
  cbn [List.filter fst]. destruct (String.eqb k "__proto__") eqn:E; cbn [negb].
  - exact IH.
  - cbn [List.filter fst]. rewrite E, IH. reflexivity.
Qed.

Lemma Forall_assignable {A : Type} (P : string * A -> Prop) (entries : list (string * A)) :
  Forall P entries -> Forall P (assignable entries).
Proof.
  unfold assignable. induction 1 as [|[k x] rest Hx _ IH]; [constructor|].
  cbn [List.filter fst]. destruct (String.eqb k "__proto__"); cbn [negb]; auto.
Qed.

End Indices.

Section Redaction.
Import StructuredLogger.
Variable fields : list string.

Lemma maskSensitiveData_obj (props : list (string * value)) :
  maskSensitiveData fields (VObj props)
  = map (fun kv => (fst kv, maskProperty fields (fst kv) (snd kv))) (assignable props).
Proof.
  simpl. induction props as [|[k v] rest IH]; [reflexivity|].
  rewrite IH. unfold assignable. cbn [List.filter fst].
  destruct (String.eqb k "__proto__"); reflexivity.
Qed.

Lemma maskSensitiveData_arr_from (i : nat) (items : list value) :
  (fix each (i : nat) (xs : list value) : list (string * value) :=
     match xs with
     | [] => []
     | v :: rest =>
         (pretty i, maskProperty fields (pretty i) v) :: each (S i) rest
     end) i items
  = map (fun kv => (fst kv, maskProperty fields (fst kv) (snd kv)))
        (indexed i items).
Proof.
  revert i. induction items as [|v rest IH]; intros i; [reflexivity|].
  rewrite IH. reflexivity.
Qed.

Lemma maskSensitiveData_arr (items : list value) :
  maskSensitiveData fields (VArr items)
  = map (fun kv => (fst kv, maskProperty fields (fst kv) (snd kv)))
        (indexed 0 items).
Proof. rewrite <- maskSensitiveData_arr_from. reflexivity. Qed.

#[local] Arguments maskSensitiveData : simpl never.

Lemma eqb_eq_true (a b : string) : String.eqb a b = true -> a = b.
Proof. apply String.eqb_eq. Qed.

Lemma getProp_map_key (f : string -> value -> value) (k : string)
      (props : list (string * value)) :
  getProp k (map (fun kv => (fst kv, f (fst kv) (snd kv))) props)
  = option_map (f k) (getProp k props).
Proof.
  induction props as [|[k0 v0] rest IH]; [reflexivity|].
  simpl. destruct (String.eqb k0 k) eqn:E; [|exact IH].
  apply eqb_eq_true in E. subst. reflexivity.
Qed.

Lemma getProp_assignable {A : Type} (k : string) (props : list (string * A)) :
  getProp k (assignable props)
  = if String.eqb k "__proto__" then None else getProp k props.
Proof.
  unfold assignable. induction props as [|[k0 v0] rest IH]; simpl.
  - destruct (String.eqb k "__proto__"); reflexivity.
  - destruct (String.eqb k0 "__proto__") eqn:E0; simpl.
    + rewrite IH. destruct (String.eqb k "__proto__") eqn:Ek; [reflexivity|].
      destruct (String.eqb k0 k) eqn:E; [|reflexivity].
      apply eqb_eq_true in E. subst. congruence.
    + destruct (String.eqb k0 k) eqn:E; [|exact IH].
      apply eqb_eq_true in E. subst. rewrite E0. reflexivity.
Qed.

Lemma getProp_mask (k : string) (props : list (string * value)) :
  getProp k (maskSensitiveData fields (VObj props))
  = if String.eqb k "__proto__" then None
    else option_map (maskProperty fields k) (getProp k props).
Proof.
  rewrite maskSensitiveData_obj, getProp_map_key, getProp_assignable.
  destruct (String.eqb k "__proto__"); reflexivity.
Qed.

Lemma plainKey_assigned (k : string) :
  Nesting.plainKey k = true -> String.eqb k "__proto__" = false.
Proof.
  unfold Nesting.plainKey. intros H. apply andb_prop in H as [_ H].
  apply negb_true_iff in H. exact H.
Qed.

Lemma enter_mask (h : Nesting.hop) (props m : list (string * value)) :
  Nesting.enter h props = Some m ->
  String.eqb (Nesting.hop_key h) "__proto__" = false ->
  isSensitive fields (Nesting.hop_key h) = false ->
  Nesting.enter h (maskSensitiveData fields (VObj props))
  = Some (maskSensitiveData fields (VObj m)).
Proof.
  intros He Hp Hk. destruct h as [k|k i]; simpl in *; rewrite getProp_mask, Hp.
  - destruct (getProp k props) as [[]|] eqn:E; try discriminate.
    injection He as <-. simpl. unfold maskProperty. rewrite Hk. reflexivity.
  - destruct (getProp k props) as [[]|] eqn:E; try discriminate.
    simpl. unfold maskProperty. rewrite Hk.
    rewrite list_lookup_fmap.
    destruct (items !! i) as [[]|] eqn:Ei; try discriminate.
    injection He as <-. reflexivity.
Qed.

Lemma descend_mask (hops : list Nesting.hop) :
  forall props m,
    Nesting.descend hops props = Some m ->
    forallb (fun h => Nesting.plainKey (Nesting.hop_key h)
                      && negb (isSensitive fields (Nesting.hop_key h))) hops = true ->
    Nesting.descend hops (maskSensitiveData fields (VObj props))
    = Some (maskSensitiveData fields (VObj m)).
Proof.
  induction hops as [|h rest IH]; intros props m Hd Hs; simpl in *.
  - injection Hd as <-. reflexivity.
  - apply andb_prop in Hs as [Hh Hr]. apply andb_prop in Hh as [Hp Hh].
    apply negb_true_iff in Hh. apply plainKey_assigned in Hp.
    destruct (Nesting.enter h props) as [m1|] eqn:E; [|discriminate].
    rewrite (enter_mask _ _ _ E Hp Hh). apply IH; assumption.
Qed.

Lemma maskItem_scalar (x : value) : is_scalar x = true -> maskItem fields x = x.
Proof. destruct x; simpl; intros; try reflexivity; discriminate. Qed.

(** The three clauses, on the masked metadata itself. *)
Lemma mask_redacted_view (meta : list (string * value)) :
  Nesting.redacted_view fields meta (maskSensitiveData fields (VObj meta)).
Proof.
  intros hops key v Hv Hs Hkey. unfold Nesting.valueAt in *.
  destruct (Nesting.descend hops meta) as [m|] eqn:Hd; [|discriminate].
  rewrite (descend_mask _ _ _ Hd Hs), getProp_mask, (plainKey_assigned _ Hkey), Hv.
  simpl. unfold maskProperty. repeat split.
  - intros ->. reflexivity.
  - intros -> Hsc. destruct v; simpl in *; try reflexivity; discriminate.
  - intros -> items ->. exists (map (maskItem fields) items).
    split; [reflexivity|]. split; [apply length_map|].
    intros i x Hi Hx. rewrite list_lookup_fmap, Hi. simpl.
    rewrite maskItem_scalar; auto.
Qed.

Lemma hasProp_mask (k : string) (props : list (string * value)) :
  hasProp k (maskSensitiveData fields (VObj props))
  = negb (String.eqb k "__proto__") && hasProp k props.
Proof.
  unfold hasProp. rewrite getProp_mask.
  destruct (String.eqb k "__proto__"); [reflexivity|].
  destruct (getProp k props); reflexivity.
Qed.

Lemma distinct_keys_mask (props : list (string * value)) :
  Nesting.distinct_keys props = true ->
  Nesting.distinct_keys (maskSensitiveData fields (VObj props)) = true.
Proof.
  induction props as [|[k v] rest IH]; [reflexivity|].
  intros Hd. simpl in Hd. apply andb_prop in Hd as [Hfresh Hd].
  specialize (IH Hd). rewrite maskSensitiveData_obj in *.
  unfold assignable in *. cbn [List.filter fst].
  destruct (String.eqb k "__proto__") eqn:Ek; [exact IH|].
  cbn [negb map fst snd Nesting.distinct_keys]. rewrite IH, andb_true_r.
  apply negb_true_iff in Hfresh. apply negb_true_iff.
  pose proof (hasProp_mask k rest) as Hm. rewrite maskSensitiveData_obj in Hm.
  unfold assignable in Hm. rewrite Hm, Hfresh. apply andb_false_r.
Qed.

(** Redaction never returns an own [__proto__] key. *)
Lemma mask_no_proto (props : list (string * value)) :
  hasProp "__proto__" (maskSensitiveData fields (VObj props)) = false.
Proof. rewrite hasProp_mask. reflexivity. Qed.

End Redaction.

Section ObjectAssign.

Lemma getProp_setProp_eq (k : string) (v : value) (t : list (string * value)) :
  getProp k (setProp k v t) = Some v.
Proof.
  induction t as [|[k0 v0] rest IH]; simpl.
  - rewrite String.eqb_refl. reflexivity.
  - destruct (String.eqb k0 k) eqn:E; simpl; rewrite E; [reflexivity|exact IH].
Qed.

Lemma getProp_setProp_ne (k k' : string) (v : value) (t : list (string * value)) :
  String.eqb k k' = false ->
  getProp k' (setProp k v t) = getProp k' t.
Proof.
  intros Hne. induction t as [|[k0 v0] rest IH]; simpl.
  - rewrite Hne. reflexivity.
  - destruct (String.eqb k0 k) eqn:E; simpl.
    + apply String.eqb_eq in E. subst k0. rewrite Hne. reflexivity.
    + rewrite IH. reflexivity.
Qed.

Lemma getProp_assignProp_ne (k k' : string) (v : value) (t : list (string * value)) :
  String.eqb k k' = false ->
  getProp k' (assignProp k v t) = getProp k' t.
Proof.
  intros Hne. unfold assignProp.
  destruct (String.eqb k "__proto__"); [reflexivity|].
  apply getProp_setProp_ne. exact Hne.
Qed.

Lemma getProp_assign_notin (k : string) (source : list (string * value)) :
  forall target,
    hasProp k source = false ->
    getProp k (StructuredLogger.assign target source) = getProp k target.
Proof.
  unfold StructuredLogger.assign, hasProp.
  induction source as [|[k0 v0] rest IH]; intros target Hn; simpl in *.
  - reflexivity.
  - destruct (String.eqb k0 k) eqn:E; [discriminate|].
    rewrite IH by assumption. apply getProp_assignProp_ne. assumption.
Qed.

Lemma getProp_assign_in (k : string) (x : value) (source : list (string * value)) :
  forall target,
    Nesting.distinct_keys source = true ->
    hasProp "__proto__" source = false ->
    getProp k source = Some x ->
    getProp k (StructuredLogger.assign target source) = Some x.
Proof.
  induction source as [|[k0 v0] rest IH]; intros target Hd Hp Hg; simpl in *.
  - discriminate.
  - apply andb_prop in Hd as [Hfresh Hd]. apply negb_true_iff in Hfresh.
    unfold hasProp in Hp. simpl in Hp.
    destruct (String.eqb k0 "__proto__") eqn:E0; [discriminate|].
    destruct (String.eqb k0 k) eqn:E.
    + apply String.eqb_eq in E. subst k0. injection Hg as <-.
      change (getProp k (StructuredLogger.assign (assignProp k v0 target) rest)
              = Some v0).
      rewrite getProp_assign_notin by assumption.
      unfold assignProp. rewrite E0. apply getProp_setProp_eq.
    + apply (IH (assignProp k0 v0 target)); assumption.
Qed.

Lemma enter_ext (h : Nesting.hop) (a b : list (string * value)) :
  getProp (Nesting.hop_key h) a = getProp (Nesting.hop_key h) b ->
  Nesting.enter h a = Nesting.enter h b.
Proof. destruct h; simpl; intros ->; reflexivity. Qed.

Lemma enter_getProp (h : Nesting.hop) (a m : list (string * value)) :
  Nesting.enter h a = Some m -> exists x, getProp (Nesting.hop_key h) a = Some x.
Proof.
  destruct h; simpl; destruct (getProp key a) eqn:E; try discriminate; eauto.
Qed.

Lemma valueAt_assign (hops : list Nesting.hop) (k : string) (x : value)
      (target source : list (string * value)) :
  Nesting.distinct_keys source = true ->
  hasProp "__proto__" source = false ->
  Nesting.valueAt hops k source = Some x ->
  Nesting.valueAt hops k (StructuredLogger.assign target source) = Some x.
Proof.
  intros Hd Hp. unfold Nesting.valueAt. destruct hops as [|h rest]; simpl.
  - apply getProp_assign_in; assumption.
  - destruct (Nesting.enter h source) as [m|] eqn:E; [|discriminate].
    destruct (enter_getProp _ _ _ E) as [y Hy].
    rewrite (enter_ext h (StructuredLogger.assign target source) source), E.
    + trivial.
    + rewrite Hy. apply getProp_assign_in; assumption.
Qed.

Lemma redacted_view_assign (fields : list string)
      (meta masked target : list (string * value)) :
  Nesting.distinct_keys masked = true ->
  hasProp "__proto__" masked = false ->
  Nesting.redacted_view fields meta masked ->
  Nesting.redacted_view fields meta (StructuredLogger.assign target masked).
Proof.
  intros Hd Hp Hview hops key v Hv Hs Hkey.
  destruct (Hview hops key v Hv Hs Hkey) as (H1 & H2 & H3). repeat split.
  - intros Hk. apply valueAt_assign; auto.
  - intros Hk Hsc. apply valueAt_assign; auto.
  - intros Hk items Hitems. destruct (H3 Hk items Hitems) as (items' & Ha & Hb).
    exists items'. split; [|exact Hb]. apply valueAt_assign; auto.
Qed.

Lemma getProp_filter_key (keep : string -> bool) (k : string)
      (entry : list (string * value)) :
  getProp k (filter (fun kv => keep (fst kv)) entry)
  = if keep k then getProp k entry else None.
Proof.
  induction entry as [|[k0 v0] rest IH]; simpl.
  - destruct (keep k); reflexivity.
  - rewrite filter_cons.
    destruct (decide (Is_true (keep (fst (k0, v0))))) as [Hk|Hk]; simpl in Hk |- *.
    + apply Is_true_true in Hk.
      destruct (String.eqb k0 k) eqn:E; [|exact IH].
      apply String.eqb_eq in E. subst k0. rewrite Hk. reflexivity.
    + apply Is_true_false in Hk.
      destruct (String.eqb k0 k) eqn:E; [|exact IH].
      apply String.eqb_eq in E. subst k0. rewrite IH, Hk. reflexivity.
Qed.

Lemma winston_mask_same :
  WinstonOtelTransport.maskSensitiveData = StructuredLogger.maskSensitiveData.
Proof. reflexivity. Qed.

End ObjectAssign.

(** ** Redaction over the store: what is written and what returns *)

Section Frame.
Import Store.
Variable n : nat.

Lemma spec_ret {A : Type} (a : A) (R : A -> Prop) : R a -> spec n (ret a) R.
Proof.
  intros Ha h Hn Hc. simpl. repeat split; auto. intros b [= <-]. exact Ha.
Qed.

Lemma spec_abort {A : Type} (R : A -> Prop) : spec n (@abort A) R.
Proof. intros h Hn Hc. simpl. repeat split; auto. discriminate. Qed.

Lemma spec_bind {A B : Type} (m : M A) (k : A -> M B)
      (R1 : A -> Prop) (R2 : B -> Prop) :
  spec n m R1 -> (forall a, R1 a -> spec n (k a) R2) -> spec n (bind m k) R2.
Proof.
  intros Hm Hk h Hn Hc. unfold bind.
  destruct (Hm h Hn Hc) as (Hl & Ht & Hcl & Hr).
  destruct (m h) as [h1 [a|]]; simpl in *.
  - destruct (Hk a (Hr a eq_refl) h1 Hl Hcl) as (Hl2 & Ht2 & Hcl2 & Hr2).
    repeat split; auto. congruence.
  - repeat split; auto. discriminate.
Qed.

Lemma spec_read (l : loc) : spec n (read l) (fun _ => True).
Proof.
  intros h Hn Hc. unfold read.
  destruct (h !! l); simpl; repeat split; auto; intros; exact I.
Qed.

Lemma spec_alloc (c : cell) :
  Forall (ref_from n) (cell_values c) -> spec n (alloc c) (fun l => n <= l).
Proof.
  intros Hv h Hn Hc. unfold alloc. simpl. repeat split.
  - rewrite length_app. lia.
  - rewrite take_app_le by lia. reflexivity.
  - intros l c' Hl Hlook.
    destruct (decide (l < length h)) as [Hlt|Hge].
    + rewrite lookup_app_l in Hlook by assumption. eapply Hc; eauto.
    + rewrite lookup_app_r in Hlook by lia.
      destruct (l - length h) as [|k] eqn:E; simpl in Hlook; [|discriminate].
      injection Hlook as <-. exact Hv.
  - intros a [= <-]. exact Hn.
Qed.

Lemma Forall_setProp (key : string) (v : hvalue) (props : list (string * hvalue)) :
  ref_from n v ->
  Forall (ref_from n) (map snd props) ->
  Forall (ref_from n) (map snd (setProp key v props)).
Proof.
  intros Hv. induction props as [|[k x] rest IH]; simpl; intros Hp.
  - constructor; [exact Hv|constructor].
  - inversion Hp; subst. destruct (String.eqb k key); simpl; constructor; auto.
Qed.

Lemma Forall_assignProp (key : string) (v : hvalue) (props : list (string * hvalue)) :
  ref_from n v ->
  Forall (ref_from n) (map snd props) ->
  Forall (ref_from n) (map snd (assignProp key v props)).
Proof.
  intros Hv Hp. unfold assignProp.
  destruct (String.eqb key "__proto__"); [exact Hp|].
  apply Forall_setProp; assumption.
Qed.

Lemma spec_setPropAt (target : loc) (key : string) (v : hvalue) :
  n <= target -> ref_from n v -> spec n (setPropAt target key v) (fun _ => True).
Proof.
  intros Ht Hv h Hn Hc. unfold setPropAt.
  destruct (h !! target) as [[props|items]|] eqn:E; simpl; repeat split; auto;
    try (intros; exact I).
  - rewrite length_insert. exact Hn.
  - rewrite take_insert_ge by lia. reflexivity.
  - intros l c Hl Hlook.
    destruct (decide (l = target)) as [->|Hne].
    + rewrite list_lookup_insert_eq in Hlook by (eapply lookup_lt_Some; eauto).
      injection Hlook as <-. simpl. apply Forall_assignProp; [exact Hv|].
      exact (Hc target (CObj props) Ht E).
    + rewrite list_lookup_insert_ne in Hlook by congruence. eapply Hc; eauto.
Qed.

Lemma spec_forEach {A : Type} (xs : list A) (body : A -> M unit) :
  (forall x, spec n (body x) (fun _ => True)) ->
  spec n (forEach xs body) (fun _ => True).
Proof.
  intros Hb. induction xs as [|x rest IH]; simpl.
  - apply spec_ret. exact I.
  - eapply spec_bind; [apply Hb|]. intros _ _. exact IH.
Qed.

Lemma spec_mapM {A B : Type} (f : A -> M B) (R : B -> Prop) (xs : list A) :
  (forall x, spec n (f x) R) -> spec n (mapM f xs) (Forall R).
Proof.
  intros Hf. induction xs as [|x rest IH]; simpl.
  - apply spec_ret. constructor.
  - eapply spec_bind; [apply Hf|]. intros y Hy.
    eapply spec_bind; [exact IH|]. intros ys Hys.
    apply spec_ret. constructor; assumption.
Qed.

Lemma spec_maskSensitiveData (fields : list string) (fuel : nat) :
  forall data, spec n (maskSensitiveData fields fuel data) (fun r => n <= r).
Proof.
  induction fuel as [|fuel IH]; intros data; simpl.
  - apply spec_abort.
  - eapply spec_bind; [apply spec_alloc; constructor|]. intros masked Hm.
    eapply spec_bind; [apply spec_read|]. intros c _.
    eapply spec_bind; [|intros _ _; apply spec_ret; exact Hm].
    apply spec_forEach. intros [key v]. simpl.
    destruct (StructuredLogger.isSensitive fields key).
    { apply spec_setPropAt; [exact Hm|exact I]. }
    destruct v; try (apply spec_setPropAt; [exact Hm|exact I]).
    eapply spec_bind; [apply spec_read|]. intros target _.
    destruct target as [props|items].
    + eapply spec_bind; [apply IH|]. intros r Hr.
      apply spec_setPropAt; assumption.
    + eapply spec_bind.
      * apply (spec_mapM _ (ref_from n)). intros item.
        destruct item; try (apply spec_ret; exact I).
        eapply spec_bind; [apply IH|]. intros r Hr. apply spec_ret. exact Hr.
      * intros items' Hitems. simpl.
        eapply spec_bind; [apply spec_alloc; exact Hitems|]. intros a Ha.
        apply spec_setPropAt; assumption.
Qed.

End Frame.

Section StoreFacts.
Import Store.

Lemma value_ind' (P : value -> Prop) :
  P VUndefined -> P VNull -> (forall b, P (VBool b)) -> (forall n, P (VNum n)) ->
  (forall s, P (VStr s)) ->
  (forall items, Forall P items -> P (VArr items)) ->
  (forall props, Forall (fun kv => P (snd kv)) props -> P (VObj props)) ->
  forall v, P v.
Proof.
  intros Hu Hn Hb Hz Hs Ha Ho. fix IH 1. intros [| |b|n|s|items|props].
  - exact Hu.
  - exact Hn.
  - apply Hb.
  - apply Hz.
  - apply Hs.
  - apply Ha. induction items as [|x rest IHl]; constructor; [apply IH|exact IHl].
  - apply Ho. induction props as [|[k x] rest IHl]; constructor; [apply IH|exact IHl].
Qed.

Lemma ext_refl h : ext h h.
Proof. intros l c H. exact H. Qed.

Lemma ext_trans h1 h2 h3 : ext h1 h2 -> ext h2 h3 -> ext h1 h3.
Proof. intros H12 H23 l c H. auto. Qed.

Lemma ext_app h k : ext h (h ++ k)%list.
Proof. intros l c H. apply lookup_app_l_Some. exact H. Qed.

Lemma repr_ext (v : value) :
  forall x h h', ext h h' -> repr h x v -> repr h' x v.
Proof.
  induction v as [| | | | |items IH|props IH] using value_ind';
    intros x h h' He Hr;
    inversion Hr as [| | | | |l hitems items' Hl Hitems|l hprops props' Hl Hprops];
    subst; try constructor.
  - econstructor; [apply He; exact Hl|].
    clear Hl Hr. induction Hitems as [|hx y hrest rest Hx _ IHl].
    + constructor.
    + inversion IH; subst. constructor; eauto.
  - econstructor; [apply He; exact Hl|].
    clear Hl Hr. induction Hprops as [|hx y hrest rest [Hk Hx] _ IHl].
    + constructor.
    + inversion IH; subst. constructor; eauto.
Qed.

Lemma depth_items (items : list value) :
  Forall (fun x => depth x < depth (VArr items)) items.
Proof.
  simpl. induction items as [|x rest IH]; constructor; simpl.
  - lia.
  - eapply Forall_impl; [exact IH|]. simpl. intros; lia.
Qed.

Lemma depth_props (props : list (string * value)) :
  Forall (fun kv => depth (snd kv) < depth (VObj props)) props.
Proof.
  simpl. induction props as [|x rest IH]; constructor; simpl.
  - lia.
  - eapply Forall_impl; [exact IH|]. simpl. intros; lia.
Qed.

Lemma spec_ext {A : Type} (m : M A) (R : A -> Prop) (h : list cell) :
  spec (length h) m R -> ext h (fst (m h)).
Proof.
  intros Hs. destruct (Hs h) as (Hl & Ht & _).
  - lia.
  - intros l c Hge Hlook. apply lookup_lt_Some in Hlook. lia.
  - rewrite firstn_all in Ht. intros l c Hlook.
    rewrite <- Ht in Hlook. rewrite lookup_take_Some in Hlook. tauto.
Qed.

End StoreFacts.

Section Returns.
Import Store.
Variable fields : list string.

Lemma total_bind {A B : Type} (P : list cell -> Prop) (m : M A) (k : A -> M B)
      (Q : A -> list cell -> Prop) (R : B -> list cell -> Prop) :
  total P m Q -> (forall a, total (Q a) (k a) R) -> total P (bind m k) R.
Proof.
  intros Hm Hk h HP. destruct (Hm h HP) as (h1 & a & E & HQ).
  destruct (Hk a h1 HQ) as (h2 & b & E2 & HR).
  exists h2, b. unfold bind. rewrite E. auto.
Qed.

Lemma total_ret {A : Type} (P : list cell -> Prop) (a : A) :
  total P (ret a) (fun _ => P).
Proof. intros h HP. exists h, a. auto. Qed.

Lemma total_setPropAt (h0 : list cell) (masked : nat) (key : string) (v : hvalue) :
  length h0 <= masked ->
  total (Inv h0 masked) (setPropAt masked key v) (fun _ => Inv h0 masked).
Proof.
  intros Hm h [He [props Hp]]. unfold setPropAt. rewrite Hp.
  eexists _, tt. split; [reflexivity|]. split.
  - intros l c Hl. rewrite list_lookup_insert_ne.
    + apply He. exact Hl.
    + apply lookup_lt_Some in Hl. lia.
  - eexists. apply list_lookup_insert_eq. eapply lookup_lt_Some; eauto.
Qed.

Lemma total_alloc (h0 : list cell) (masked : nat) (c : cell) :
  total (Inv h0 masked) (alloc c) (fun _ => Inv h0 masked).
Proof.
  intros h [He [props Hp]]. unfold alloc. eexists _, _. split; [reflexivity|].
  split.
  - eapply ext_trans; [exact He|apply ext_app].
  - exists props. apply lookup_app_l_Some. exact Hp.
Qed.

Lemma total_forEach {A : Type} (I : list cell -> Prop) (xs : list A)
      (body : A -> M unit) :
  Forall (fun x => total I (body x) (fun _ => I)) xs ->
  total I (forEach xs body) (fun _ => I).
Proof.
  induction 1 as [|x rest Hx Hrest IH]; simpl.
  - apply total_ret.
  - eapply total_bind; [exact Hx|]. intros u. exact IH.
Qed.

Lemma total_mapM {A B : Type} (I : list cell -> Prop) (f : A -> M B) (xs : list A) :
  Forall (fun x => total I (f x) (fun _ => I)) xs ->
  total I (mapM f xs) (fun _ => I).
Proof.
  induction 1 as [|x rest Hx Hrest IH]; simpl.
  - apply total_ret.
  - eapply total_bind; [exact Hx|]. intros y.
    eapply total_bind; [exact IH|]. intros ys. apply total_ret.
Qed.

Lemma total_recursive_call (fuel : nat) (h0 : list cell) (masked : nat)
      (l : nat) (v : value) :
  returns_below fields fuel ->
  repr h0 (HRef l) v -> depth v <= fuel ->
  total (Inv h0 masked) (maskSensitiveData fields fuel l) (fun _ => Inv h0 masked).
Proof.
  intros IH Hr Hd h [He [props Hp]].
  destruct (IH l h v (repr_ext _ _ _ _ He Hr) Hd) as (h' & r & E).
  exists h', r. split; [exact E|].
  pose proof (spec_ext _ _ h (spec_maskSensitiveData (length h) fields fuel l)) as Hx.
  rewrite E in Hx. simpl in Hx. split.
  - eapply ext_trans; eauto.
  - exists props. apply Hx. exact Hp.
Qed.

Lemma total_read (I : list cell -> Prop) (l : nat) (c : cell) :
  (forall h, I h -> h !! l = Some c) ->
  total I (read l) (fun c' h => c' = c /\ I h).
Proof.
  intros Hl h HI. unfold read. rewrite (Hl h HI). eauto.
Qed.

Lemma total_body (fuel : nat) (h0 : list cell) (masked : nat)
      (key : string) (x : hvalue) (v : value) :
  returns_below fields fuel ->
  length h0 <= masked ->
  repr h0 x v -> depth v <= fuel ->
  total (Inv h0 masked) (loopBody fields fuel masked (key, x)) (fun _ => Inv h0 masked).
Proof.
  intros IH Hm Hr Hd. unfold loopBody. simpl.
  destruct (StructuredLogger.isSensitive fields key);
    [apply total_setPropAt; exact Hm|].
  destruct x; try (apply total_setPropAt; exact Hm).
  inversion Hr as [| | | | |l' hitems items Hl Hitems|l' hprops props Hl Hprops]; subst.
  - eapply total_bind.
    + apply (total_read _ l (CArr hitems)). intros h [He _]. apply He. exact Hl.
    + intros target. intros h [-> HI]. revert h HI.
      eapply total_bind.
      * apply total_mapM.
        assert (Hdi : Forall (fun x => depth x <= fuel) items).
        { eapply Forall_impl; [apply depth_items|]. simpl in *. intros; lia. }
        clear Hl Hr Hd.
        induction Hitems as [|hx x hrest rest Hx Hrest IHl]; constructor.
        -- inversion Hdi; subst.
           destruct hx; try apply total_ret.
           eapply total_bind.
           ++ eapply total_recursive_call; eauto.
           ++ intros r. apply total_ret.
        -- inversion Hdi; subst. apply IHl. assumption.
      * intros items'. eapply total_bind; [apply total_alloc|].
        intros a. apply total_setPropAt. exact Hm.
  - eapply total_bind.
    + apply (total_read _ l (CObj hprops)). intros h [He _]. apply He. exact Hl.
    + intros target. intros h [-> HI]. revert h HI.
      eapply total_bind.
      * eapply total_recursive_call; eauto.
      * intros r. apply total_setPropAt. exact Hm.
Qed.

Lemma maskSensitiveData_returns (fuel : nat) : returns_below fields fuel.
Proof.
  induction fuel as [|fuel IH]; intros data h v Hr Hd.
  - inversion Hr; subst; simpl in Hd; lia.
  - assert (Hentries : exists c, h !! data = Some c /\
              Forall (fun e => exists w, repr h (snd e) w /\ depth w <= fuel)
                     (entriesOf c)).
    { inversion Hr as [| | | | |l' hitems items Hl Hitems|l' hprops props Hl Hprops];
        subst.
      - exists (CArr hitems). split; [exact Hl|]. simpl.
        assert (Hdi : Forall (fun x => depth x <= fuel) items).
        { eapply Forall_impl; [apply depth_items|]. simpl in *. intros; lia. }
        generalize 0%nat. clear Hl Hr Hd.
        induction Hitems as [|hx x hrest rest Hx Hrest IHl]; intros i;
          simpl; constructor.
        + exists x. inversion Hdi; subst. split; [exact Hx|assumption].
        + inversion Hdi; subst. apply IHl. assumption.
      - exists (CObj hprops). split; [exact Hl|]. simpl.
        assert (Hdi : Forall (fun kv => depth (snd kv) <= fuel) props).
        { eapply Forall_impl; [apply depth_props|]. simpl in *. intros; lia. }
        clear Hl Hr Hd.
        induction Hprops as [|hx x hrest rest [Hk Hx] Hrest IHl]; constructor.
        + exists (snd x). inversion Hdi; subst. split; [exact Hx|assumption].
        + inversion Hdi; subst. apply IHl. assumption. }
    destruct Hentries as (c & Hc & Hall).
    assert (Hloop : total (Inv h (length h))
                      (forEach (entriesOf c) (loopBody fields fuel (length h)))
                      (fun _ => Inv h (length h))).
    { apply total_forEach. eapply Forall_impl; [exact Hall|].
      intros [key x] (w & Hw & Hdw). eapply total_body; eauto. }
    destruct (Hloop (h ++ [CObj []])%list) as (h' & u & E & _).
    { split; [apply ext_app|]. exists []. apply list_lookup_middle. reflexivity. }
    exists h', (length h).
    change (maskSensitiveData fields (S fuel) data h)
      with (bind (alloc (CObj [])) (fun masked =>
            bind (read data) (fun c =>
            bind (forEach (entriesOf c) (loopBody fields fuel masked)) (fun _ =>
            ret masked))) h).
    unfold bind at 1. unfold alloc at 1.
    unfold bind at 1. unfold read.
    rewrite (lookup_app_l_Some _ _ _ _ Hc).
    unfold bind. rewrite E. reflexivity.
Qed.

End Returns.

(** ** The store model computes what the function on plain data computes *)

Section Refinement.
Import Store.
Variable fields : list string.

Lemma built_mono (v : value) :
  forall x n m h h',
    m <= n ->
    (forall l c, n <= l -> h !! l = Some c -> h' !! l = Some c) ->
    built_from n h x v -> built_from m h' x v.
Proof.
  induction v as [| |b|z|s|items IH|props IH] using value_ind';
    intros x n m h h' Hle Hag Hb;
    inversion Hb as [| | | | |l hitems items' Hn Hl Hitems|l hprops props' Hn Hl Hprops];
    subst; try constructor.
  - econstructor; [lia|apply Hag; eassumption|].
    clear Hl Hb. induction Hitems as [|hx y hrest rest Hx _ IHl].
    + constructor.
    + inversion IH; subst. constructor; eauto.
  - econstructor; [lia|apply Hag; eassumption|].
    clear Hl Hb. induction Hprops as [|hx y hrest rest [Hk Hx] _ IHl].
    + constructor.
    + inversion IH; subst. constructor; eauto.
Qed.

Lemma built_ext (v : value) (x : hvalue) (n : nat) (h h' : list cell) :
  ext h h' -> built_from n h x v -> built_from n h' x v.
Proof.
  intros He. apply built_mono; [apply le_n|]. intros l c _. apply He.
Qed.

Lemma getProp_present {A : Type} (k : string) (l : list (string * A)) :
  k ∈ l.*1 -> hasProp k l = true.
Proof.
  unfold hasProp. induction l as [|[k' x] rest IH]; simpl; intros Hin.
  - apply elem_of_nil in Hin. contradiction.
  - destruct (String.eqb k' k) eqn:E; [reflexivity|].
    apply elem_of_cons in Hin as [->|Hin]; [|auto].
    rewrite String.eqb_refl in E. discriminate.
Qed.

Lemma setProp_absent {A : Type} (k : string) (x : A) (l : list (string * A)) :
  k ∉ l.*1 -> setProp k x l = (l ++ [(k, x)])%list.
Proof.
  induction l as [|[k' y] rest IH]; simpl; intros Hn; [reflexivity|].
  destruct (String.eqb k' k) eqn:E.
  - apply String.eqb_eq in E. subst. exfalso. apply Hn. apply elem_of_cons. auto.
  - rewrite IH; [reflexivity|]. intros Hin. apply Hn. apply elem_of_cons. auto.
Qed.

Lemma indexed_keys {A : Type} (xs : list A) :
  forall i, (indexed i xs).*1 = pretty <$> seq i (length xs).
Proof.
  induction xs as [|x rest IH]; intros i; [reflexivity|].
  simpl. f_equal. apply IH.
Qed.

Lemma indexed_distinct {A : Type} (xs : list A) : NoDup (indexed 0 xs).*1.
Proof.
  rewrite indexed_keys. apply NoDup_fmap_2; [apply _|apply NoDup_seq].
Qed.

Lemma distinct_obj (props : list (string * value)) :
  distinct_throughout (VObj props) = true ->
  NoDup props.*1 /\ Forall (fun kv => distinct_throughout (snd kv) = true) props.
Proof.
  induction props as [|[k x] rest IH].
  - intros _. split; constructor.
  - intros H.
    change (negb (hasProp k rest) && distinct_throughout x
            && distinct_throughout (VObj rest) = true) in H.
    apply andb_prop in H as [H1 H3]. apply andb_prop in H1 as [H1 H2].
    destruct (IH H3) as [Hn Hf]. split.
    + rewrite fmap_cons. apply NoDup_cons. split; [|exact Hn].
      intros Hin. apply getProp_present in Hin. simpl in Hin.
      rewrite Hin in H1. discriminate.
    + constructor; assumption.
Qed.

Lemma distinct_arr (items : list value) :
  distinct_throughout (VArr items) = true ->
  Forall (fun x => distinct_throughout x = true) items.
Proof.
  induction items as [|x rest IH].
  - intros _. constructor.
  - intros H.
    change (distinct_throughout x && distinct_throughout (VArr rest) = true) in H.
    apply andb_prop in H as [H1 H2]. constructor; auto.
Qed.

Lemma Built_keys (h0 : list cell) (masked : nat) (done : list (string * value))
      (acc : list (string * hvalue)) (n : nat) (h : list cell) :
  Forall2 (fun hp p => fst hp = fst p /\ built_from n h (snd hp) (snd p)) acc done ->
  acc.*1 = done.*1.
Proof.
  induction 1 as [|hp p hrest rest [Hk _] _ IH]; [reflexivity|].
  rewrite !fmap_cons. congruence.
Qed.

(** Storing one more property. *)
Lemma Built_setPropAt (h0 : list cell) (masked : nat) (done : list (string * value))
      (k : string) (x : hvalue) (v : value) (h : list cell) :
  length h0 <= masked ->
  k ∉ done.*1 ->
  built_from (S masked) h x v ->
  Built h0 masked done h ->
  exists h', setPropAt masked k x h = (h', Some tt)
             /\ Built h0 masked
                  (if String.eqb k "__proto__" then done
                   else done ++ [(k, v)])%list h'.
Proof.
  intros Hm Hk Hx [He (acc & Hacc & Hall)]. unfold setPropAt. rewrite Hacc.
  eexists. split; [reflexivity|].
  assert (Hag : forall acc' l c, S masked <= l -> h !! l = Some c ->
                  <[masked := CObj acc']> h !! l = Some c).
  { intros acc' l c Hl Hlook. rewrite list_lookup_insert_ne by lia. exact Hlook. }
  split.
  - intros l c Hl. rewrite list_lookup_insert_ne.
    + apply He. exact Hl.
    + apply lookup_lt_Some in Hl. lia.
  - unfold assignProp. destruct (String.eqb k "__proto__").
    + exists acc. split.
      * apply list_lookup_insert_eq. eapply lookup_lt_Some; eauto.
      * eapply Forall2_impl; [exact Hall|]. intros hp p [E Hb]. split; [exact E|].
        eapply built_mono; [apply le_n|apply Hag|exact Hb].
    + exists (acc ++ [(k, x)])%list. split.
      * rewrite setProp_absent.
        -- apply list_lookup_insert_eq. eapply lookup_lt_Some; eauto.
        -- rewrite (Built_keys h0 masked _ _ _ _ Hall). exact Hk.
      * apply Forall2_app.
        -- eapply Forall2_impl; [exact Hall|]. intros hp p [E Hb]. split; [exact E|].
           eapply built_mono; [apply le_n|apply Hag|exact Hb].
        -- constructor; [|constructor]. split; [reflexivity|]. simpl.
           eapply built_mono; [apply le_n|apply Hag|exact Hx].
Qed.

Lemma Built_ext (h0 : list cell) (masked : nat) (done : list (string * value))
      (h h' : list cell) :
  ext h h' -> Built h0 masked done h -> Built h0 masked done h'.
Proof.
  intros Hx [He (acc & Hacc & Hall)]. split; [eapply ext_trans; eauto|].
  exists acc. split; [apply Hx; exact Hacc|].
  eapply Forall2_impl; [exact Hall|]. intros hp p [E Hb]. split; [exact E|].
  eapply built_ext; eauto.
Qed.

Lemma Built_length (h0 : list cell) (masked : nat) (done : list (string * value))
      (h : list cell) :
  Built h0 masked done h -> S masked <= length h.
Proof.
  intros [_ (acc & Hacc & _)]. apply lookup_lt_Some in Hacc. lia.
Qed.

(** The recursive call inside the loop. *)
Lemma Built_recursive_call (fuel : nat) (h0 : list cell) (masked : nat)
      (done : list (string * value)) (l : nat) (v : value) (h : list cell) :
  refines fields fuel ->
  distinct_throughout v = true ->
  repr h0 (HRef l) v -> depth v <= fuel ->
  Built h0 masked done h ->
  exists h' r,
    maskSensitiveData fields fuel l h = (h', Some r)
    /\ ext h h'
    /\ built_from (S masked) h' (HRef r)
         (VObj (StructuredLogger.maskSensitiveData fields v)).
Proof.
  intros IH Hd Hr Hdepth HB.
  destruct (IH l h v Hd (repr_ext _ _ _ _ (proj1 HB) Hr) Hdepth) as (h' & r & E & Hb).
  exists h', r. split; [exact E|].
  pose proof (spec_ext _ _ h (spec_maskSensitiveData (length h) fields fuel l)) as Hx.
  rewrite E in Hx. simpl in Hx. split; [exact Hx|].
  eapply built_mono; [apply (Built_length _ _ _ _ HB)| |exact Hb].
  intros; assumption.
Qed.

(** The callback of [value.map] over the elements of an array. *)
Lemma Built_mapM (fuel : nat) (h0 : list cell) (masked : nat)
      (done : list (string * value)) (hitems : list hvalue) (items : list value) :
  refines fields fuel ->
  Forall2 (repr h0) hitems items ->
  Forall (fun x => distinct_throughout x = true /\ depth x <= fuel) items ->
  forall h,
    Built h0 masked done h ->
    exists h' items',
      mapM (fun item =>
              match item with
              | HRef li => bind (maskSensitiveData fields fuel li) (fun r => ret (HRef r))
              | _ => ret item
              end) hitems h = (h', Some items')
      /\ ext h h'
      /\ Forall2 (built_from (S masked) h') items'
                 (map (StructuredLogger.maskItem fields) items).
Proof.
  intros IH Hitems. induction Hitems as [|hx x hrest rest Hx Hrest IHl];
    intros Hall h HB.
  - exists h, []. split; [reflexivity|]. split; [apply ext_refl|constructor].
  - inversion Hall as [|? ? [Hd Hdepth] Hall']; subst.
    assert (Hhead : exists h1 y,
               (match hx with
                | HRef li => bind (maskSensitiveData fields fuel li)
                                  (fun r => ret (HRef r))
                | _ => ret hx
                end) h = (h1, Some y)
               /\ ext h h1
               /\ built_from (S masked) h1 y (StructuredLogger.maskItem fields x)).
    { inversion Hx as [| | | | |l hi it Hl Hi|l hp pr Hl Hp]; subst;
        try (exists h; eexists; split; [reflexivity|];
             split; [apply ext_refl|constructor]).
      - destruct (Built_recursive_call fuel h0 masked done l (VArr it) h
                    IH Hd Hx Hdepth HB) as (h1 & r & E & He & Hb).
        exists h1, (HRef r). unfold bind. rewrite E. auto.
      - destruct (Built_recursive_call fuel h0 masked done l (VObj pr) h
                    IH Hd Hx Hdepth HB) as (h1 & r & E & He & Hb).
        exists h1, (HRef r). unfold bind. rewrite E. auto. }
    destruct Hhead as (h1 & y & E1 & He1 & Hy).
    destruct (IHl Hall' h1 (Built_ext _ _ _ _ _ He1 HB)) as (h2 & ys & E2 & He2 & Hys).
    exists h2, (y :: ys). split.
    + cbn [mapM]. unfold bind at 1. rewrite E1. unfold bind at 1. rewrite E2.
      reflexivity.
    + split; [eapply ext_trans; eauto|].
      simpl. constructor; [|exact Hys]. eapply built_ext; eauto.
Qed.

(** One turn of the loop. *)
Lemma Built_body (fuel : nat) (h0 : list cell) (masked : nat)
      (done : list (string * value)) (k : string) (x : hvalue) (v : value)
      (h : list cell) :
  refines fields fuel ->
  length h0 <= masked ->
  repr h0 x v -> distinct_throughout v = true -> depth v <= fuel ->
  k ∉ done.*1 ->
  Built h0 masked done h ->
  exists h', loopBody fields fuel masked (k, x) h = (h', Some tt)
             /\ Built h0 masked
                  (if String.eqb k "__proto__" then done
                   else done ++ [(k, StructuredLogger.maskProperty fields k v)])%list
                  h'.
Proof.
  intros IH Hm Hr Hd Hdepth Hk HB.
  unfold loopBody, StructuredLogger.maskProperty. cbn [fst snd].
  destruct (StructuredLogger.isSensitive fields k).
  { apply Built_setPropAt; auto. constructor. }
  inversion Hr as [| | | | |l hitems items Hl Hitems|l hprops props Hl Hprops]; subst;
    try (apply Built_setPropAt; auto; constructor).
  - assert (Hall : Forall (fun y => distinct_throughout y = true /\ depth y <= fuel)
                          items).
    { pose proof (distinct_arr _ Hd) as H1. pose proof (depth_items items) as H2.
      rewrite Forall_forall in *. intros y Hy. split; [auto|].
      specialize (H2 y Hy). lia. }
    destruct (Built_mapM fuel h0 masked done hitems items IH Hitems Hall h HB)
      as (h1 & items' & E & He & Hys).
    pose proof (Built_ext _ _ _ _ _ He HB) as HB1.
    pose proof (Built_length _ _ _ _ HB1) as Hlen.
    destruct (Built_setPropAt h0 masked done k (HRef (length h1))
                (VArr (map (StructuredLogger.maskItem fields) items))
                (h1 ++ [CArr items'])%list Hm Hk) as (h2 & E2 & HB2).
    + econstructor; [exact Hlen|apply list_lookup_middle; reflexivity|].
      eapply Forall2_impl; [exact Hys|]. intros a b. apply built_ext. apply ext_app.
    + eapply Built_ext; [apply ext_app|exact HB1].
    + exists h2. split; [|exact HB2].
      unfold bind at 1. unfold read. rewrite (proj1 HB _ _ Hl).
      unfold bind at 1. rewrite E. unfold bind at 1. unfold alloc. exact E2.
  - destruct (Built_recursive_call fuel h0 masked done l (VObj props) h
                IH Hd Hr Hdepth HB) as (h1 & r & E & He & Hb).
    destruct (Built_setPropAt h0 masked done k (HRef r)
                (VObj (StructuredLogger.maskSensitiveData fields (VObj props)))
                h1 Hm Hk Hb (Built_ext _ _ _ _ _ He HB)) as (h2 & E2 & HB2).
    exists h2. split; [|exact HB2].
    unfold bind at 1. unfold read. rewrite (proj1 HB _ _ Hl).
    unfold bind at 1. rewrite E. exact E2.
Qed.

(** The whole loop over the entries. *)
Lemma Built_forEach (fuel : nat) (h0 : list cell) (masked : nat)
      (hentries : list (string * hvalue)) (entries : list (string * value)) :
  refines fields fuel ->
  length h0 <= masked ->
  Forall2 (fun hp p => fst hp = fst p /\ repr h0 (snd hp) (snd p)) hentries entries ->
  Forall (fun p => distinct_throughout (snd p) = true /\ depth (snd p) <= fuel)
         entries ->
  forall done h,
    NoDup (done.*1 ++ entries.*1) ->
    Built h0 masked done h ->
    exists h', forEach hentries (loopBody fields fuel masked) h = (h', Some tt)
               /\ Built h0 masked
                    (done ++ map (fun kv => (fst kv,
                                   StructuredLogger.maskProperty fields (fst kv) (snd kv)))
                                 (assignable entries))%list h'.
Proof.
  intros IH Hm Hentries.
  induction Hentries as [|[hk hx] [k v] hrest rest [Hk Hx] Hrest IHl];
    intros Hall done h Hnd HB.
  - exists h. split; [reflexivity|]. simpl. rewrite app_nil_r. exact HB.
  - simpl in Hk, Hx. subst hk.
    inversion Hall as [|? ? [Hd Hdepth] Hall']; subst.
    rewrite fmap_cons in Hnd. simpl in Hnd.
    assert (Hfresh : k ∉ done.*1).
    { apply NoDup_app in Hnd as (_ & Hdis & _). intros Hin.
      apply (Hdis k Hin). apply elem_of_cons. auto. }
    destruct (Built_body fuel h0 masked done k hx v h IH Hm Hx Hd Hdepth Hfresh HB)
      as (h1 & E1 & HB1).
    unfold assignable. cbn [List.filter fst].
    destruct (String.eqb k "__proto__") eqn:Ek; cbn [negb].
    + destruct (IHl Hall' done h1) as (h2 & E2 & HB2); [|exact HB1|].
      { apply NoDup_app in Hnd as (Hn1 & Hdis & Hn2).
        apply NoDup_cons in Hn2 as [_ Hn2].
        apply NoDup_app. split; [exact Hn1|]. split; [|exact Hn2].
        intros y Hy Hin. apply (Hdis y Hy). apply elem_of_cons. auto. }
      exists h2. split; [|exact HB2].
      cbn [forEach]. unfold bind. rewrite E1. exact E2.
    + destruct (IHl Hall' (done ++ [(k, StructuredLogger.maskProperty fields k v)])%list
                    h1) as (h2 & E2 & HB2); [|exact HB1|].
      { rewrite fmap_app. rewrite <- app_assoc. exact Hnd. }
      exists h2. split.
      * cbn [forEach]. unfold bind. rewrite E1. exact E2.
      * simpl. rewrite <- app_assoc in HB2. exact HB2.
Qed.

Lemma entries_of_items (h : list cell) (hitems : list hvalue) (items : list value) :
  Forall2 (repr h) hitems items ->
  forall i,
    Forall2 (fun hp p => fst hp = fst p /\ repr h (snd hp) (snd p))
            (indexed i hitems) (indexed i items).
Proof.
  induction 1 as [|hx x hrest rest Hx _ IH]; intros i; simpl; constructor; auto.
Qed.

Lemma indexed_values {A : Type} (P : A -> Prop) (xs : list A) :
  Forall P xs -> forall i, Forall (fun p => P (snd p)) (indexed i xs).
Proof.
  induction 1 as [|x rest Hx _ IH]; intros i; simpl; constructor; auto.
Qed.

Lemma maskSensitiveData_refines (fuel : nat) : refines fields fuel.
Proof.
  induction fuel as [|fuel IH]; intros data h v Hd Hr Hdepth.
  - inversion Hr; subst; simpl in Hdepth; lia.
  - assert (Hentries : exists c entries,
               h !! data = Some c
               /\ Forall2 (fun hp p => fst hp = fst p /\ repr h (snd hp) (snd p))
                          (entriesOf c) entries
               /\ Forall (fun p => distinct_throughout (snd p) = true
                                   /\ depth (snd p) <= fuel) entries
               /\ NoDup entries.*1
               /\ StructuredLogger.maskSensitiveData fields v
                  = map (fun kv => (fst kv,
                           StructuredLogger.maskProperty fields (fst kv) (snd kv)))
                        (assignable entries)).
    { inversion Hr as [| | | | |l' hitems items Hl Hitems|l' hprops props Hl Hprops];
        subst.
      - exists (CArr hitems), (indexed 0 items). split; [exact Hl|].
        split; [apply entries_of_items; exact Hitems|].
        split; [|split; [apply indexed_distinct
                        |rewrite assignable_indexed; apply maskSensitiveData_arr]].
        apply (indexed_values (fun x => distinct_throughout x = true /\ depth x <= fuel)).
        pose proof (distinct_arr _ Hd) as H1. pose proof (depth_items items) as H2.
        rewrite Forall_forall in *. intros y Hy. split; [auto|].
        specialize (H2 y Hy). lia.
      - exists (CObj hprops), props. split; [exact Hl|].
        split; [exact Hprops|].
        destruct (distinct_obj _ Hd) as [Hn H1].
        split; [|split; [exact Hn|apply maskSensitiveData_obj]].
        pose proof (depth_props props) as H2.
        rewrite Forall_forall in *. intros y Hy. split; [auto|].
        specialize (H2 y Hy). lia. }
    destruct Hentries as (c & entries & Hc & Hrel & Hall & Hn & Hpure).
    destruct (Built_forEach fuel h (length h) (entriesOf c) entries IH (le_n _)
                Hrel Hall [] (h ++ [CObj []])%list) as (h' & E & HB).
    { exact Hn. }
    { split; [apply ext_app|]. exists []. split; [|constructor].
      apply list_lookup_middle. reflexivity. }
    exists h', (length h). split.
    + change (maskSensitiveData fields (S fuel) data h)
        with (bind (alloc (CObj [])) (fun masked =>
              bind (read data) (fun c =>
              bind (forEach (entriesOf c) (loopBody fields fuel masked)) (fun _ =>
              ret masked))) h).
      unfold bind at 1. unfold alloc at 1.
      unfold bind at 1. unfold read.
      rewrite (lookup_app_l_Some _ _ _ _ Hc).
      unfold bind. rewrite E. reflexivity.
    + rewrite Hpure. destruct HB as [_ (acc & Hacc & Hacc2)].
      econstructor; [apply le_n|exact Hacc|].
      eapply Forall2_impl; [exact Hacc2|]. intros hp p [Ek Hb]. split; [exact Ek|].
      eapply built_mono; [|intros l c' _ Hl; exact Hl|exact Hb]. lia.
Qed.

End Refinement.

(** ** Redaction in the produced log entries *)

(** X29.  For ASCII sensitive fields and metadata with distinct keys, the
    entry built by [createLogEntry] (and the one built by the Winston
    transport from [extractMeta(info)]) shows, at every position of the
    metadata that is reached through nested mappings and through
    mappings that are elements of an array stored under a key, along
    ASCII keys other than [__proto__], and that lies under no redacted
    key: the marker "[REDACTED]" under every key whose lowercased name
    contains the lowercased form of a configured sensitive field, the
    unchanged value under every other key holding a scalar, and the
    unchanged scalars of an array stored under every other key. *)
Theorem redaction_in_log_entry :
  forall (fields : list string) (meta : list (string * value)),
    forallb isAscii fields = true ->
    Nesting.distinct_keys meta = true ->
    (forall lg amb level message,
        StructuredLogger.sensitiveFields lg = fields ->
        Nesting.redacted_view fields meta
          (StructuredLogger.createLogEntry lg amb level message (Some meta)))
    /\ (forall t amb i,
          WinstonOtelTransport.sensitiveFields t = fields ->
          WinstonOtelTransport.extractMeta i = meta ->
          Nesting.redacted_view fields meta
            (snd (WinstonOtelTransport.buildEntry t amb i))).
Proof.
  intros fields meta _ Hd. split.
  - intros lg amb level message <-. unfold StructuredLogger.createLogEntry.
    apply redacted_view_assign.
    + apply distinct_keys_mask. exact Hd.
    + apply mask_no_proto.
    + apply mask_redacted_view.
  - intros t amb i <- Hmeta. unfold WinstonOtelTransport.buildEntry.
    rewrite Hmeta. cbn [snd]. destruct meta as [|kv rest] eqn:Em.
    + intros hops key v Hv. unfold Nesting.valueAt in Hv.
      destruct hops as [|[] ?]; discriminate.
    + rewrite <- Em in *. rewrite winston_mask_same. apply redacted_view_assign.
      * apply distinct_keys_mask. exact Hd.
      * apply mask_no_proto.
      * apply mask_redacted_view.
Qed.

(** The scenario of the specification, through [createLogEntry]. *)
Lemma redaction_in_log_entry_witness :
  let entry :=
    StructuredLogger.createLogEntry
      (Scenario.devLogger Scenario.passwordAndToken true true)
      Scenario.noTrace OtelLogger.info "login" (Some Scenario.credentials) in
  (getProp "password" entry = Some (VStr "[REDACTED]")
   /\ getProp "user" entry = Some (VObj [("token", VStr "[REDACTED]")]))
  /\ Nesting.valueAt [Nesting.Into "user"] "token" entry = Some (VStr "[REDACTED]").
Proof.
  split; [split; reflexivity|].
  refine (proj1 (proj1 (redaction_in_log_entry Scenario.passwordAndToken
                          Scenario.credentials eq_refl eq_refl)
                   (Scenario.devLogger Scenario.passwordAndToken true true)
                   Scenario.noTrace OtelLogger.info "login" eq_refl
                   [Nesting.Into "user"] "token" (VStr "abc") eq_refl eq_refl eq_refl)
                eq_refl).
Defined.

(** C4.  The code at an input on which the claim fails.  Metadata parsed
    from the JSON text [{"__proto__": "x", "user": "u"}] has an own key
    [__proto__] that matches no sensitive field and holds a scalar; the
    claim has that value kept, and the entry holds nothing under the key:
    [masked[key] = value] reaches the prototype setter instead of creating
    the property. *)
Lemma redaction_drops_proto_key :
  let meta := [("__proto__", VStr "x"); ("user", VStr "u")] in
  let entry :=
    StructuredLogger.createLogEntry
      (Scenario.devLogger Scenario.passwordAndToken true true)
      Scenario.noTrace OtelLogger.info "login" (Some meta) in
  StructuredLogger.isSensitive Scenario.passwordAndToken "__proto__" = false
  /\ is_scalar (VStr "x") = true
  /\ getProp "__proto__" meta = Some (VStr "x")
  /\ getProp "__proto__" entry = None
  /\ getProp "user" entry = Some (VStr "u")
  /\ StructuredLogger.maskSensitiveData Scenario.passwordAndToken (VObj meta)
     = [("user", VStr "u")]
  /\ WinstonOtelTransport.maskSensitiveData Scenario.passwordAndToken (VObj meta)
     = [("user", VStr "u")].
Proof. repeat split. Qed.

(** ** Redaction leaves the caller's data alone *)

(** C9.  Run on the mapping at [data], whatever the store and whatever the
    depth bound of the call stack, [maskSensitiveData] leaves every object
    and array that existed before the call exactly as it was, and a mapping
    it returns is a new object, everything built during the call referring
    only to what was built during the call.  When the data reachable from
    [data] is finite (it unfolds to some [v]) the call does return, [data]
    still unfolds to the same [v] afterwards, and, every object in [v]
    having each key once, the returned mapping unfolds, through cells
    built during the call only, to the redacted copy that
    [StructuredLogger.maskSensitiveData] computes from [v]. *)
Theorem maskSensitiveData_leaves_input_untouched :
  forall (fields : list string) (h : list Store.cell) (data : nat),
    (forall fuel,
        (forall l c,
            h !! l = Some c ->
            fst (Store.maskSensitiveData fields fuel data h) !! l = Some c)
        /\ (forall r,
              snd (Store.maskSensitiveData fields fuel data h) = Some r ->
              length h <= r
              /\ Store.closed_from (length h)
                                   (fst (Store.maskSensitiveData fields fuel data h))))
    /\ (forall v,
          Store.repr h (Store.HRef data) v ->
          exists h' r,
            Store.maskSensitiveData fields (Store.depth v) data h = (h', Some r)
            /\ Store.repr h' (Store.HRef data) v
            /\ (Store.distinct_throughout v = true ->
                Store.built_from (length h) h' (Store.HRef r)
                  (VObj (StructuredLogger.maskSensitiveData fields v)))).
Proof.
  intros fields h data.
  assert (Hframe : forall fuel,
             Store.ext h (fst (Store.maskSensitiveData fields fuel data h))).
  { intros fuel. eapply spec_ext. apply spec_maskSensitiveData. }
  split.
  - intros fuel. split; [intros l c; apply Hframe|].
    intros r Hres.
    destruct (spec_maskSensitiveData (length h) fields fuel data h)
      as (_ & _ & Hclosed & Hfresh).
    + apply le_n.
    + intros l c Hge Hl. apply lookup_lt_Some in Hl. lia.
    + split; [apply Hfresh; exact Hres|exact Hclosed].
  - intros v Hr.
    destruct (maskSensitiveData_returns fields (Store.depth v) data h v Hr (le_n _))
      as (h' & r & E).
    exists h', r. split; [exact E|]. split.
    + eapply repr_ext; [|exact Hr]. specialize (Hframe (Store.depth v)).
      rewrite E in Hframe. exact Hframe.
    + intros Hd.
      destruct (maskSensitiveData_refines fields (Store.depth v) data h v
                  Hd Hr (le_n _)) as (h2 & r2 & E2 & Hb).
      rewrite E in E2. injection E2 as <- <-. exact Hb.
Qed.

(** The scenario of the specification laid out in a store: cell 0 is the
    nested mapping, cell 1 the metadata. *)
Lemma maskSensitiveData_leaves_input_untouched_witness :
  let h := [ Store.CObj [("token", Store.HStr "abc")];
             Store.CObj [("password", Store.HStr "secret"); ("user", Store.HRef 0)] ] in
  Store.maskSensitiveData Scenario.passwordAndToken 2 1 h
  = ((h ++ [ Store.CObj [("password", Store.HStr "[REDACTED]"); ("user", Store.HRef 3)];
             Store.CObj [("token", Store.HStr "[REDACTED]")] ])%list,
     Some 2%nat)
  /\ exists h' r,
      Store.maskSensitiveData Scenario.passwordAndToken
        (Store.depth (VObj Scenario.credentials)) 1 h = (h', Some r)
      /\ Store.repr h' (Store.HRef 1) (VObj Scenario.credentials)
      /\ Store.built_from 2 h' (Store.HRef r)
           (VObj [("password", VStr "[REDACTED]");
                  ("user", VObj [("token", VStr "[REDACTED]")])]).
Proof.
  intros h. split; [reflexivity|].
  destruct (proj2 (maskSensitiveData_leaves_input_untouched
                     Scenario.passwordAndToken h 1) (VObj Scenario.credentials))
    as (h' & r & E & Hr & Hb).
  - eapply Store.repr_obj; [reflexivity|].
    repeat constructor.
    eapply Store.repr_obj; [reflexivity|].
    repeat constructor.
  - exists h', r. split; [exact E|]. split; [exact Hr|].
    exact (Hb eq_refl).
Defined.

(** A mapping that contains itself: the recursion exhausts every stack
    bound; what it leaves behind is the store as it was, followed by the
    empty objects of the unfinished calls. *)
Lemma maskSensitiveData_on_cycle (fuel : nat) :
  forall h : list Store.cell,
    h !! 0%nat = Some (Store.CObj [("self", Store.HRef 0)]) ->
    Store.maskSensitiveData [] fuel 0 h
    = ((h ++ repeat (Store.CObj []) fuel)%list, None).
Proof.
  induction fuel as [|fuel IH]; intros h H0.
  - simpl. rewrite app_nil_r. reflexivity.
  - assert (H1 : (h ++ [Store.CObj []])%list !! 0%nat
                 = Some (Store.CObj [("self", Store.HRef 0)])).
    { apply lookup_app_l_Some. exact H0. }
    cbn [Store.maskSensitiveData]. unfold Store.bind at 1. cbn [Store.alloc].
    unfold Store.bind at 1. unfold Store.read at 1. rewrite H1.
    unfold Store.bind at 1. cbn [Store.entriesOf Store.forEach].
    unfold Store.bind at 1. cbn [fst snd StructuredLogger.isSensitive existsb].
    unfold Store.bind at 1. unfold Store.read at 1. rewrite H1.
    unfold Store.bind at 1. rewrite (IH _ H1).
    rewrite <- app_assoc. reflexivity.
Qed.

(** ** Console fallback when the remote export fails *)

Section Fallback.
Import OtelLogger.

Lemma emitOtelLog_console (attempt : bool) (level : LogLevel) (message : string)
      (attrs : list (string * value)) (w : world) :
  console (snd (emitOtelLog attempt level message attrs w)) = console w.
Proof. unfold emitOtelLog. destruct attempt; reflexivity. Qed.

Lemma emitOtelLog_result (attempt : bool) (level : LogLevel) (message : string)
      (attrs : list (string * value)) (w : world) :
  fst (emitOtelLog attempt level message attrs w) = attempt.
Proof. unfold emitOtelLog. destruct attempt; reflexivity. Qed.

Lemma writeToConsole_console (lg : StructuredLogger.logger) (level : LogLevel)
      (entry : list (string * value)) (w : world) :
  String.eqb (StructuredLogger.environment lg) "development"
  && StructuredLogger.devLineThrows entry = false ->
  fst (StructuredLogger.writeToConsole lg level entry w) = Completed
  /\ exists r,
      console (snd (StructuredLogger.writeToConsole lg level entry w))
      = (console w ++ [(StructuredLogger.stream_of level, r)])%list
      /\ forall k,
          existsb (String.eqb k) StructuredLogger.lineFields = false ->
          getProp k (jsonPart r) = getProp k entry.
Proof.
  unfold StructuredLogger.writeToConsole.
  destruct (String.eqb _ _); cbn [andb]; intros H.
  - rewrite H. split; [reflexivity|]. eexists. split; [reflexivity|].
    intros k Hk. cbn [jsonPart]. unfold StructuredLogger.without.
    rewrite (getProp_filter_key
               (fun k' => negb (existsb (String.eqb k') StructuredLogger.lineFields))).
    rewrite Hk. reflexivity.
  - split; [reflexivity|]. eexists. split; [reflexivity|]. reflexivity.
Qed.

Lemma writeToConsole_threw (lg : StructuredLogger.logger) (level : LogLevel)
      (entry : list (string * value)) (w : world) :
  String.eqb (StructuredLogger.environment lg) "development" = true ->
  StructuredLogger.devLineThrows entry = true ->
  StructuredLogger.writeToConsole lg level entry w = (ThrewTypeError, w).
Proof.
  intros Hdev Hthrows. unfold StructuredLogger.writeToConsole.
  rewrite Hdev, Hthrows. reflexivity.
Qed.

(** Metadata that sets none of the line fields leaves them as the logger
    set them. *)
Lemma getProp_own_field (lg : StructuredLogger.logger) (amb : StructuredLogger.ambient)
      (level : LogLevel) (message : string) (meta : option (list (string * value)))
      (k : string) :
  match meta with Some m => hasProp k m = false | None => True end ->
  getProp k (StructuredLogger.createLogEntry lg amb level message meta)
  = getProp k (StructuredLogger.createLogEntry lg amb level message None).
Proof.
  destruct meta as [m|]; [|reflexivity]. intros Hk.
  change (StructuredLogger.createLogEntry lg amb level message (Some m))
    with (StructuredLogger.assign
            (StructuredLogger.createLogEntry lg amb level message None)
            (StructuredLogger.maskSensitiveData (StructuredLogger.sensitiveFields lg)
                                                (VObj m))).
  apply getProp_assign_notin. rewrite hasProp_mask, Hk. apply andb_false_r.
Qed.

Lemma own_line_formats (lg : StructuredLogger.logger) (amb : StructuredLogger.ambient)
      (level : LogLevel) (message : string) (meta : option (list (string * value))) :
  StructuredLogger.overridesLineField meta = false ->
  StructuredLogger.devLineThrows
    (StructuredLogger.createLogEntry lg amb level message meta) = false.
Proof.
  intros Hmeta.
  assert (Hown : forall k, In k StructuredLogger.lineFields ->
                   StructuredLogger.prop_or_undefined k
                     (StructuredLogger.createLogEntry lg amb level message meta)
                   = StructuredLogger.prop_or_undefined k
                       (StructuredLogger.createLogEntry lg amb level message None)).
  { intros k Hin. unfold StructuredLogger.prop_or_undefined.
    rewrite getProp_own_field; [reflexivity|].
    destruct meta as [m|]; [|exact I]. unfold StructuredLogger.overridesLineField in Hmeta.
    destruct (hasProp k m) eqn:E; [|reflexivity].
    assert (Hex : existsb (fun key => hasProp key m) StructuredLogger.lineFields = true)
      by (apply existsb_exists; exists k; auto).
    rewrite Hex in Hmeta. discriminate. }
  unfold StructuredLogger.devLineThrows.
  rewrite !Hown by (simpl; tauto).
  unfold StructuredLogger.createLogEntry, StructuredLogger.prop_or_undefined.
  destruct (StructuredLogger.traceId amb) as [tid|],
           (StructuredLogger.spanId amb) as [sid|],
           (StructuredLogger.context lg) as [ctx|]; simpl;
    repeat match goal with
           | |- context [String.eqb ?x ""] => destruct (String.eqb x ""); simpl
           end; reflexivity.
Qed.

Lemma outputToConsole_console (t : WinstonOtelTransport.transport) (lvl : string)
      (entry : list (string * value)) (w : world) :
  String.eqb (WinstonOtelTransport.environment t) "development"
  && WinstonOtelTransport.devLineThrows entry = false ->
  fst (WinstonOtelTransport.outputToConsole t lvl entry w) = Completed
  /\ exists line,
      console (snd (WinstonOtelTransport.outputToConsole t lvl entry w))
      = (console w ++ [line])%list.
Proof.
  unfold WinstonOtelTransport.outputToConsole.
  destruct (String.eqb _ _); simpl; intros H.
  - rewrite H. split; [reflexivity|]. eexists. reflexivity.
  - split; [reflexivity|]. eexists. reflexivity.
Qed.

Lemma winston_sent_console (t : WinstonOtelTransport.transport) (attempt : bool)
      (lvl text : string) (entry : list (string * value)) (w : world) :
  console (if WinstonOtelTransport.enableOtlp t && isOtelLoggerAvailable w
           then WinstonOtelTransport.sendToOtlp attempt lvl text entry w
           else w) = console w.
Proof.
  destruct (_ && _); [|reflexivity].
  unfold WinstonOtelTransport.sendToOtlp. apply emitOtelLog_console.
Qed.

(** With its console output off the transport prints nothing, whatever
    became of the export. *)
Lemma winston_log_silent (t : WinstonOtelTransport.transport)
      (amb : StructuredLogger.ambient) (attempt : bool)
      (i : WinstonOtelTransport.info) (w : world) :
  WinstonOtelTransport.enableConsole t = false ->
  fst (WinstonOtelTransport.log t amb attempt i w) = Completed
  /\ console (snd (WinstonOtelTransport.log t amb attempt i w)) = console w.
Proof.
  intros Hoff. unfold WinstonOtelTransport.log.
  destruct (WinstonOtelTransport.buildEntry t amb i) as [[lvl text] entry].
  rewrite Hoff. split; [reflexivity|]. apply winston_sent_console.
Qed.

(** With its console output on the transport prints one line, in any
    format but the development one. *)
Lemma winston_log_console (t : WinstonOtelTransport.transport)
      (amb : StructuredLogger.ambient) (attempt : bool)
      (i : WinstonOtelTransport.info) (w : world) :
  WinstonOtelTransport.enableConsole t = true ->
  String.eqb (WinstonOtelTransport.environment t) "development" = false ->
  fst (WinstonOtelTransport.log t amb attempt i w) = Completed
  /\ exists line,
      console (snd (WinstonOtelTransport.log t amb attempt i w))
      = (console w ++ [line])%list.
Proof.
  intros Hon Henv. unfold WinstonOtelTransport.log.
  destruct (WinstonOtelTransport.buildEntry t amb i) as [[lvl text] entry].
  rewrite Hon.
  match goal with
  | |- context [WinstonOtelTransport.outputToConsole t lvl entry ?w1] =>
      destruct (outputToConsole_console t lvl entry w1) as (Hc & line & Hl)
  end.
  { rewrite Henv. reflexivity. }
  split; [exact Hc|]. exists line. rewrite Hl, winston_sent_console. reflexivity.
Qed.

End Fallback.

(** C3, as the code has it.  A write through [StructuredLogger.writeLog] at
    or above the minimum level, with remote export enabled, whose
    metadata sets none of the fields that the development line formats
    (or whose logger does not use that format), returns and has appended
    one console line whenever the export path is marked unavailable or
    the emission reports failure, whether or not console output is
    enabled.  Under the same conditions the Winston transport with its
    console output off returns and has appended nothing. *)
Theorem console_fallback :
  forall (lg : StructuredLogger.logger) (amb : StructuredLogger.ambient)
         (attempt : bool) (level : OtelLogger.LogLevel) (message : string)
         (meta : option (list (string * value))) (w : OtelLogger.world)
         (t : WinstonOtelTransport.transport) (i : WinstonOtelTransport.info),
    StructuredLogger.LOG_LEVEL_PRIORITY (StructuredLogger.logLevel lg)
      <= StructuredLogger.LOG_LEVEL_PRIORITY level ->
    StructuredLogger.enableOtlpLogs lg = true ->
    OtelLogger.isOtelLoggerAvailable w = false \/ attempt = false ->
    String.eqb (StructuredLogger.environment lg) "development" = false
    \/ StructuredLogger.overridesLineField meta = false ->
    (fst (StructuredLogger.writeLog lg amb attempt level message meta w)
     = OtelLogger.Completed
     /\ exists line,
         OtelLogger.console
           (snd (StructuredLogger.writeLog lg amb attempt level message meta w))
         = (OtelLogger.console w ++ [line])%list)
    /\ (WinstonOtelTransport.enableConsole t = false ->
        fst (WinstonOtelTransport.log t amb attempt i w) = OtelLogger.Completed
        /\ OtelLogger.console (snd (WinstonOtelTransport.log t amb attempt i w))
           = OtelLogger.console w).
Proof.
  intros lg amb attempt level message meta w t i Hlevel Hotlp Hfail Hline.
  split; [|apply winston_log_silent].
  unfold StructuredLogger.writeLog.
  destruct (Nat.ltb_spec (StructuredLogger.LOG_LEVEL_PRIORITY level)
                         (StructuredLogger.LOG_LEVEL_PRIORITY
                            (StructuredLogger.logLevel lg))) as [Hlt|_]; [lia|].
  rewrite Hotlp. simpl.
  set (entry := StructuredLogger.createLogEntry lg amb level message meta).
  assert (Hformats : String.eqb (StructuredLogger.environment lg) "development"
                     && StructuredLogger.devLineThrows entry = false).
  { destruct Hline as [->|Hown]; [reflexivity|].
    subst entry. rewrite (own_line_formats lg amb level message meta Hown).
    apply andb_false_r. }
  destruct (OtelLogger.isOtelLoggerAvailable w) eqn:Hav.
  - destruct Hfail as [Hfail | ->]; [discriminate|].
    simpl. rewrite orb_true_r.
    destruct (writeToConsole_console lg level entry
                (OtelLogger.mkWorld false (OtelLogger.exported w) (OtelLogger.console w))
                Hformats) as (Hc & r & Hl & _).
    split; [exact Hc|]. eexists. exact Hl.
  - simpl. rewrite orb_true_r.
    destruct (writeToConsole_console lg level entry w Hformats) as (Hc & r & Hl & _).
    split; [exact Hc|]. eexists. exact Hl.
Qed.

(** Console output off, remote export on, export path unavailable: the
    logger still prints, the transport stays silent. *)
Lemma console_fallback_witness :
  let w := OtelLogger.mkWorld false [] [] in
  let t := WinstonOtelTransport.mkTransport "api" "production" [] true false in
  let i := WinstonOtelTransport.mkInfo "error" "boom" None None [] in
  (exists line,
      OtelLogger.console
        (snd (StructuredLogger.writeLog (Scenario.devLogger [] true false)
                Scenario.noTrace true OtelLogger.error "boom"
                (Some [("attempts", VNum 3)]) w))
      = (OtelLogger.console w ++ [line])%list)
  /\ OtelLogger.console (snd (WinstonOtelTransport.log t Scenario.noTrace true i w))
     = OtelLogger.console w.
Proof.
  intros w t i.
  destruct (console_fallback (Scenario.devLogger [] true false) Scenario.noTrace true
              OtelLogger.error "boom" (Some [("attempts", VNum 3)]) w t i
              ltac:(simpl; lia) eq_refl (or_introl eq_refl) (or_intror eq_refl))
    as [[_ Hline] Hsilent].
  split; [exact Hline|]. exact (proj2 (Hsilent eq_refl)).
Defined.

(** C3 as worded fails for the Winston transport: with console output
    off, remote export on and the export path marked unavailable, a log of
    level error writes no console line at all. *)
Lemma winston_no_fallback_counterexample :
  let w := OtelLogger.mkWorld false [] [] in
  let t := WinstonOtelTransport.mkTransport "api" "production" [] true false in
  let i := WinstonOtelTransport.mkInfo "error" "boom" None None [] in
  WinstonOtelTransport.enableOtlp t = true
  /\ OtelLogger.isOtelLoggerAvailable w = false
  /\ OtelLogger.console (snd (WinstonOtelTransport.log t Scenario.noTrace false i w))
     = [].
Proof. repeat split. Qed.

(** ** The carrier round trip *)

Section Codec.
Import OTel.

Lemma small_N_cases (P : N -> Prop) (d : N) :
  (d < 16)%N ->
  (forall n : nat, (n < 16)%nat -> P (N.of_nat n)) -> P d.
Proof.
  intros Hd HP. rewrite <- (N2Nat.id d). apply HP. lia.
Qed.

Lemma hexValue_hexDigit (d : N) : (d < 16)%N -> hexValue (hexDigit d) = Some d.
Proof.
  intros Hd. pattern d. apply (small_N_cases _ d Hd). intros n Hn.
  do 16 (destruct n as [|n]; [reflexivity|]). lia.
Qed.

Lemma hexDigit_not_dash (d : N) : (d < 16)%N -> Ascii.eqb (hexDigit d) "-" = false.
Proof.
  intros Hd. pattern d. apply (small_N_cases _ d Hd). intros n Hn.
  do 16 (destruct n as [|n]; [reflexivity|]). lia.
Qed.

Lemma parseHexFrom_toHexOnto (w : nat) :
  forall n tail acc,
    parseHexFrom acc (toHexOnto w n tail)
    = parseHexFrom (acc * 16 ^ N.of_nat w + n mod 16 ^ N.of_nat w)%N tail.
Proof.
  induction w as [|w IH]; intros n tail acc.
  - simpl. rewrite N.mod_1_r. f_equal. lia.
  - cbn [toHexOnto]. rewrite IH. cbn [parseHexFrom].
    rewrite hexValue_hexDigit by (apply N.mod_lt; lia).
    f_equal. rewrite Nat2N.inj_succ, N.pow_succ_r'.
    rewrite (N.Div0.mod_mul_r n 16 (16 ^ N.of_nat w)). lia.
Qed.

Lemma length_toHexOnto (w : nat) :
  forall n tail, String.length (toHexOnto w n tail) = (w + String.length tail)%nat.
Proof.
  induction w as [|w IH]; intros n tail; simpl; [reflexivity|].
  rewrite IH. simpl. lia.
Qed.

Lemma parseHex_toHex (w : nat) (n : N) :
  (n < 16 ^ N.of_nat w)%N -> parseHex w (toHex w n) = Some n.
Proof.
  intros Hn. unfold parseHex, toHex. rewrite length_toHexOnto. simpl.
  rewrite Nat.add_0_r, Nat.eqb_refl, parseHexFrom_toHexOnto. simpl.
  rewrite N.mod_small by exact Hn. reflexivity.
Qed.

Lemma hasChar_toHexOnto (w : nat) :
  forall n tail,
    hasChar "-" tail = false -> hasChar "-" (toHexOnto w n tail) = false.
Proof.
  induction w as [|w IH]; intros n tail Ht; simpl; [exact Ht|].
  apply IH. simpl. rewrite hexDigit_not_dash by (apply N.mod_lt; lia). exact Ht.
Qed.

Lemma splitOn_nonempty (sep : ascii) (s : string) : splitOn sep s <> [].
Proof.
  destruct s as [|c rest]; simpl; [discriminate|].
  destruct (Ascii.eqb c sep); [discriminate|].
  destruct (splitOn sep rest); discriminate.
Qed.

Lemma splitOn_whole (sep : ascii) (s : string) :
  hasChar sep s = false -> splitOn sep s = [s].
Proof.
  induction s as [|c rest IH]; simpl; [reflexivity|].
  intros H. apply orb_false_iff in H as [Hc Hr].
  rewrite Hc, (IH Hr). reflexivity.
Qed.

Lemma splitOn_app (sep : ascii) (a b : string) :
  hasChar sep a = false ->
  splitOn sep (a ++ String sep b) = a :: splitOn sep b.
Proof.
  induction a as [|c rest IH]; simpl.
  - intros _. rewrite Ascii.eqb_refl. reflexivity.
  - intros H. apply orb_false_iff in H as [Hc Hr].
    rewrite Hc, (IH Hr). reflexivity.
Qed.

Lemma parseTraceParent_format (sc : SpanContext) :
  isSpanContextValid sc = true ->
  parseTraceParent (formatTraceParent sc)
  = Some (mkSpanContext (traceId sc) (spanId sc) (traceFlags sc) None).
Proof.
  unfold isSpanContextValid. intros Hv.
  repeat (apply andb_prop in Hv as [Hv ?]).
  repeat match goal with
         | H : (_ <? _)%N = true |- _ => apply N.ltb_lt in H
         end.
  unfold parseTraceParent, formatTraceParent.
  change ("00-" ++ ?x) with ("00" ++ String "-" x).
  rewrite splitOn_app by reflexivity.
  change (toHex 32 (traceId sc) ++ "-" ++ ?x)
    with (toHex 32 (traceId sc) ++ String "-" x).
  rewrite splitOn_app by (apply hasChar_toHexOnto; reflexivity).
  change (toHex 16 (spanId sc) ++ "-" ++ ?x)
    with (toHex 16 (spanId sc) ++ String "-" x).
  rewrite splitOn_app by (apply hasChar_toHexOnto; reflexivity).
  rewrite splitOn_whole by (apply hasChar_toHexOnto; reflexivity).
  cbn [String.eqb Ascii.eqb Bool.eqb].
  rewrite !parseHex_toHex by assumption.
  replace (0 <? traceId sc)%N with true by (symmetry; apply N.ltb_lt; assumption).
  replace (0 <? spanId sc)%N with true by (symmetry; apply N.ltb_lt; assumption).
  reflexivity.
Qed.

Lemma headerString_inject_traceparent (sc : SpanContext) (c : carrier) :
  isSpanContextValid sc = true ->
  headerString (inject (Some sc) c) "traceparent" = Some (formatTraceParent sc).
Proof.
  intros Hv. unfold inject, headerString. rewrite Hv.
  destruct (traceState sc).
  - rewrite lookup_insert_ne by discriminate. rewrite lookup_insert_eq. reflexivity.
  - rewrite lookup_insert_eq. reflexivity.
Qed.

Lemma extract_inject (base : Context) (sc : SpanContext) (c : carrier) :
  isSpanContextValid sc = true ->
  exists ts,
    extract base (inject (Some sc) c)
    = Some (mkSpanContext (traceId sc) (spanId sc) (traceFlags sc) ts).
Proof.
  intros Hv. unfold extract.
  rewrite headerString_inject_traceparent, parseTraceParent_format by exact Hv.
  simpl. eexists. reflexivity.
Qed.

End Codec.

(** C6.  For every valid span context, injecting it into any headers with
    [injectRabbitMQContext] and extracting the result with
    [extractRabbitMQContext] yields a context with the same [traceId] and
    [spanId] (and the same flags), whatever context the extraction starts
    from. *)
Theorem carrier_round_trip :
  forall (active base : OTel.Context) (headers : option (gmap string value))
         (sc : OTel.SpanContext),
    active = Some sc ->
    OTel.isSpanContextValid sc = true ->
    exists sc',
      RabbitMQContext.extractRabbitMQContext base
        (Some (RabbitMQContext.injectRabbitMQContext active headers)) = Some sc'
      /\ OTel.traceId sc' = OTel.traceId sc
      /\ OTel.spanId sc' = OTel.spanId sc
      /\ OTel.traceFlags sc' = OTel.traceFlags sc.
Proof.
  intros active base headers sc -> Hv.
  unfold RabbitMQContext.extractRabbitMQContext, RabbitMQContext.injectRabbitMQContext.
  destruct (extract_inject base sc (match headers with Some h => h | None => ∅ end) Hv)
    as [ts E].
  rewrite E. eexists. split; [reflexivity|]. simpl. auto.
Qed.

Lemma carrier_round_trip_witness :
  exists sc',
    RabbitMQContext.extractRabbitMQContext None
      (Some (RabbitMQContext.injectRabbitMQContext (Some Scenario.sampleContext) None))
    = Some sc'
    /\ OTel.traceId sc' = OTel.traceId Scenario.sampleContext
    /\ OTel.spanId sc' = OTel.spanId Scenario.sampleContext
    /\ OTel.traceFlags sc' = OTel.traceFlags Scenario.sampleContext.
Proof.
  exact (carrier_round_trip (Some Scenario.sampleContext) None None
           Scenario.sampleContext eq_refl eq_refl).
Defined.

(** ** The carrier of a socket event *)

Section SocketCarrier.
Import SocketIO.

Lemma queryParam_insert (sock : socketInfo) (key k : string) (c : gmap string value) :
  (match queryParam sock k with
   | Some v => <[k := VStr (toStringJs v)]> c
   | None => c
   end) !! key
  = if String.eqb key k
    then match queryParam sock k with
         | Some v => Some (VStr (toStringJs v))
         | None => c !! key
         end
    else c !! key.
Proof.
  destruct (String.eqb_spec key k) as [->|Hne].
  - destruct (queryParam sock k); [apply lookup_insert_eq|reflexivity].
  - destruct (queryParam sock k); [|reflexivity].
    apply lookup_insert_ne. congruence.
Qed.

Lemma payload_layer (args : list value) (c : gmap string value) (key : string) :
  (match args with
   | VObj props :: _ =>
       match getProp "_trace" props with
       | Some t => list_to_map (spreadEntries t) ∪ c
       | None => c
       end
   | _ => c
   end) !! key
  = match sourceLookup (payloadSource args) key with
    | Some x => Some x
    | None => c !! key
    end.
Proof.
  unfold payloadSource, sourceLookup.
  destruct args as [|[] ?]; try reflexivity.
  destruct (getProp "_trace" props); [|reflexivity].
  rewrite lookup_union. destruct (list_to_map _ !! key), (c !! key); reflexivity.
Qed.

Lemma handshake_layer (sock : socketInfo) (key : string) :
  (match socketHandshake sock with
   | Some hs => match headers hs with
                | Some h => headersToCarrier h
                | None => ∅
                end
   | None => ∅
   end) !! key
  = sourceLookup (handshakeSource sock) key.
Proof.
  unfold handshakeSource, sourceLookup.
  destruct (socketHandshake sock) as [hs|]; [|apply lookup_empty].
  destruct (headers hs); [reflexivity|apply lookup_empty].
Qed.

End SocketCarrier.

(** C1, as the code has it.  The carrier handed to extraction merges the
    three sources key by key: a truthy [traceparent] or [tracestate] query
    parameter wins for its key, otherwise the key comes from the payload's
    [_trace] field when that defines it, otherwise from the handshake
    headers. *)
Theorem socket_carrier_layers :
  forall (sock : SocketIO.socketInfo) (args : list value) (key : string),
    SocketIO.traceCarrier sock args !! key
    = match SocketIO.queryOverride sock key with
      | Some v => Some v
      | None =>
          match SocketIO.sourceLookup (SocketIO.payloadSource args) key with
          | Some v => Some v
          | None => SocketIO.sourceLookup (SocketIO.handshakeSource sock) key
          end
      end.
Proof.
  intros sock args key. unfold SocketIO.traceCarrier, SocketIO.queryOverride.
  rewrite (queryParam_insert sock key "tracestate").
  rewrite (queryParam_insert sock key "traceparent").
  rewrite payload_layer, handshake_layer.
  destruct (String.eqb_spec key "tracestate") as [->|Hs].
  - simpl. destruct (SocketIO.queryParam sock "tracestate"); reflexivity.
  - rewrite orb_false_r.
    destruct (String.eqb_spec key "traceparent") as [->|Hp]; [|reflexivity].
    destruct (SocketIO.queryParam sock "traceparent"); reflexivity.
Qed.

(** C1 as worded fails: with a [traceparent] handshake header and a
    payload [_trace] that carries only [tracestate], the carrier holds one
    key from each source, while "first match wins, no merge" would pass
    the payload's carrier alone. *)
Lemma socket_carrier_merges_counterexample :
  SocketIO.traceCarrier Scenario.tracedSocket Scenario.payloadWithState
    !! "traceparent"
  = Some (VStr "00-4bf92f3577b34da6a3ce929d0e0e4736-00f067aa0ba902b7-01")
  /\ SocketIO.traceCarrier Scenario.tracedSocket Scenario.payloadWithState
       !! "tracestate"
     = Some (VStr "vendor=1")
  /\ SocketIO.spec_firstMatchCarrier Scenario.tracedSocket Scenario.payloadWithState
       !! "traceparent"
     = None.
Proof. repeat split; vm_compute; reflexivity. Qed.

(** ** Guarded operations that throw *)

Section Guarded.
Import Telemetry.

Lemma tryCatchFinally_threw {A : Type} (body : T A) (handler : thrown -> T A)
      (final : T unit) (w after : world) (e : thrown) :
  body w = (Threw e, after) ->
  tryCatchFinally body handler final w
  = let '(r, w1) := handler e after in
    match final w1 with
    | (Returned _, w2) => (r, w2)
    | (Threw e', w2) => (Threw e', w2)
    end.
Proof. intros H. unfold tryCatchFinally. rewrite H. reflexivity. Qed.

Lemma bind_threw {A B : Type} (m : T A) (k : A -> T B) (w after : world) (e : thrown) :
  m w = (Threw e, after) -> bind m k w = (Threw e, after).
Proof. intros H. unfold bind. rewrite H. reflexivity. Qed.

Lemma bind_returned {A B : Type} (m : T A) (k : A -> T B) (w w1 : world) (a : A) :
  m w = (Returned a, w1) -> bind m k w = k a w1.
Proof. intros H. unfold bind. rewrite H. reflexivity. Qed.

(** The catch clause followed by the finally clause, as the three
    interceptors write them. *)
Lemma catch_and_finally {A : Type} (span : nat) (mk : nat -> metric) (e : thrown)
      (after : world) :
  (forall t, isFailure (mk t) = true) ->
  exists final,
    (let '(r, w1) :=
       (let! _ := recordOnSpan span e in
        let! finished := dateNow in
        let! _ := recordMetric (mk finished) in
        @throw A e) after in
     match endSpan span w1 with
     | (Returned _, w2) => (r, w2)
     | (Threw e', w2) => (Threw e', w2)
     end) = (Threw e, final)
    /\ failureRecorded e span after final.
Proof.
  intros Hmk. destruct e as [name message|v].
  - eexists. split; [reflexivity|]. intros sp Hsp.
    assert (Hlt : span < length (spans after)) by (eapply lookup_lt_Some; eauto).
    simpl. rewrite Hsp. simpl.
    rewrite list_lookup_insert_eq by assumption.
    rewrite list_lookup_insert_eq by (rewrite length_insert; assumption).
    rewrite !list_insert_insert_eq.
    eexists. split; [apply list_lookup_insert_eq; assumption|].
    simpl. repeat split. eexists. split; [reflexivity|apply Hmk].
  - eexists. split; [reflexivity|]. intros sp Hsp.
    assert (Hlt : span < length (spans after)) by (eapply lookup_lt_Some; eauto).
    simpl. rewrite Hsp.
    eexists. split; [apply list_lookup_insert_eq; assumption|].
    simpl. repeat split. eexists. split; [reflexivity|apply Hmk].
Qed.

End Guarded.

(** C2, as the code has it.  When the guarded call throws [e] - the
    handler of [wrapConsumer], the handler behind a traced socket listener,
    the original [send] behind the patched one - the operation throws the
    same [e]; the span is ended once more than the guarded call left it;
    one failure metric is recorded; and, only when [e] is an [Error]
    instance, the status is set to error with its message and the
    exception is recorded (any other thrown value leaves status and
    exceptions as they were). *)
Theorem guarded_operation_failure :
  forall (e : Telemetry.thrown),
    (forall (A : Type) st msg queue (handler : nat -> Telemetry.T A) w sc w1 after,
        RabbitMQ.openConsumeScope st msg queue w = (Telemetry.Returned sc, w1) ->
        Telemetry.contextWith (RabbitMQ.activeContext sc)
                              (handler (RabbitMQ.span sc)) w1
        = (Telemetry.Threw e, after) ->
        exists final,
          RabbitMQ.wrapConsumer st msg queue handler w = (Telemetry.Threw e, final)
          /\ Telemetry.failureRecorded e (RabbitMQ.span sc) after final)
    /\ (forall serviceName sock event handler args w sc w1 after,
          SocketIO.openEventScope serviceName sock event args w
          = (Telemetry.Returned sc, w1) ->
          Telemetry.contextWith (SocketIO.activeContext sc) (handler args) w1
          = (Telemetry.Threw e, after) ->
          exists final,
            SocketIO.wrappedHandler serviceName sock event handler args w
            = (Telemetry.Threw e, final)
            /\ Telemetry.failureRecorded e (SocketIO.span sc) after final)
    /\ (forall st queue msg options w sc w1 after,
          RabbitMQ.openSendScope st queue options w = (Telemetry.Returned sc, w1) ->
          RabbitMQ.forwardSend st queue msg options sc w1 = (Telemetry.Threw e, after) ->
          exists final,
            RabbitMQ.patchedSend st queue msg options w = (Telemetry.Threw e, final)
            /\ Telemetry.failureRecorded e (RabbitMQ.sendSpan sc) after final).
Proof.
  intros e. split; [|split].
  - intros A st msg queue handler w sc w1 after Hopen Hrun.
    unfold RabbitMQ.wrapConsumer. rewrite (bind_returned _ _ _ _ _ Hopen).
    rewrite (tryCatchFinally_threw _ _ _ w1 after e)
      by (apply bind_threw; exact Hrun).
    apply (catch_and_finally (RabbitMQ.span sc)
             (fun finished =>
                Telemetry.RabbitMessage queue (Some (RabbitMQ.scopeExchange sc))
                  (Some (RabbitMQ.scopeRoutingKey sc)) "consume" false
                  (Telemetry.elapsed (RabbitMQ.startTime sc) finished))).
    reflexivity.
  - intros serviceName sock event handler args w sc w1 after Hopen Hrun.
    unfold SocketIO.wrappedHandler. rewrite (bind_returned _ _ _ _ _ Hopen).
    rewrite (tryCatchFinally_threw _ _ _ w1 after e)
      by (apply bind_threw; exact Hrun).
    apply (catch_and_finally (SocketIO.span sc)
             (fun finished =>
                Telemetry.WsEvent event false (Telemetry.elapsed (SocketIO.startTime sc) finished))).
    reflexivity.
  - intros st queue msg options w sc w1 after Hopen Hrun.
    unfold RabbitMQ.patchedSend. rewrite (bind_returned _ _ _ _ _ Hopen).
    rewrite (tryCatchFinally_threw _ _ _ w1 after e)
      by (apply bind_threw; exact Hrun).
    apply (catch_and_finally (RabbitMQ.sendSpan sc)
             (fun finished =>
                Telemetry.RabbitMessage queue None None "publish" false
                  (Telemetry.elapsed (RabbitMQ.sendStartTime sc) finished))).
    reflexivity.
Qed.


(** A consumer whose handler throws an [Error]. *)
Lemma guarded_operation_failure_witness :
  let e := Telemetry.ErrorObject "Error" "boom" in
  exists after final,
    RabbitMQ.wrapConsumer RabbitMQ.initialState Scenario.order "orders"
      (fun _ => @Telemetry.throw unit e) Scenario.quietWorld
    = (Telemetry.Threw e, final)
    /\ Telemetry.failureRecorded e 0 after final.
Proof.
  intros e.
  destruct (proj1 (guarded_operation_failure e) unit RabbitMQ.initialState
              Scenario.order "orders" (fun _ => Telemetry.throw e)
              Scenario.quietWorld _ _ _ eq_refl eq_refl) as [final H].
  eexists _, final. exact H.
Defined.

(** C2 as worded fails: a handler that throws the string "boom" leaves
    the span with status unset and no exception recorded; the span is
    still ended once and the string is rethrown. *)
Lemma non_error_throw_counterexample :
  let e := Telemetry.NonError (VStr "boom") in
  exists final sp,
    RabbitMQ.wrapConsumer RabbitMQ.initialState Scenario.order "orders"
      (fun _ => @Telemetry.throw unit e) Scenario.quietWorld
    = (Telemetry.Threw e, final)
    /\ Telemetry.spans final !! 0%nat = Some sp
    /\ Telemetry.status sp = Telemetry.Unset
    /\ Telemetry.exceptions sp = []
    /\ Telemetry.endCalls sp = 1%nat.
Proof. intros e. eexists _, _. repeat split; reflexivity. Qed.

(** ** Initializing an interceptor again *)

Section Counting.
Import Telemetry.

Lemma grows_refl (w : world) : grows 0 0 w w.
Proof. split; lia. Qed.

Lemma grows_trans (a b c d : nat) (w1 w2 w3 : world) :
  grows a b w1 w2 -> grows c d w2 w3 -> grows (a + c) (b + d) w1 w3.
Proof. intros [H1 H2] [H3 H4]. split; lia. Qed.

Lemma updateSpan_grows (span : nat) (f : Span -> Span) (w : world) :
  exists w', updateSpan span f w = (Returned tt, w') /\ grows 0 0 w w'.
Proof.
  eexists. split; [reflexivity|]. split; simpl; [|lia].
  destruct (spans w !! span); [rewrite length_insert|]; lia.
Qed.

Lemma recordOnSpan_grows (span : nat) (e : thrown) (w : world) :
  exists w', recordOnSpan span e w = (Returned tt, w') /\ grows 0 0 w w'.
Proof.
  destruct e as [name message|v]; simpl.
  - unfold bind.
    destruct (updateSpan_grows span
                (fun s => mkSpan (Telemetry.name s) (kind s) (attributes s) (parent s)
                                 (spanContext s) (status s)
                                 (exceptions s ++ [ErrorObject name message])%list
                                 (endCalls s)) w) as (w1 & E1 & G1).
    unfold recordException. rewrite E1.
    destruct (updateSpan_grows span
                (fun s => mkSpan (Telemetry.name s) (kind s) (attributes s) (parent s)
                                 (spanContext s) (Error message) (exceptions s)
                                 (endCalls s)) w1) as (w2 & E2 & G2).
    unfold setStatus. rewrite E2. exists w2. split; [reflexivity|].
    apply (grows_trans 0 0 0 0 _ _ _ G1 G2).
  - exists w. split; [reflexivity|apply grows_refl].
Qed.

(** The end of the [try] block after the guarded call returned. *)
Lemma success_tail_grows {A : Type} (span : nat) (mk : nat -> metric) (result : A)
      (w : world) :
  exists w',
    (let! _ := setStatus span Ok in
     let! finished := dateNow in
     let! _ := recordMetric (mk finished) in
     ret result) w = (Returned result, w')
    /\ grows 0 1 w w'.
Proof.
  unfold bind, setStatus.
  destruct (updateSpan_grows span
              (fun s => mkSpan (Telemetry.name s) (kind s) (attributes s) (parent s)
                               (spanContext s) Ok (exceptions s) (endCalls s)) w)
    as (w1 & E1 & [G1 G2]).
  rewrite E1. simpl. eexists. split; [reflexivity|].
  split; simpl; [lia|]. rewrite length_app. simpl. lia.
Qed.

(** The [catch] clause. *)
Lemma failure_tail_grows {A : Type} (span : nat) (mk : nat -> metric) (e : thrown)
      (w : world) :
  exists w',
    (let! _ := recordOnSpan span e in
     let! finished := dateNow in
     let! _ := recordMetric (mk finished) in
     @throw A e) w = (Threw e, w')
    /\ grows 0 1 w w'.
Proof.
  unfold bind.
  destruct (recordOnSpan_grows span e w) as (w1 & E1 & [G1 G2]).
  rewrite E1. simpl. eexists. split; [reflexivity|].
  split; simpl; [lia|]. rewrite length_app. simpl. lia.
Qed.

(** A guarded block: whatever the guarded call does, one metric is
    recorded on top of what the call itself adds. *)
Lemma guarded_grows {A B : Type} (span : nat) (call : T A) (finish : A -> T B)
      (body : T B) (mkFail : nat -> metric) (a b : nat) (w : world) :
  body w = (let! x := call in finish x) w ->
  grows a b w (snd (call w)) ->
  (forall x w1, exists y w2, finish x w1 = (Returned y, w2) /\ grows 0 1 w1 w2) ->
  grows a (S b) w
    (snd (tryCatchFinally
            body
            (fun error =>
               let! _ := recordOnSpan span error in
               let! finished := dateNow in
               let! _ := recordMetric (mkFail finished) in
               throw error)
            (endSpan span) w)).
Proof.
  intros Hbody Hcall Hfinish. unfold tryCatchFinally. rewrite Hbody.
  unfold bind at 1.
  destruct (call w) as [[x|e] w1] eqn:Ecall; simpl in Hcall.
  - destruct (Hfinish x w1) as (y & w2 & E2 & G2).
    rewrite E2.
    destruct (updateSpan_grows span
                (fun s => mkSpan (Telemetry.name s) (kind s) (attributes s) (parent s)
                                 (spanContext s) (status s) (exceptions s)
                                 (S (endCalls s))) w2) as (w3 & E3 & G3).
    unfold endSpan. rewrite E3. simpl.
    pose proof (grows_trans _ _ _ _ _ _ _ Hcall (grows_trans _ _ _ _ _ _ _ G2 G3)) as G.
    replace (a + (0 + 0)) with a in G by lia.
    replace (b + (1 + 0)) with (S b) in G by lia. exact G.
  - destruct (failure_tail_grows (A := B) span mkFail e w1) as (w2 & E2 & G2).
    rewrite E2.
    destruct (updateSpan_grows span
                (fun s => mkSpan (Telemetry.name s) (kind s) (attributes s) (parent s)
                                 (spanContext s) (status s) (exceptions s)
                                 (S (endCalls s))) w2) as (w3 & E3 & G3).
    unfold endSpan. rewrite E3. simpl.
    pose proof (grows_trans _ _ _ _ _ _ _ Hcall (grows_trans _ _ _ _ _ _ _ G2 G3)) as G.
    replace (a + (0 + 0)) with a in G by lia.
    replace (b + (1 + 0)) with (S b) in G by lia. exact G.
Qed.

Lemma contextWith_grows {A : Type} (ctx : OTel.Context) (fn : T A) (a b : nat) :
  (forall w, grows a b w (snd (fn w))) ->
  forall w, grows a b w (snd (contextWith ctx fn w)).
Proof.
  intros Hfn w. unfold contextWith.
  specialize (Hfn (mkWorld (clock w) (spans w) (metrics w) ctx (idSource w))).
  destruct (fn _) as [r w1]. exact Hfn.
Qed.

End Counting.

Section SocketCounting.
Import Telemetry SocketIO.

Lemma openEventScope_grows (serviceName : string) (sock : socketInfo) (event : string)
      (args : list value) (w : world) :
  exists sc w1,
    openEventScope serviceName sock event args w = (Returned sc, w1)
    /\ grows 1 0 w w1.
Proof.
  unfold openEventScope, extractTraceContext, bind, startSpan. simpl.
  destruct (idSource w (length (spans w))) as [ft fs].
  eexists _, _. split; [reflexivity|].
  split; simpl; [rewrite length_app; simpl; lia|lia].
Qed.

Lemma wrappedHandler_grows (serviceName : string) (sock : socketInfo) (event : string)
      (handler : list value -> T unit) (a b : nat) :
  (forall args w, grows a b w (snd (handler args w))) ->
  forall args w,
    grows (S a) (S b) w (snd (wrappedHandler serviceName sock event handler args w)).
Proof.
  intros Hh args w. unfold wrappedHandler.
  destruct (openEventScope_grows serviceName sock event args w) as (sc & w1 & E & G).
  unfold bind at 1. rewrite E.
  assert (G2 : grows a (S b) w1
                 (snd (tryCatchFinally
                         (let! _ := contextWith (activeContext sc) (handler args) in
                          let! _ := setStatus (span sc) Ok in
                          let! finished := dateNow in
                          recordMetric (WsEvent event true (elapsed (startTime sc) finished)))
                         (fun error =>
                            let! _ := recordOnSpan (span sc) error in
                            let! finished := dateNow in
                            let! _ := recordMetric
                                        (WsEvent event false (elapsed (startTime sc) finished)) in
                            throw error)
                         (endSpan (span sc)) w1))).
  { apply (guarded_grows (span sc)
             (contextWith (activeContext sc) (handler args))
             (fun _ => let! _ := setStatus (span sc) Ok in
                       let! finished := dateNow in
                       recordMetric (WsEvent event true (elapsed (startTime sc) finished)))
             _ (fun finished => WsEvent event false (elapsed (startTime sc) finished))
             a b w1 eq_refl).
    - apply contextWith_grows. apply Hh.
    - intros x w2.
      destruct (success_tail_grows (span sc)
                  (fun finished => WsEvent event true (elapsed (startTime sc) finished)) tt w2)
        as (w3 & E3 & G3).
      exists tt, w3. split; [|exact G3].
      rewrite <- E3. unfold bind.
      destruct (setStatus (span sc) Ok w2) as [[[]|] w']; reflexivity. }
  pose proof (grows_trans _ _ _ _ _ _ _ G G2) as G3.
  replace (1 + a) with (S a) in G3 by lia.
  replace (0 + S b) with (S b) in G3 by lia. exact G3.
Qed.

Lemma runHandler_tracedTimes_grows (serviceName : string) (sock : socketInfo)
      (event : string) (run : list value -> T unit) (n : nat) :
  quiet run ->
  forall args w,
    grows n n w
      (snd (runHandler serviceName sock (tracedTimes n event (AppHandler run)) args w)).
Proof.
  intros Hq. induction n as [|n IH]; intros args w; simpl.
  - apply Hq.
  - apply wrappedHandler_grows. exact IH.
Qed.

Lemma callOn_interceptedTimes (n : nat) (event : string) :
  isReserved event = false ->
  forall h registered,
    callOn (interceptedTimes n NativeOn) event h registered
    = (registered ++ [(event, tracedTimes n event h)])%list.
Proof.
  intros Hr. induction n as [|n IH]; intros h registered; simpl.
  - reflexivity.
  - rewrite Hr, IH. clear IH. f_equal. f_equal. f_equal.
    induction n as [|n IHn]; simpl; [reflexivity|]. rewrite IHn. reflexivity.
Qed.

Lemma connectionListeners_initTimes (n : nat) (io : server) :
  connectionListeners (initTimes n io)
  = (connectionListeners io ++ repeat InterceptorListener n)%list.
Proof.
  induction n as [|n IH].
  - simpl. rewrite app_nil_r. reflexivity.
  - change (initTimes (S n) io)
      with (fst (initSocketIOInterceptor (initTimes n io) None None)).
    cbn [initSocketIOInterceptor fst ioOnConnection connectionListeners].
    rewrite IH, <- app_assoc. f_equal.
    clear IH. induction n as [|n IHn]; simpl; [reflexivity|]. rewrite IHn. reflexivity.
Qed.

Lemma connect_interceptors (n : nat) (s : socket) :
  fold_left runConnectionListener (repeat InterceptorListener n) s
  = mkSocket (info s) (interceptedTimes n (on s)) (listeners s).
Proof.
  revert s. induction n as [|n IH]; intros s; simpl.
  - destruct s; reflexivity.
  - rewrite IH. simpl. f_equal.
    clear IH. induction n as [|n IHn]; simpl; [reflexivity|]. rewrite IHn. reflexivity.
Qed.

End SocketCounting.

Section RabbitCounting.
Import Telemetry RabbitMQ.

Lemma tryCatchFinally_ext {A : Type} (body1 body2 : T A) (handler : thrown -> T A)
      (final : T unit) (w : world) :
  body1 w = body2 w ->
  tryCatchFinally body1 handler final w = tryCatchFinally body2 handler final w.
Proof. intros H. unfold tryCatchFinally. rewrite H. reflexivity. Qed.

Lemma callOriginal_grows (st : state) (queue : string) (msg : value)
      (options : sendOptions) (w : world) :
  (forall impl, originalSend st = Some (OriginalSend impl) -> quietSend impl) ->
  grows 0 0 w (snd (callOriginal st queue msg options w)).
Proof.
  intros Hq. unfold callOriginal.
  destruct (originalSend st) as [[impl|]|]; try apply grows_refl.
  apply (Hq impl eq_refl).
Qed.

Lemma patchedSend_grows (st : state) (queue : string) (msg : value)
      (options : option sendOptions) (w : world) :
  (forall impl, originalSend st = Some (OriginalSend impl) -> quietSend impl) ->
  grows 1 1 w (snd (patchedSend st queue msg options w)).
Proof.
  intros Hq. unfold patchedSend, openSendScope.
  unfold bind at 1. unfold bind at 1. cbn [dateNow].
  unfold bind at 1. cbn [contextActive].
  unfold bind at 1. unfold startSpan at 1.
  destruct (idSource w (length (spans w))) as [ft fs].
  cbn [ret sendSpan sendStartTime].
  match goal with
  | |- context [tryCatchFinally _ _ _ ?w1] => set (w1' := w1)
  end.
  assert (G1 : grows 1 0 w w1').
  { subst w1'. split; simpl; [rewrite length_app; simpl; lia|lia]. }
  refine (grows_trans 1 0 0 1 _ _ _ G1 _).
  match goal with
  | |- context [forwardSend st queue msg options ?sc] => set (scope := sc)
  end.
  apply (guarded_grows (length (spans w))
           (forwardSend st queue msg options scope)
           (fun result =>
              let! _ := setStatus (length (spans w)) Ok in
              let! finished := dateNow in
              let! _ := recordMetric
                          (RabbitMessage queue None None "publish" true
                                         (elapsed (clock w) finished)) in
              ret result)
           _ (fun finished =>
                RabbitMessage queue None None "publish" false (elapsed (clock w) finished))
           0 0 w1' eq_refl).
  - unfold forwardSend, bind, contextActive, setSpan. apply callOriginal_grows, Hq.
  - intros x w2.
    destruct (success_tail_grows (length (spans w))
                (fun finished =>
                   RabbitMessage queue None None "publish" true (elapsed (clock w) finished))
                x w2) as (w3 & E3 & G3).
    exists x, w3. split; [exact E3|exact G3].
Qed.

End RabbitCounting.

(** X31.  Initializing the RabbitMQ interceptor again on a class with a
    prototype changes neither the class nor the module state, and a
    [send] after two initializations, through a client [send] that does
    no tracing of its own, starts one span and records one metric.  The
    Socket.IO interceptor has no such guard: after [n] initializations on
    one server, a handler that the application registers on a new
    connection for a non-reserved event is wrapped [n] times, and one
    received event starts [n] spans and records [n] metrics. *)
Theorem reinitialization :
  (forall p o1 e1 o2 e2 st,
      let first := RabbitMQ.initRabbitMQInterceptor (RabbitMQ.mkClass (Some p)) o1 e1 st in
      RabbitMQ.initRabbitMQInterceptor (fst first) o2 e2 (snd first) = first)
  /\ (forall impl o1 e1 o2 e2 queue msg options w,
        RabbitMQ.quietSend impl ->
        let first :=
          RabbitMQ.initRabbitMQInterceptor
            (RabbitMQ.mkClass (Some (RabbitMQ.mkProto (Some (RabbitMQ.OriginalSend impl)))))
            o1 e1 RabbitMQ.initialState in
        let second := RabbitMQ.initRabbitMQInterceptor (fst first) o2 e2 (snd first) in
        Telemetry.grows 1 1 w
          (snd (RabbitMQ.callSend (fst second) (snd second) queue msg options w)))
  /\ (forall n serviceName info event run args w,
        SocketIO.isReserved event = false ->
        SocketIO.quiet run ->
        let io :=
          SocketIO.ioOnConnection
            (SocketIO.initTimes n (SocketIO.mkServer []))
            (SocketIO.AppListener [(event, SocketIO.AppHandler run)]) in
        let s := SocketIO.connect io (SocketIO.mkSocket info SocketIO.NativeOn []) in
        Telemetry.grows n n w (snd (SocketIO.receive serviceName s event args w))).
Proof.
  split; [|split].
  - intros p o1 e1 o2 e2 st first.
    assert (Hp : RabbitMQ.isPatched (snd first) = true).
    { subst first. unfold RabbitMQ.initRabbitMQInterceptor.
      destruct (RabbitMQ.isPatched st) eqn:Hp; [exact Hp|].
      unfold RabbitMQ.patchRabbitMQ. simpl.
      destruct (RabbitMQ.send p) as [f|]; destruct (RabbitMQ.originalSend st);
        reflexivity. }
    unfold RabbitMQ.initRabbitMQInterceptor at 1. rewrite Hp.
    destruct first; reflexivity.
  - intros impl o1 e1 o2 e2 queue msg options w Hq first second.
    subst second first. simpl. apply patchedSend_grows.
    simpl. intros impl' [= <-]. exact Hq.
  - intros n serviceName info event run args w Hr Hq io s. subst s io.
    unfold SocketIO.connect, SocketIO.ioOnConnection. simpl.
    rewrite connectionListeners_initTimes. simpl.
    rewrite fold_left_app, connect_interceptors. simpl.
    unfold SocketIO.socketOn, SocketIO.receive. simpl.
    rewrite (callOn_interceptedTimes n event Hr). simpl.
    rewrite String.eqb_refl.
    pose proof (runHandler_tracedTimes_grows serviceName info event run n Hq args w) as G.
    destruct (SocketIO.runHandler _ _ _ _ _) as [r w1]. exact G.
Qed.

(** Two initializations, one "message" event. *)
Lemma reinitialization_witness :
  let io :=
    SocketIO.ioOnConnection
      (SocketIO.initTimes 2 (SocketIO.mkServer []))
      (SocketIO.AppListener
         [("message", SocketIO.AppHandler (fun _ => Telemetry.ret tt))]) in
  let s := SocketIO.connect io Scenario.plainSocket in
  Telemetry.grows 2 2 Scenario.quietWorld
    (snd (SocketIO.receive "api" s "message" [VStr "hi"] Scenario.quietWorld)).
Proof.
  intros io s.
  refine (proj2 (proj2 reinitialization) 2%nat "api"
            (SocketIO.info Scenario.plainSocket) "message"
            (fun _ => Telemetry.ret tt) [VStr "hi"] Scenario.quietWorld eq_refl _).
  intros args w. split; simpl; lia.
Defined.

(** C5.  The code at an input on which the claim fails: the Socket.IO
    interceptor initialized twice on one server, one "message" event
    received on a new connection starts two spans and records two
    metrics. *)
Lemma socket_initialized_twice_traces_twice :
  let io :=
    SocketIO.ioOnConnection
      (fst (SocketIO.initSocketIOInterceptor
              (fst (SocketIO.initSocketIOInterceptor (SocketIO.mkServer []) None None))
              None None))
      (SocketIO.AppListener
         [("message", SocketIO.AppHandler (fun _ => Telemetry.ret tt))]) in
  let s := SocketIO.connect io Scenario.plainSocket in
  let final := snd (SocketIO.receive "api" s "message" [VStr "hi"] Scenario.quietWorld) in
  length (Telemetry.spans final) = 2%nat
  /\ length (Telemetry.metrics final) = 2%nat.
Proof. split; reflexivity. Qed.

(** ** The HTTP metrics middleware on excluded paths *)

(** C8.  For a request whose path starts with one of the excluded
    prefixes, the middleware does what [next] does and nothing else: the
    world is the one [next] leaves, the response object is returned as it
    was given, so the middleware has registered no [finish] listener, and a
    response that has none records no request metric when it finishes. *)
Theorem ignored_paths_bypass_metrics :
  forall (req : HttpMetrics.request) (res : HttpMetrics.response)
         (next : Telemetry.T unit) (w : Telemetry.world) (prefix : string),
    In prefix HttpMetrics.ignoredPaths ->
    startsWith (HttpMetrics.path req) prefix = true ->
    HttpMetrics.httpMetricsMiddleware req res next w
    = (match fst (next w) with
       | Telemetry.Returned _ => Telemetry.Returned res
       | Telemetry.Threw e => Telemetry.Threw e
       end, snd (next w))
    /\ (HttpMetrics.finishListeners res = [] ->
        forall reqF wF,
          HttpMetrics.emitFinish reqF res wF = (Telemetry.Returned tt, wF)).
Proof.
  intros req res next w prefix Hin Hstart.
  assert (Hignore : HttpMetrics.shouldIgnore (HttpMetrics.path req) = true).
  { unfold HttpMetrics.shouldIgnore. apply existsb_exists. exists prefix. auto. }
  split.
  - unfold HttpMetrics.httpMetricsMiddleware. rewrite Hignore.
    unfold Telemetry.bind. destruct (next w) as [[[]|e] w']; reflexivity.
  - intros Hnone reqF wF. unfold HttpMetrics.emitFinish. rewrite Hnone. reflexivity.
Qed.

Lemma ignored_paths_bypass_metrics_witness :
  let req := HttpMetrics.mkRequest "GET" "/healthz" "" None in
  let res := HttpMetrics.mkResponse 200 [] in
  HttpMetrics.httpMetricsMiddleware req res (Telemetry.ret tt) Scenario.quietWorld
  = (Telemetry.Returned res, Scenario.quietWorld)
  /\ (HttpMetrics.finishListeners res = [] ->
      forall reqF wF,
        HttpMetrics.emitFinish reqF res wF = (Telemetry.Returned tt, wF)).
Proof.
  intros req res.
  exact (ignored_paths_bypass_metrics req res (Telemetry.ret tt) Scenario.quietWorld
           "/health" (or_introl eq_refl) eq_refl).
Defined.

(** ** The error middleware *)

Section ErrorMiddleware.
Import Telemetry ErrorHandler.

Lemma span_updates_return (error : list (string * value)) (w0 w : world) :
  exists w',
    (match activeSpan w0 with
     | Some span =>
         let! _ := recordException span
                     (ErrorObject (text (prop "name" error))
                                  (text (prop "message" error))) in
         let! _ := setStatus span (Error (text (prop "message" error))) in
         setAttribute span "error.type" (VStr (errorTypeName (classifyError error)))
     | None => ret tt
     end) w = (Returned tt, w').
Proof.
  destruct (activeSpan w0); eexists; reflexivity.
Qed.

(** The error code is computed unless [String(...)] throws. *)
Lemma errorCode_returns (error : list (string * value)) (w : world) :
  errorCodeConverts error = true ->
  (if isPrismaKnownRequestError error then ret (prop "code" error)
   else if isAxiosError error then
     if toStringThrows (errorCodeSource error)
     then throw (ErrorObject "TypeError" "Cannot convert object to primitive value")
     else ret (VStr (toStringJs (errorCodeSource error)))
   else ret VUndefined) w
  = (Returned (if isPrismaKnownRequestError error then prop "code" error
               else if isAxiosError error
                    then VStr (toStringJs (errorCodeSource error))
                    else VUndefined), w).
Proof.
  unfold errorCodeConverts. intros H.
  destruct (isPrismaKnownRequestError error); [reflexivity|].
  destruct (isAxiosError error); [|reflexivity].
  destruct (toStringThrows (errorCodeSource error)); [discriminate|].
  reflexivity.
Qed.

(** The metadata handed to [logger.error] sets none of the fields that
    the development line formats, so the line can always be put
    together. *)
Lemma error_log_line_formats (error : list (string * value)) (req : request)
      (w w' : world) (h : handled) :
  beforeResponse error req w = (Returned h, w') ->
  StructuredLogger.overridesLineField (Some (logMeta h)) = false.
Proof.
  unfold beforeResponse. unfold bind at 1. cbn [getWorld].
  destruct (span_updates_return error w w) as [w1 E1].
  unfold bind at 1. rewrite E1.
  unfold bind at 1.
  destruct (isPrismaKnownRequestError error);
    [| destruct (isAxiosError error);
       [destruct (toStringThrows (errorCodeSource error))|]];
    cbn; intros H; try discriminate; injection H as <- _; reflexivity.
Qed.

End ErrorMiddleware.

(** C10, as the code has it.  For every error whose code can be computed
    the middleware, having recorded its telemetry, ends with the one call
    [res.status(code).json(body)] and returns or throws as that call
    does: [code] is the error's [status] field when that field is truthy
    and 500 otherwise; [body] is [{error: {message, type}}] with the
    error's [message]; and [type] is "AxiosError" exactly when
    [isAxiosError] is truthy, "PrismaClientKnownRequestError" exactly when
    it is not an Axios error and has [code], [clientVersion] and [name]
    equal to that string, and "Error" exactly when it is neither. *)
Theorem error_response :
  forall (error : list (string * value)) (req : ErrorHandler.request)
         (res : ErrorHandler.response) (w : Telemetry.world),
    ErrorHandler.errorCodeConverts error = true ->
    exists h recorded type,
      ErrorHandler.beforeResponse error req w = (Telemetry.Returned h, recorded)
      /\ ErrorHandler.observabilityErrorMiddleware error req res w
         = ErrorHandler.statusJson res (ErrorHandler.sentStatus h)
                                   (ErrorHandler.sentBody h) recorded
      /\ ErrorHandler.sentStatus h
         = (match getProp "status" error with
            | Some v => if truthy v then v else VNum 500
            | None => VNum 500
            end)
      /\ ErrorHandler.sentBody h
         = VObj [("error", VObj [("message", ErrorHandler.prop "message" error);
                                 ("type", VStr type)])]
      /\ (type = "AxiosError" <-> ErrorHandler.isAxiosError error = true)
      /\ (type = "PrismaClientKnownRequestError"
          <-> ErrorHandler.isAxiosError error = false
              /\ ErrorHandler.isPrismaKnownRequestError error = true)
      /\ (type = "Error"
          <-> ErrorHandler.isAxiosError error = false
              /\ ErrorHandler.isPrismaKnownRequestError error = false).
Proof.
  intros error req res w Hcode.
  assert (Hbefore : exists h recorded,
             ErrorHandler.beforeResponse error req w = (Telemetry.Returned h, recorded)
             /\ ErrorHandler.sentStatus h
                = ErrorHandler.orElse (ErrorHandler.prop "status" error) (VNum 500)
             /\ ErrorHandler.sentBody h
                = VObj [("error",
                         VObj [("message", ErrorHandler.prop "message" error);
                               ("type",
                                VStr (ErrorHandler.errorTypeName
                                        (ErrorHandler.classifyError error)))])]).
  { unfold ErrorHandler.beforeResponse.
    unfold Telemetry.bind at 1. cbn [Telemetry.getWorld].
    destruct (span_updates_return error w w) as [w1 E1].
    unfold Telemetry.bind at 1. rewrite E1.
    unfold Telemetry.bind at 1. rewrite (errorCode_returns error w1 Hcode).
    eexists _, _. split; [reflexivity|]. split; reflexivity. }
  destruct Hbefore as (h & recorded & Hrun & Hstatus & Hbody).
  exists h, recorded, (ErrorHandler.errorTypeName (ErrorHandler.classifyError error)).
  split; [exact Hrun|]. split.
  { unfold ErrorHandler.observabilityErrorMiddleware.
    rewrite (bind_returned _ _ _ _ _ Hrun). reflexivity. }
  split.
  { rewrite Hstatus. unfold ErrorHandler.orElse, ErrorHandler.prop.
    destruct (getProp "status" error) as [v|]; reflexivity. }
  split; [exact Hbody|].
  unfold ErrorHandler.classifyError.
  destruct (ErrorHandler.isAxiosError error),
           (ErrorHandler.isPrismaKnownRequestError error);
    simpl; repeat split; intros; try discriminate; try tauto;
    try (destruct H; discriminate).
Qed.

(** An error with status 404, answered through a response that accepts
    the call. *)
Lemma error_response_witness :
  exists h recorded,
    ErrorHandler.beforeResponse
      [("message", VStr "no such user"); ("status", VNum 404)]
      (ErrorHandler.mkRequest "GET" "/users/7" "/users/7") Scenario.quietWorld
    = (Telemetry.Returned h, recorded)
    /\ ErrorHandler.sentStatus h = VNum 404
    /\ ErrorHandler.observabilityErrorMiddleware
         [("message", VStr "no such user"); ("status", VNum 404)]
         (ErrorHandler.mkRequest "GET" "/users/7" "/users/7")
         (ErrorHandler.mkResponse (fun _ _ => Telemetry.ret tt)) Scenario.quietWorld
       = (Telemetry.Returned tt, recorded).
Proof.
  destruct (error_response
              [("message", VStr "no such user"); ("status", VNum 404)]
              (ErrorHandler.mkRequest "GET" "/users/7" "/users/7")
              (ErrorHandler.mkResponse (fun _ _ => Telemetry.ret tt))
              Scenario.quietWorld eq_refl)
    as (h & recorded & type & Hrun & Hcall & Hstatus & _).
  exists h, recorded. split; [exact Hrun|]. split; [exact Hstatus|exact Hcall].
Defined.

(** C10 as worded fails twice over: for an error whose numeric [status]
    is 0 the response is asked for status 500, and an error that has both
    a truthy [isAxiosError] and the Prisma shape is classified as
    "AxiosError". *)
Lemma error_response_counterexample :
  (match fst (ErrorHandler.beforeResponse
                [("message", VStr "bad"); ("status", VNum 0)]
                (ErrorHandler.mkRequest "GET" "/x" "/x") Scenario.quietWorld) with
   | Telemetry.Returned r => ErrorHandler.sentStatus r = VNum 500
   | Telemetry.Threw _ => False
   end)
  /\ (let both :=
        [ ("isAxiosError", VBool true); ("code", VStr "P2002");
          ("clientVersion", VStr "5.0.0");
          ("name", VStr "PrismaClientKnownRequestError") ] in
      ErrorHandler.isPrismaKnownRequestError both = true
      /\ ErrorHandler.classifyError both = ErrorHandler.AXIOS).
Proof.
  split.
  - vm_compute. reflexivity.
  - split; reflexivity.
Qed.

(** ** The route label of a request without a route template *)

Section RouteNormalization.
Import HttpMetrics.

Lemma joinSegments_tail (segments : list string) : pathTail (joinSegments segments).
Proof. destruct segments; [left|right; eexists]; reflexivity. Qed.

Lemma append_cons (c : ascii) (s t : string) : String c s ++ t = String c (s ++ t).
Proof. reflexivity. Qed.

Lemma append_nil (t : string) : "" ++ t = t.
Proof. reflexivity. Qed.

Ltac unfold_append := repeat (rewrite append_cons || rewrite append_nil).

Lemma inClass_slash (k : charClass) : inClass k "/" = false.
Proof. destruct k; reflexivity. Qed.

Lemma matchesAt_before_tail (pattern : list charClass) :
  forall a t, pathTail t -> matchesAt pattern (a ++ t) = matchesAt pattern a.
Proof.
  induction pattern as [|k ks IH]; intros a t Ht.
  - destruct (a ++ t), a; reflexivity.
  - destruct a as [|c a]; unfold_append; cbn [matchesAt].
    + destruct Ht as [->|[r ->]]; [reflexivity|].
      cbn [matchesAt]. rewrite inClass_slash. reflexivity.
    + rewrite IH by exact Ht. reflexivity.
Qed.

Lemma matchesAt_app (pattern : list charClass) :
  forall a t, matchesAt pattern a = true -> matchesAt pattern (a ++ t) = true.
Proof.
  induction pattern as [|k ks IH]; intros a t H.
  - destruct (a ++ t); reflexivity.
  - destruct a as [|c a]; cbn [matchesAt] in H; [discriminate|].
    unfold_append. cbn [matchesAt].
    apply andb_prop in H as [Hc Ha]. rewrite Hc, (IH _ _ Ha). reflexivity.
Qed.

Lemma replaceUuids_skip (a : string) :
  forall r, replaceUuids (String.length a) (a ++ r) = replaceUuids 0 r.
Proof.
  induction a as [|c a IH]; intros r; unfold_append; [reflexivity|].
  cbn [String.length replaceUuids]. apply IH.
Qed.

Lemma replaceUuids_uuid (s t : string) :
  isUuidSegment s = true ->
  replaceUuids 0 (s ++ t) = ":id" ++ replaceUuids 0 t.
Proof.
  unfold isUuidSegment. intros H. apply andb_prop in H as [Hm Hl].
  apply Nat.eqb_eq in Hl.
  destruct s as [|c s]; [discriminate|].
  rewrite append_cons. cbn [replaceUuids].
  change (String c (s ++ t)) with (String c s ++ t).
  rewrite (matchesAt_app _ _ t Hm).
  simpl in Hl. injection Hl as Hl. rewrite <- Hl, replaceUuids_skip. reflexivity.
Qed.

Lemma replaceUuids_clean (s : string) :
  forall t, pathTail t -> containsUuid s = false ->
            replaceUuids 0 (s ++ t) = s ++ replaceUuids 0 t.
Proof.
  induction s as [|c s IH]; intros t Ht Hc; [reflexivity|].
  cbn [containsUuid] in Hc. apply orb_false_iff in Hc as [Hm Hc].
  rewrite append_cons. cbn [replaceUuids].
  change (String c (s ++ t)) with (String c s ++ t).
  rewrite (matchesAt_before_tail _ _ t Ht), Hm, (IH t Ht Hc). reflexivity.
Qed.

Lemma replaceUuids_slash (r : string) :
  replaceUuids 0 (String "/" r) = String "/" (replaceUuids 0 r).
Proof. reflexivity. Qed.

Lemma isDigit_not_dash (c : ascii) : isDigit c = true -> Ascii.eqb c "-" = false.
Proof.
  intros H. destruct (Ascii.eqb_spec c "-") as [->|]; [discriminate|reflexivity].
Qed.

Lemma digits_break_pattern (n : nat) (pattern : list charClass) :
  forall s, allDigits s = true ->
            matchesAt (repeat Hex n ++ Dash :: pattern)%list s = false.
Proof.
  induction n as [|n IH]; intros s Hs; destruct s as [|c s]; try reflexivity;
    simpl in *; apply andb_prop in Hs as [Hc Hs].
  - rewrite (isDigit_not_dash _ Hc). reflexivity.
  - rewrite (IH _ Hs). apply andb_false_r.
Qed.

Lemma allDigits_containsUuid (s : string) :
  allDigits s = true -> containsUuid s = false.
Proof.
  induction s as [|c s IH]; intros Hs.
  - reflexivity.
  - cbn [containsUuid]. apply orb_false_iff. split.
    + apply (digits_break_pattern 8). exact Hs.
    + simpl in Hs. apply andb_prop in Hs as [_ Hs]. auto.
Qed.

Lemma containsUuid_matchesAt (s : string) :
  containsUuid s = false -> matchesAt uuidPattern s = false.
Proof. destruct s; cbn [containsUuid]; intros H; apply orb_false_iff in H; tauto. Qed.

(** First pass: the UUID expression. *)
Lemma regular_containsUuid (s : string) :
  regularSegment s = true -> isUuidSegment s = false -> containsUuid s = false.
Proof.
  unfold regularSegment. intros H Hu. apply andb_prop in H as [_ H].
  rewrite Hu in H. simpl in H. apply orb_prop in H as [H|H].
  - unfold isNumericSegment in H. apply andb_prop in H as [_ H].
    apply allDigits_containsUuid. exact H.
  - unfold isPlainSegment in H. apply andb_prop in H as [_ H].
    apply negb_true_iff in H. exact H.
Qed.

Lemma replaceUuids_join (segments : list string) :
  forallb regularSegment segments = true ->
  replaceUuids 0 (joinSegments segments) = joinSegments (map afterUuids segments).
Proof.
  induction segments as [|s rest IH]; intros H; [reflexivity|].
  cbn [forallb] in H. apply andb_prop in H as [Hs Hrest].
  cbn [joinSegments map]. unfold_append. rewrite replaceUuids_slash.
  unfold afterUuids at 1. destruct (isUuidSegment s) eqn:Hu.
  - rewrite (replaceUuids_uuid _ _ Hu), (IH Hrest). reflexivity.
  - rewrite replaceUuids_clean.
    + rewrite (IH Hrest). reflexivity.
    + apply joinSegments_tail.
    + apply regular_containsUuid; assumption.
Qed.

(** Second pass: the number expression. *)
Lemma replaceNumbers_copy (a : string) :
  forall t, hasChar "/" a = false ->
            replaceNumbers false (a ++ t) = a ++ replaceNumbers false t.
Proof.
  induction a as [|c a IH]; intros t H; [reflexivity|].
  simpl in H. apply orb_false_iff in H as [Hc Ha].
  rewrite append_cons. cbn [replaceNumbers]. rewrite Hc. simpl. rewrite (IH t Ha). reflexivity.
Qed.

Lemma replaceNumbers_digits (d : string) :
  forall t, allDigits d = true -> replaceNumbers true (d ++ t) = replaceNumbers true t.
Proof.
  induction d as [|c d IH]; intros t H; [reflexivity|].
  simpl in H. apply andb_prop in H as [Hc Hd].
  rewrite append_cons. cbn [replaceNumbers]. rewrite Hc. simpl. apply IH. exact Hd.
Qed.

Lemma replaceNumbers_tail (t : string) :
  pathTail t -> replaceNumbers true t = replaceNumbers false t.
Proof. intros [->|[r ->]]; reflexivity. Qed.

Lemma replaceNumbers_slash (b : bool) (u : string) :
  replaceNumbers b (String "/" u)
  = if startsWithDigit u then "/:id" ++ replaceNumbers true u
    else String "/" (replaceNumbers false u).
Proof. cbn [replaceNumbers]. rewrite andb_false_r. reflexivity. Qed.

Lemma startsWithDigit_app (s t : string) :
  pathTail t ->
  startsWithDigit (s ++ t) = startsWithDigit s.
Proof.
  intros Ht. destruct s as [|c s]; unfold_append; [|reflexivity].
  destruct Ht as [->|[r ->]]; reflexivity.
Qed.

Lemma replaceNumbers_join (segments : list string) :
  forallb secondPassSegment segments = true ->
  replaceNumbers false (joinSegments segments)
  = joinSegments (map afterNumbers segments).
Proof.
  induction segments as [|s rest IH]; intros H; [reflexivity|].
  cbn [forallb] in H. apply andb_prop in H as [Hs Hrest].
  unfold secondPassSegment in Hs. apply andb_prop in Hs as [Hslash Hkind].
  apply negb_true_iff in Hslash.
  cbn [joinSegments map]. unfold_append. rewrite replaceNumbers_slash.
  rewrite (startsWithDigit_app _ _ (joinSegments_tail rest)).
  unfold afterNumbers at 1. destruct (isNumericSegment s) eqn:Hn.
  - unfold isNumericSegment in Hn. apply andb_prop in Hn as [Hne Hd].
    assert (Hstart : startsWithDigit s = true).
    { destruct s as [|c s]; [discriminate|]. simpl in Hd.
      apply andb_prop in Hd as [Hc _]. exact Hc. }
    rewrite Hstart, (replaceNumbers_digits _ _ Hd).
    rewrite (replaceNumbers_tail _ (joinSegments_tail rest)), (IH Hrest).
    reflexivity.
  - simpl in Hkind. apply negb_true_iff in Hkind. rewrite Hkind.
    rewrite (replaceNumbers_copy _ _ Hslash), (IH Hrest). reflexivity.
Qed.

Lemma afterUuids_secondPass (s : string) :
  regularSegment s = true -> secondPassSegment (afterUuids s) = true.
Proof.
  unfold regularSegment, afterUuids. intros H. apply andb_prop in H as [Hslash H].
  destruct (isUuidSegment s) eqn:Hu; [reflexivity|].
  unfold secondPassSegment. rewrite Hslash. simpl in *.
  apply orb_prop in H as [H|H]; [rewrite H; reflexivity|].
  unfold isPlainSegment in H. apply andb_prop in H as [H _]. rewrite H.
  apply orb_true_r.
Qed.

Lemma afterNumbers_afterUuids (s : string) :
  regularSegment s = true ->
  afterNumbers (afterUuids s) = spec_normalizeSegment s.
Proof.
  intros H. unfold afterUuids, spec_normalizeSegment.
  destruct (isUuidSegment s) eqn:Hu; [reflexivity|].
  reflexivity.
Qed.

Lemma normalization_on_regular_paths (segments : list string) :
  forallb regularSegment segments = true ->
  replaceNumbers false (replaceUuids 0 (joinSegments segments))
  = spec_normalizePath segments.
Proof.
  intros H. rewrite (replaceUuids_join _ H), replaceNumbers_join.
  - unfold spec_normalizePath. rewrite map_map. f_equal.
    apply map_ext_in. intros s Hin. apply afterNumbers_afterUuids.
    rewrite forallb_forall in H. apply H. exact Hin.
  - rewrite forallb_forall in *. intros s' Hin.
    apply in_map_iff in Hin as (s & <- & Hin). apply afterUuids_secondPass. auto.
Qed.

End RouteNormalization.

(** X32.  Without a matched route template the label is the raw path
    after two replacements: every match of the UUID pattern, then every
    run of digits directly after a slash.  On a path whose segments are
    each UUID-shaped, purely numeric, or neither start with a digit nor
    contain a match of the UUID pattern, that is the path with exactly
    the UUID-shaped and the purely numeric segments replaced by ":id",
    every other segment unchanged. *)
Theorem route_label_normalization :
  forall (req : HttpMetrics.request) (segments : list string),
    HttpMetrics.nonEmptyString (HttpMetrics.routePath req) = false ->
    HttpMetrics.path req = HttpMetrics.joinSegments segments ->
    forallb HttpMetrics.regularSegment segments = true ->
    HttpMetrics.getRoute req = HttpMetrics.spec_normalizePath segments.
Proof.
  intros req segments Hroute Hpath Hreg.
  unfold HttpMetrics.getRoute. rewrite Hroute, andb_false_r, Hpath.
  apply normalization_on_regular_paths. exact Hreg.
Qed.

(** The scenario of the specification. *)
Lemma route_label_normalization_witness :
  HttpMetrics.getRoute
    (HttpMetrics.mkRequest "GET" "/users/123e4567-e89b-12d3-a456-426614174000" "" None)
  = "/users/:id".
Proof.
  exact (route_label_normalization
           (HttpMetrics.mkRequest "GET" "/users/123e4567-e89b-12d3-a456-426614174000"
                                  "" None)
           ["users"; "123e4567-e89b-12d3-a456-426614174000"]
           eq_refl eq_refl eq_refl).
Defined.

(** C7.  The code at inputs on which the claim fails: the segment "2fa"
    is not purely numeric, yet its leading digit is replaced, the
    expression for numbers not being tied to the end of the segment; and
    a UUID embedded in a longer segment is replaced inside it. *)
Lemma route_label_of_mixed_segments :
  HttpMetrics.getRoute (HttpMetrics.mkRequest "GET" "/2fa/setup" "" None)
  = "/:idfa/setup"
  /\ HttpMetrics.spec_normalizePath ["2fa"; "setup"] = "/2fa/setup"
  /\ HttpMetrics.getRoute
       (HttpMetrics.mkRequest "GET" "/files/x123e4567-e89b-12d3-a456-426614174000" ""
                              None)
     = "/files/x:id".
Proof. repeat split. Qed.

(** ** Arrays directly inside arrays *)

(** The array branch of [maskSensitiveData] recurses into every element
    that is an object in the sense of [typeof], arrays included: an array
    nested directly in an array comes back as a mapping keyed by its
    indices, and those keys are matched against the sensitive fields. *)
Example nested_array_becomes_mapping :
  StructuredLogger.maskSensitiveData ["password"]
    (VObj [("matrix", VArr [VArr [VNum 1; VNum 2]])])
  = [("matrix", VArr [VObj [("0", VNum 1); ("1", VNum 2)]])]
  /\ StructuredLogger.maskSensitiveData ["0"]
       (VObj [("matrix", VArr [VArr [VNum 1; VNum 2]])])
     = [("matrix", VArr [VObj [("0", VStr "[REDACTED]"); ("1", VNum 2)]])].
Proof. split; reflexivity. Qed.

(** ** Redaction as a function on data *)

Section RedactionAlgebra.
Import StructuredLogger.
Variable fields : list string.

Lemma maskProperty_sensitive (k : string) (v : value) :
  isSensitive fields k = true -> maskProperty fields k v = REDACTED.
Proof. intros H. unfold maskProperty. rewrite H. reflexivity. Qed.

#[local] Abbreviation settled := (Nesting.settled fields).

Lemma settled_scalar (v : value) : is_scalar v = true -> settled v.
Proof.
  intros Hs. split; [|split].
  - destruct v; try discriminate; reflexivity.
  - intros k. unfold maskProperty.
    destruct (isSensitive fields k) eqn:E; simpl; rewrite ?E;
      destruct v; try discriminate; simpl; rewrite ?E; reflexivity.
  - destruct v; try discriminate; reflexivity.
Qed.

Lemma mask_entries_twice (entries : list (string * value)) :
  assignable entries = entries ->
  Forall (fun kv => settled (snd kv)) entries ->
  maskSensitiveData fields
    (VObj (map (fun kv => (fst kv, maskProperty fields (fst kv) (snd kv))) entries))
  = map (fun kv => (fst kv, maskProperty fields (fst kv) (snd kv))) entries.
Proof.
  intros Ha H. rewrite maskSensitiveData_obj, assignable_map, Ha, map_map.
  apply map_ext_Forall. eapply Forall_impl; [exact H|].
  intros [k x] (_ & Hp & _). simpl. rewrite Hp. reflexivity.
Qed.

Lemma indexed_settled (items : list value) :
  Forall settled items -> forall i, Forall (fun kv => settled (snd kv)) (indexed i items).
Proof.
  induction 1 as [|x rest Hx _ IH]; intros i; simpl; constructor; auto.
Qed.

Lemma settled_all (v : value) : settled v.
Proof.
  induction v as [| |b|z|s|items IH|props IH] using value_ind';
    try (apply settled_scalar; reflexivity).
  - assert (Hdata : maskSensitiveData fields (VObj (maskSensitiveData fields (VArr items)))
                    = maskSensitiveData fields (VArr items)).
    { rewrite maskSensitiveData_arr. apply mask_entries_twice.
      - apply assignable_indexed.
      - apply indexed_settled. exact IH. }
    split; [exact Hdata|split].
    + intros k. unfold maskProperty at 2 3.
      destruct (isSensitive fields k) eqn:E.
      * apply maskProperty_sensitive. exact E.
      * unfold maskProperty. rewrite E. f_equal. rewrite map_map.
        apply map_ext_Forall. eapply Forall_impl; [exact IH|].
        intros x (_ & _ & Hx). exact Hx.
    + simpl. f_equal. exact Hdata.
  - assert (Hdata : maskSensitiveData fields (VObj (maskSensitiveData fields (VObj props)))
                    = maskSensitiveData fields (VObj props)).
    { rewrite (maskSensitiveData_obj fields props). apply mask_entries_twice.
      - apply assignable_idempotent.
      - apply Forall_assignable. exact IH. }
    split; [exact Hdata|split].
    + intros k. unfold maskProperty at 2 3.
      destruct (isSensitive fields k) eqn:E.
      * apply maskProperty_sensitive. exact E.
      * unfold maskProperty. rewrite E. f_equal. exact Hdata.
    + simpl. f_equal. exact Hdata.
Qed.

End RedactionAlgebra.

(** X1.  Redaction is idempotent: redacting the mapping that
    [maskSensitiveData] returned gives that same mapping again, for every
    list of sensitive fields and every input, in the logger and in the
    Winston transport alike. *)
Theorem maskSensitiveData_idempotent :
  forall (fields : list string) (data : value),
    StructuredLogger.maskSensitiveData fields
      (VObj (StructuredLogger.maskSensitiveData fields data))
    = StructuredLogger.maskSensitiveData fields data
    /\ WinstonOtelTransport.maskSensitiveData fields
         (VObj (WinstonOtelTransport.maskSensitiveData fields data))
       = WinstonOtelTransport.maskSensitiveData fields data.
Proof.
  intros fields data. split; apply (settled_all fields data).
Qed.

(** ** What redaction keeps *)

Section RedactionShape.
Import StructuredLogger.
Variable fields : list string.

Lemma untouched_item (x : value) :
  (forall props, x = VObj props -> maskSensitiveData fields x = props) ->
  match x with VArr _ => False | _ => True end ->
  maskItem fields x = x.
Proof.
  intros Hobj Hx. destruct x; try reflexivity; [contradiction|].
  unfold maskItem. rewrite (Hobj props eq_refl). reflexivity.
Qed.

Lemma nothing_to_redact_obj (k : string) (x : value) (rest : list (string * value)) :
  Nesting.nothing_to_redact fields (VObj ((k, x) :: rest))
  = Nesting.plainKey k && negb (isSensitive fields k)
    && Nesting.nothing_to_redact fields x
    && Nesting.nothing_to_redact fields (VObj rest).
Proof. reflexivity. Qed.

Lemma nothing_to_redact_arr (x : value) (rest : list value) :
  Nesting.nothing_to_redact fields (VArr (x :: rest))
  = match x with
    | VArr _ => false
    | _ => Nesting.nothing_to_redact fields x
    end && Nesting.nothing_to_redact fields (VArr rest).
Proof. reflexivity. Qed.

Lemma nothing_to_redact_fixed (v : value) :
  Nesting.nothing_to_redact fields v = true ->
  (forall props, v = VObj props -> maskSensitiveData fields v = props)
  /\ (forall k, isSensitive fields k = false -> maskProperty fields k v = v).
Proof.
  induction v as [| |b|z|s|items IH|props IH] using value_ind'; intros Hn;
    try (split; [intros ? [=]|intros k Hk; unfold maskProperty; rewrite Hk; reflexivity]).
  - split; [intros ? [=]|]. intros k Hk. unfold maskProperty. rewrite Hk. f_equal.
    induction items as [|x rest IHl]; [reflexivity|].
    rewrite nothing_to_redact_arr in Hn. apply andb_prop in Hn as [Hx Hrest].
    inversion IH as [|? ? IHx IHrest]; subst.
    cbn [map]. rewrite (IHl IHrest Hrest). f_equal.
    apply untouched_item.
    + intros props ->. apply (IHx Hx). reflexivity.
    + destruct x; try exact I. discriminate.
  - assert (Hdata : maskSensitiveData fields (VObj props) = props).
    { rewrite (maskSensitiveData_obj fields props).
      induction props as [|[k x] rest IHl]; [reflexivity|].
      rewrite nothing_to_redact_obj in Hn.
      apply andb_prop in Hn as [Hn Hrest]. apply andb_prop in Hn as [Hn Hx].
      apply andb_prop in Hn as [Hp Hk].
      apply negb_true_iff in Hk. apply plainKey_assigned in Hp.
      inversion IH as [|? ? IHx IHrest]; subst. cbn [snd] in IHx.
      unfold assignable in *. cbn [List.filter fst]. rewrite Hp.
      cbn [negb map fst snd]. rewrite (IHl IHrest Hrest).
      rewrite (proj2 (IHx Hx) k Hk). reflexivity. }
    split.
    + intros props' [= <-]. exact Hdata.
    + intros k Hk. unfold maskProperty. rewrite Hk. f_equal. exact Hdata.
Qed.

End RedactionShape.

(** X2.  Redaction keeps the keys and their order, with one exception:
    the mapping it returns has the own keys of the input other than
    [__proto__], in the same order; for an array given as the data (an
    array that is an element of an array) these are its indices in
    decimal. *)
Theorem maskSensitiveData_keeps_keys :
  forall (fields : list string),
    (forall props,
        map fst (StructuredLogger.maskSensitiveData fields (VObj props))
        = List.filter (fun key => negb (String.eqb key "__proto__")) (map fst props))
    /\ (forall items,
          map fst (StructuredLogger.maskSensitiveData fields (VArr items))
          = map pretty (seq 0 (length items))).
Proof.
  intros fields. split.
  - intros props. rewrite (maskSensitiveData_obj fields props), map_map.
    unfold assignable. induction props as [|[k x] rest IH]; [reflexivity|].
    cbn [map List.filter fst]. destruct (String.eqb k "__proto__"); cbn [negb map fst].
    + exact IH.
    + f_equal. exact IH.
  - intros items. rewrite (maskSensitiveData_arr fields items), map_map.
    generalize 0%nat. induction items as [|x rest IH]; intros i; [reflexivity|].
    simpl. f_equal. apply IH.
Qed.

(** X3.  On plain data - objects, arrays, strings, numbers, booleans,
    null and undefined, every key an ASCII name other than [__proto__] -
    in which no key at any depth is sensitive and no array is an element
    of an array, redaction with ASCII sensitive fields returns the
    properties it was given; in particular, with an empty list of
    sensitive fields, for all such data. *)
Theorem maskSensitiveData_identity :
  forall (fields : list string) (props : list (string * value)),
    forallb isAscii fields = true ->
    Nesting.nothing_to_redact fields (VObj props) = true ->
    StructuredLogger.maskSensitiveData fields (VObj props) = props.
Proof.
  intros fields props _ H.
  exact (proj1 (nothing_to_redact_fixed fields (VObj props) H) props eq_refl).
Qed.

Lemma maskSensitiveData_identity_witness :
  StructuredLogger.maskSensitiveData ["password"]
    (VObj [("user", VObj [("name", VStr "ann")]); ("tags", VArr [VStr "a"; VNull])])
  = [("user", VObj [("name", VStr "ann")]); ("tags", VArr [VStr "a"; VNull])].
Proof.
  exact (maskSensitiveData_identity ["password"]
           [("user", VObj [("name", VStr "ann")]); ("tags", VArr [VStr "a"; VNull])]
           eq_refl eq_refl).
Defined.

(** ** Which keys are sensitive *)

Section SensitiveKeys.
Import StructuredLogger.

Lemma startsWith_app (s p : string) :
  startsWith s p = true <-> exists b, s = p ++ b.
Proof.
  unfold startsWith. revert s. induction p as [|c p IH]; intros s.
  - split; [intros _; exists s; reflexivity|intros _; destruct s; reflexivity].
  - destruct s as [|d s]; simpl.
    + split; [discriminate|intros [b Hb]; discriminate].
    + destruct (ascii_dec c d) as [->|Hne].
      * rewrite IH. split; intros [b Hb]; exists b.
        -- rewrite Hb. reflexivity.
        -- injection Hb as Hb. exact Hb.
      * split; [discriminate|]. intros [b Hb]. injection Hb as Hc _. congruence.
Qed.

Lemma includes_app (s p : string) :
  includes s p = true <-> exists a b, s = a ++ p ++ b.
Proof.
  induction s as [|c s IH].
  - cbn [includes]. destruct (startsWith "" p) eqn:E.
    + split; [intros _|reflexivity].
      apply startsWith_app in E as [b Hb]. exists "", b. exact Hb.
    + split; [discriminate|]. intros (a & b & Hab).
      assert (startsWith "" p = true); [|congruence].
      apply startsWith_app. destruct a; [|discriminate]. exists b. exact Hab.
  - cbn [includes]. destruct (startsWith (String c s) p) eqn:E.
    + split; [intros _|reflexivity].
      apply startsWith_app in E as [b Hb]. exists "", b. exact Hb.
    + rewrite IH. split.
      * intros (a & b & Hab). exists (String c a), b. rewrite Hab. reflexivity.
      * intros (a & b & Hab). destruct a as [|d a].
        -- assert (startsWith (String c s) p = true); [|congruence].
           apply startsWith_app. exists b. exact Hab.
        -- injection Hab as _ Hab. exists a, b. exact Hab.
Qed.

Lemma isSensitive_empty_field (fields : list string) (key : string) :
  In "" fields -> isSensitive fields key = true.
Proof.
  intros Hin. unfold isSensitive. apply existsb_exists. exists "".
  split; [exact Hin|]. apply includes_app. exists "", (toLowerCase key). reflexivity.
Qed.

End SensitiveKeys.

(** X5.  An empty string among the sensitive fields makes every key
    sensitive: every property of the mapping that is returned - one for
    each own key of the input other than [__proto__] - holds the
    marker. *)
Theorem empty_field_redacts_every_key :
  forall (fields : list string) (props : list (string * value)),
    In "" fields ->
    StructuredLogger.maskSensitiveData fields (VObj props)
    = map (fun kv => (fst kv, VStr "[REDACTED]")) (assignable props).
Proof.
  intros fields props Hin. rewrite (maskSensitiveData_obj fields props).
  apply map_ext. intros [k v]. simpl. f_equal.
  unfold StructuredLogger.maskProperty.
  rewrite (isSensitive_empty_field fields k Hin). reflexivity.
Qed.

Lemma empty_field_redacts_every_key_witness :
  StructuredLogger.maskSensitiveData ["password"; ""]
    (VObj [("id", VNum 7); ("user", VObj [("name", VStr "ann")])])
  = [("id", VStr "[REDACTED]"); ("user", VStr "[REDACTED]")].
Proof.
  exact (empty_field_redacts_every_key ["password"; ""]
           [("id", VNum 7); ("user", VObj [("name", VStr "ann")])]
           (or_intror (or_introl eq_refl))).
Defined.

(** ** The log entry and the console line *)

Section LogEntry.
Import OtelLogger StructuredLogger.

Lemma getProp_without (keys : list string) (k : string)
      (entry : list (string * value)) :
  getProp k (without keys entry)
  = if existsb (String.eqb k) keys then None else getProp k entry.
Proof.
  unfold without.
  rewrite (getProp_filter_key (fun k' => negb (existsb (String.eqb k') keys))).
  destruct (existsb (String.eqb k) keys); reflexivity.
Qed.

Lemma hasProp_setProp (k k' : string) (v : value) (t : list (string * value)) :
  hasProp k' (setProp k v t) = String.eqb k k' || hasProp k' t.
Proof.
  unfold hasProp. destruct (String.eqb k k') eqn:E.
  - apply String.eqb_eq in E. subst. rewrite getProp_setProp_eq. reflexivity.
  - rewrite getProp_setProp_ne by exact E. reflexivity.
Qed.

Lemma distinct_keys_setProp (k : string) (v : value) (t : list (string * value)) :
  Nesting.distinct_keys t = true -> Nesting.distinct_keys (setProp k v t) = true.
Proof.
  induction t as [|[k0 v0] rest IH]; intros H; [reflexivity|].
  simpl in H. apply andb_prop in H as [Hfresh Hrest]. simpl.
  destruct (String.eqb k0 k) eqn:E; simpl.
  - rewrite Hfresh, Hrest. reflexivity.
  - rewrite hasProp_setProp, (IH Hrest).
    rewrite String.eqb_sym, E. simpl. rewrite Hfresh. reflexivity.
Qed.

Lemma createLogEntry_assign (lg : logger) (amb : ambient) (level : LogLevel)
      (message : string) (meta : list (string * value)) :
  createLogEntry lg amb level message (Some meta)
  = assign (createLogEntry lg amb level message None)
           (maskSensitiveData (sensitiveFields lg) (VObj meta)).
Proof. reflexivity. Qed.

Lemma getProp_entry (lg : logger) (amb : ambient) (level : LogLevel)
      (message : string) (meta : list (string * value)) (k : string) :
  Nesting.distinct_keys meta = true ->
  String.eqb k "__proto__" = false ->
  getProp k (createLogEntry lg amb level message (Some meta))
  = match getProp k meta with
    | Some v => Some (maskProperty (sensitiveFields lg) k v)
    | None => getProp k (createLogEntry lg amb level message None)
    end.
Proof.
  intros Hd Hk. rewrite createLogEntry_assign.
  destruct (getProp k meta) as [v|] eqn:E.
  - apply getProp_assign_in.
    + apply distinct_keys_mask. exact Hd.
    + apply mask_no_proto.
    + rewrite getProp_mask, Hk, E. reflexivity.
  - apply getProp_assign_notin. rewrite hasProp_mask. unfold hasProp. rewrite E.
    apply andb_false_r.
Qed.

Lemma emitted_console (lg : logger) (attempt : bool) (level : LogLevel)
      (message : string) (attrs : list (string * value)) (w : world) :
  console (snd (if enableOtlpLogs lg && isOtelLoggerAvailable w
                then emitOtelLog attempt level message attrs w
                else (false, w)))
  = console w.
Proof.
  destruct (enableOtlpLogs lg && isOtelLoggerAvailable w); [|reflexivity].
  apply emitOtelLog_console.
Qed.

(** Whatever it does, [writeToConsole] appends at most its one line. *)
Lemma writeToConsole_lines (lg : logger) (level : LogLevel)
      (entry : list (string * value)) (w : world) :
  exists lines,
    console (snd (writeToConsole lg level entry w)) = (console w ++ lines)%list
    /\ length lines <= 1
    /\ forall line, In line lines -> fst line = stream_of level.
Proof.
  unfold writeToConsole.
  destruct (String.eqb (environment lg) "development");
    [destruct (devLineThrows entry)|].
  - exists []. rewrite app_nil_r. split; [reflexivity|]. split; [simpl; lia|].
    intros line [].
  - eexists [_]. split; [reflexivity|]. split; [simpl; lia|].
    intros line [<-|[]]. reflexivity.
  - eexists [_]. split; [reflexivity|]. split; [simpl; lia|].
    intros line [<-|[]]. reflexivity.
Qed.

Lemma error_never_filtered (l : LogLevel) :
  (LOG_LEVEL_PRIORITY error <? LOG_LEVEL_PRIORITY l)%nat = false.
Proof. destruct l; reflexivity. Qed.

Lemma hasProp_setProp_other (k k' : string) (v : value) (t : list (string * value)) :
  String.eqb k k' = false -> hasProp k' (setProp k v t) = hasProp k' t.
Proof. intros H. rewrite hasProp_setProp, H. reflexivity. Qed.

End LogEntry.

(** X6.  In the structured logger the metadata has the last word.  For
    metadata with distinct ASCII keys and ASCII sensitive fields, the
    entry holds under every key of the metadata other than [__proto__]
    the (redacted) metadata value, also under [message], [level],
    [timestamp], [service] and the other fields the logger sets itself;
    under every other key it holds what the logger set, and under
    [__proto__] nothing. *)
Theorem metadata_overrides_entry_fields :
  forall (lg : StructuredLogger.logger) (amb : StructuredLogger.ambient)
         (level : OtelLogger.LogLevel) (message : string)
         (meta : list (string * value)) (key : string),
    forallb isAscii (StructuredLogger.sensitiveFields lg) = true ->
    asciiKeys (VObj meta) = true ->
    Nesting.distinct_keys meta = true ->
    getProp key (StructuredLogger.createLogEntry lg amb level message (Some meta))
    = if String.eqb key "__proto__" then None
      else match getProp key meta with
           | Some v =>
               Some (StructuredLogger.maskProperty
                       (StructuredLogger.sensitiveFields lg) key v)
           | None =>
               getProp key (StructuredLogger.createLogEntry lg amb level message None)
           end.
Proof.
  intros lg amb level message meta key _ _ Hd.
  destruct (String.eqb key "__proto__") eqn:Ek.
  - apply String.eqb_eq in Ek. subst key.
    rewrite createLogEntry_assign, getProp_assign_notin by apply mask_no_proto.
    unfold StructuredLogger.createLogEntry.
    destruct (StructuredLogger.truthy_str (StructuredLogger.traceId amb)),
             (StructuredLogger.truthy_str (StructuredLogger.spanId amb)),
             (StructuredLogger.truthy_str (StructuredLogger.context lg));
      reflexivity.
  - apply getProp_entry; assumption.
Qed.

(** A [message] key in the metadata replaces the message of the call. *)
Lemma metadata_overrides_entry_fields_witness :
  getProp "message"
    (StructuredLogger.createLogEntry (Scenario.devLogger [] true true) Scenario.noTrace
       OtelLogger.info "user logged in" (Some [("message", VStr "other")]))
  = Some (VStr "other").
Proof.
  exact (metadata_overrides_entry_fields (Scenario.devLogger [] true true)
           Scenario.noTrace OtelLogger.info "user logged in"
           [("message", VStr "other")] "message" eq_refl eq_refl eq_refl).
Defined.

(** X7.  One call of [writeLog] writes at most one console line, on the
    stream that belongs to the level of the call; below the minimum level
    it returns and changes nothing at all; at or above it, with console
    output enabled and metadata that sets none of the fields the
    development line formats (or a logger that does not use that
    format), it returns having written exactly one line. *)
Theorem writeLog_console_lines :
  forall (lg : StructuredLogger.logger) (amb : StructuredLogger.ambient)
         (attempt : bool) (level : OtelLogger.LogLevel) (message : string)
         (meta : option (list (string * value))) (w : OtelLogger.world),
    (exists lines,
        OtelLogger.console
          (snd (StructuredLogger.writeLog lg amb attempt level message meta w))
        = (OtelLogger.console w ++ lines)%list
        /\ length lines <= 1
        /\ forall line, In line lines -> fst line = StructuredLogger.stream_of level)
    /\ (StructuredLogger.LOG_LEVEL_PRIORITY level
        < StructuredLogger.LOG_LEVEL_PRIORITY (StructuredLogger.logLevel lg) ->
        StructuredLogger.writeLog lg amb attempt level message meta w
        = (OtelLogger.Completed, w))
    /\ (StructuredLogger.LOG_LEVEL_PRIORITY (StructuredLogger.logLevel lg)
        <= StructuredLogger.LOG_LEVEL_PRIORITY level ->
        StructuredLogger.enableConsoleLogs lg = true ->
        String.eqb (StructuredLogger.environment lg) "development" = false
        \/ StructuredLogger.overridesLineField meta = false ->
        fst (StructuredLogger.writeLog lg amb attempt level message meta w)
        = OtelLogger.Completed
        /\ length (OtelLogger.console
                     (snd (StructuredLogger.writeLog lg amb attempt level message
                                                     meta w)))
           = S (length (OtelLogger.console w))).
Proof.
  intros lg amb attempt level message meta w.
  unfold StructuredLogger.writeLog.
  set (entry := StructuredLogger.createLogEntry lg amb level message meta).
  pose proof (emitted_console lg attempt level message
                (StructuredLogger.otlpAttributes entry) w) as Hc.
  destruct (if StructuredLogger.enableOtlpLogs lg && OtelLogger.isOtelLoggerAvailable w
            then OtelLogger.emitOtelLog attempt level message
                   (StructuredLogger.otlpAttributes entry) w
            else (false, w)) as [ok w1].
  simpl in Hc.
  destruct (Nat.ltb_spec (StructuredLogger.LOG_LEVEL_PRIORITY level)
                         (StructuredLogger.LOG_LEVEL_PRIORITY
                            (StructuredLogger.logLevel lg))) as [Hlt|Hge].
  - split; [|split].
    + exists []. rewrite app_nil_r. split; [reflexivity|]. split; [simpl; lia|].
      intros line [].
    + reflexivity.
    + intros Hle. lia.
  - split; [|split].
    + destruct (StructuredLogger.enableConsoleLogs lg
                || negb ok && StructuredLogger.enableOtlpLogs lg).
      * destruct (writeToConsole_lines lg level entry w1) as (lines & Hl & Hn & Hs).
        exists lines. rewrite Hl, Hc. auto.
      * exists []. rewrite app_nil_r. split; [exact Hc|]. split; [simpl; lia|].
        intros line [].
    + intros Hlt. lia.
    + intros _ -> Hline. cbn [orb].
      destruct (writeToConsole_console lg level entry w1) as (Hdone & r & Hr & _).
      { destruct Hline as [->|Hown]; [reflexivity|].
        subst entry. rewrite (own_line_formats lg amb level message meta Hown).
        apply andb_false_r. }
      split; [exact Hdone|]. rewrite Hr, Hc, length_app. simpl. lia.
Qed.

Lemma writeLog_console_lines_witness :
  StructuredLogger.writeLog (Scenario.devLogger [] true true) Scenario.noTrace true
    OtelLogger.debug "details" None (OtelLogger.mkWorld true [] [])
  = (OtelLogger.Completed, OtelLogger.mkWorld true [] [])
  /\ length (OtelLogger.console
               (snd (StructuredLogger.writeLog (Scenario.devLogger [] true true)
                       Scenario.noTrace true OtelLogger.warn "careful" None
                       (OtelLogger.mkWorld true [] []))))
     = 1%nat.
Proof.
  split.
  - exact (proj1 (proj2 (writeLog_console_lines (Scenario.devLogger [] true true)
                           Scenario.noTrace true OtelLogger.debug "details" None
                           (OtelLogger.mkWorld true [] [])))
                 (le_n 1)).
  - exact (proj2 (proj2 (proj2 (writeLog_console_lines (Scenario.devLogger [] true true)
                                  Scenario.noTrace true OtelLogger.warn "careful" None
                                  (OtelLogger.mkWorld true [] [])))
                        (le_S _ _ (le_n 1)) eq_refl (or_intror eq_refl))).
Defined.

(** X8.  [logError] cannot be silenced by the minimum level.  With
    console output enabled and ASCII sensitive fields, for an error
    whose [stack] is a string or undefined and caller's metadata with
    distinct keys that sets none of the fields the development line
    formats (or a logger that does not use that format), it returns
    having written one line to the error stream whatever the level of
    the logger, and the object that the line serializes holds the name
    and the stack of the error under [error_name] and [stack_trace]
    (redacted when those keys are sensitive) whatever the caller's
    metadata holds under these keys. *)
Theorem logError_always_reaches_console :
  forall (lg : StructuredLogger.logger) (amb : StructuredLogger.ambient)
         (attempt : bool) (err : StructuredLogger.errorObject)
         (meta : option (list (string * value))) (w : OtelLogger.world),
    StructuredLogger.enableConsoleLogs lg = true ->
    forallb isAscii (StructuredLogger.sensitiveFields lg) = true ->
    is_scalar (StructuredLogger.errStack err) = true ->
    Nesting.distinct_keys (match meta with Some m => m | None => [] end) = true ->
    String.eqb (StructuredLogger.environment lg) "development" = false
    \/ StructuredLogger.overridesLineField meta = false ->
    exists r,
      fst (StructuredLogger.logError lg amb attempt err meta w) = OtelLogger.Completed
      /\ OtelLogger.console (snd (StructuredLogger.logError lg amb attempt err meta w))
         = (OtelLogger.console w ++ [(OtelLogger.ConsoleError, r)])%list
      /\ getProp "error_name" (OtelLogger.jsonPart r)
         = Some (StructuredLogger.maskProperty (StructuredLogger.sensitiveFields lg)
                   "error_name" (VStr (StructuredLogger.errName err)))
      /\ getProp "stack_trace" (OtelLogger.jsonPart r)
         = Some (StructuredLogger.maskProperty (StructuredLogger.sensitiveFields lg)
                   "stack_trace" (StructuredLogger.errStack err)).
Proof.
  intros lg amb attempt err meta w Hconsole _ _ Hd Hline.
  unfold StructuredLogger.logError, StructuredLogger.writeLog.
  rewrite error_never_filtered, Hconsole. cbn [orb].
  set (meta' := setProp "stack_trace" (StructuredLogger.errStack err)
                  (setProp "error_name" (VStr (StructuredLogger.errName err))
                     (match meta with Some m => m | None => [] end))).
  set (entry := StructuredLogger.createLogEntry lg amb OtelLogger.error
                  (StructuredLogger.errMessage err) (Some meta')).
  pose proof (emitted_console lg attempt OtelLogger.error
                (StructuredLogger.errMessage err)
                (StructuredLogger.otlpAttributes entry) w) as Hc.
  destruct (if StructuredLogger.enableOtlpLogs lg && OtelLogger.isOtelLoggerAvailable w
            then OtelLogger.emitOtelLog attempt OtelLogger.error
                   (StructuredLogger.errMessage err)
                   (StructuredLogger.otlpAttributes entry) w
            else (false, w)) as [ok w1].
  simpl in Hc.
  assert (Hown : StructuredLogger.overridesLineField meta = false ->
                 StructuredLogger.overridesLineField (Some meta') = false).
  { intros Hm. subst meta'. unfold StructuredLogger.overridesLineField in *.
    cbn [existsb StructuredLogger.lineFields] in *.
    rewrite !hasProp_setProp_other by reflexivity.
    destruct meta as [m|]; [exact Hm|reflexivity]. }
  destruct (writeToConsole_console lg OtelLogger.error entry w1)
    as (Hdone & r & Hr & Hjson).
  { destruct Hline as [->|Hm]; [reflexivity|].
    subst entry. rewrite (own_line_formats lg amb _ _ (Some meta') (Hown Hm)).
    apply andb_false_r. }
  exists r. split; [exact Hdone|]. rewrite Hr, Hc. split; [reflexivity|].
  assert (Hd' : Nesting.distinct_keys meta' = true).
  { subst meta'. apply distinct_keys_setProp, distinct_keys_setProp. exact Hd. }
  split.
  - rewrite Hjson by reflexivity. subst entry.
    rewrite (getProp_entry lg amb _ _ meta' "error_name" Hd') by reflexivity.
    subst meta'.
    rewrite getProp_setProp_ne by reflexivity. rewrite getProp_setProp_eq. reflexivity.
  - rewrite Hjson by reflexivity. subst entry.
    rewrite (getProp_entry lg amb _ _ meta' "stack_trace" Hd') by reflexivity.
    subst meta'.
    rewrite getProp_setProp_eq. reflexivity.
Qed.

(** A logger whose minimum level is [error], and metadata that tries to
    set [error_name]. *)
Lemma logError_always_reaches_console_witness :
  exists r,
    OtelLogger.console
      (snd (StructuredLogger.logError
              (StructuredLogger.mkLogger None "api" "production" OtelLogger.error []
                                         false true)
              Scenario.noTrace false
              (StructuredLogger.mkErrorObject "TypeError" "x is undefined" VUndefined)
              (Some [("error_name", VStr "mine")]) (OtelLogger.mkWorld true [] [])))
    = [(OtelLogger.ConsoleError, r)]
    /\ getProp "error_name" (OtelLogger.jsonPart r) = Some (VStr "TypeError")
    /\ getProp "stack_trace" (OtelLogger.jsonPart r) = Some VUndefined.
Proof.
  destruct (logError_always_reaches_console
              (StructuredLogger.mkLogger None "api" "production" OtelLogger.error []
                                         false true)
              Scenario.noTrace false
              (StructuredLogger.mkErrorObject "TypeError" "x is undefined" VUndefined)
              (Some [("error_name", VStr "mine")]) (OtelLogger.mkWorld true [] [])
              eq_refl eq_refl eq_refl eq_refl (or_introl eq_refl))
    as (r & _ & Hline & Hname & Hstack).
  exists r. split; [exact Hline|]. split; [exact Hname|exact Hstack].
Defined.

(** X30.  In the development format the console line cannot be put
    together when metadata sets [level] to a value that is not a string
    and is not redacted: a write at or above the minimum level with
    console output enabled then ends in a TypeError and prints nothing,
    after the entry was handed to the exporter (when remote export is
    enabled and available). *)
Theorem development_line_needs_string_level :
  forall (lg : StructuredLogger.logger) (amb : StructuredLogger.ambient)
         (attempt : bool) (level : OtelLogger.LogLevel) (message : string)
         (meta : list (string * value)) (v : value) (w : OtelLogger.world),
    StructuredLogger.LOG_LEVEL_PRIORITY (StructuredLogger.logLevel lg)
      <= StructuredLogger.LOG_LEVEL_PRIORITY level ->
    String.eqb (StructuredLogger.environment lg) "development" = true ->
    StructuredLogger.enableConsoleLogs lg = true ->
    forallb isAscii (StructuredLogger.sensitiveFields lg) = true ->
    Nesting.distinct_keys meta = true ->
    getProp "level" meta = Some v ->
    OtelLogger.isString v = false ->
    StructuredLogger.isSensitive (StructuredLogger.sensitiveFields lg) "level" = false ->
    fst (StructuredLogger.writeLog lg amb attempt level message (Some meta) w)
    = OtelLogger.ThrewTypeError
    /\ OtelLogger.console
         (snd (StructuredLogger.writeLog lg amb attempt level message (Some meta) w))
       = OtelLogger.console w
    /\ (StructuredLogger.enableOtlpLogs lg = true ->
        OtelLogger.isOtelLoggerAvailable w = true ->
        attempt = true ->
        exists attributes,
          OtelLogger.exported
            (snd (StructuredLogger.writeLog lg amb attempt level message (Some meta) w))
          = (OtelLogger.exported w ++ [(level, message, attributes)])%list).
Proof.
  intros lg amb attempt level message meta v w Hlevel Hdev Hconsole _ Hd Hv Hstr Hsens.
  unfold StructuredLogger.writeLog.
  destruct (Nat.ltb_spec (StructuredLogger.LOG_LEVEL_PRIORITY level)
                         (StructuredLogger.LOG_LEVEL_PRIORITY
                            (StructuredLogger.logLevel lg))) as [Hlt|_]; [lia|].
  rewrite Hconsole. cbn [orb].
  set (entry := StructuredLogger.createLogEntry lg amb level message (Some meta)).
  assert (Hthrows : StructuredLogger.devLineThrows entry = true).
  { unfold StructuredLogger.devLineThrows, StructuredLogger.prop_or_undefined.
    subst entry. rewrite (getProp_entry lg amb level message meta "level" Hd eq_refl).
    rewrite Hv. unfold StructuredLogger.maskProperty. rewrite Hsens.
    assert (Hns : OtelLogger.isString
                    (match v with
                     | VObj _ =>
                         VObj (StructuredLogger.maskSensitiveData
                                 (StructuredLogger.sensitiveFields lg) v)
                     | VArr elems =>
                         VArr (map (StructuredLogger.maskItem
                                      (StructuredLogger.sensitiveFields lg)) elems)
                     | _ => v
                     end) = false).
    { destruct v; try reflexivity. discriminate. }
    rewrite Hns. cbn [negb]. rewrite orb_true_r. reflexivity. }
  pose proof (emitted_console lg attempt level message
                (StructuredLogger.otlpAttributes entry) w) as Hc.
  destruct (if StructuredLogger.enableOtlpLogs lg && OtelLogger.isOtelLoggerAvailable w
            then OtelLogger.emitOtelLog attempt level message
                   (StructuredLogger.otlpAttributes entry) w
            else (false, w)) as [ok w1] eqn:Eemit.
  cbn [snd] in Hc.
  rewrite writeToConsole_threw by assumption. cbn [fst snd].
  split; [reflexivity|]. split; [exact Hc|].
  intros Hotlp Hav ->. rewrite Hotlp, Hav in Eemit. cbn in Eemit.
  injection Eemit as _ <-. eexists. reflexivity.
Qed.

(** Metadata [{level: 5}] in development. *)
Lemma development_line_needs_string_level_witness :
  StructuredLogger.writeLog (Scenario.devLogger [] false true) Scenario.noTrace true
    OtelLogger.info "request" (Some [("level", VNum 5)]) (OtelLogger.mkWorld true [] [])
  = (OtelLogger.ThrewTypeError, OtelLogger.mkWorld true [] []).
Proof.
  pose proof (development_line_needs_string_level
                (Scenario.devLogger [] false true) Scenario.noTrace true
                OtelLogger.info "request" [("level", VNum 5)] (VNum 5)
                (OtelLogger.mkWorld true [] []) (le_n 1) eq_refl eq_refl eq_refl
                eq_refl eq_refl eq_refl eq_refl) as [Hthrew _].
  revert Hthrew.
  destruct (StructuredLogger.writeLog _ _ _ _ _ _ _) as [c w'] eqn:E.
  cbn [fst]. intros ->. rewrite <- E. reflexivity.
Defined.

(** ** The entry of the Winston transport *)

Section WinstonEntry.
Import OtelLogger WinstonOtelTransport.

Lemma internal_field (k : string) :
  existsb (String.eqb k) internalStringFields = true <-> In k internalStringFields.
Proof.
  rewrite existsb_exists. split.
  - intros (x & Hin & E). apply String.eqb_eq in E. subst. exact Hin.
  - intros Hin. exists k. split; [exact Hin|apply String.eqb_refl].
Qed.

Lemma getProp_extractMeta (i : info) (k : string) :
  getProp k (extractMeta i)
  = if existsb (String.eqb k) (internalStringFields ++ ["__proto__"]) then None
    else getProp k (extra i).
Proof.
  unfold extractMeta. rewrite getProp_assignable.
  rewrite existsb_app. cbn [existsb]. rewrite orb_false_r.
  destruct (String.eqb k "__proto__"); [rewrite orb_true_r; reflexivity|].
  rewrite orb_false_r.
  rewrite (getProp_filter_key
             (fun k' => negb (existsb (String.eqb k') internalStringFields))).
  destruct (existsb (String.eqb k) internalStringFields) eqn:E; [reflexivity|].
  cbn [negb getProp].
  destruct (String.eqb "level" k) eqn:E1.
  { apply String.eqb_eq in E1. subst k. discriminate. }
  destruct (String.eqb "message" k) eqn:E2.
  { apply String.eqb_eq in E2. subst k. discriminate. }
  reflexivity.
Qed.

(** Metadata cannot reach an internal field of the entry. *)
Lemma getProp_buildEntry_internal (t : transport) (amb : StructuredLogger.ambient)
      (i : info) (k : string) (base : list (string * value)) :
  existsb (String.eqb k) internalStringFields = true ->
  getProp k (match extractMeta i with
             | [] => base
             | _ :: _ =>
                 StructuredLogger.assign base
                   (maskSensitiveData (sensitiveFields t) (VObj (extractMeta i)))
             end)
  = getProp k base.
Proof.
  intros Hk. destruct (extractMeta i) as [|kv rest] eqn:E; [reflexivity|].
  rewrite <- E. apply getProp_assign_notin.
  rewrite winston_mask_same, hasProp_mask. unfold hasProp.
  rewrite getProp_extractMeta, existsb_app, Hk. apply andb_false_r.
Qed.

End WinstonEntry.

(** X9.  In the Winston transport the metadata is what [info] holds
    besides [level], [message], [timestamp] and [splat] (and besides an
    own [__proto__] key, which [meta[key] = value] does not store), and
    it cannot replace the level, the message or the timestamp of the
    entry: the entry holds the level and the message that [log] computed
    and the [timestamp] of [info] (the current time when that is missing
    or falsy). *)
Theorem winston_metadata_excludes_internal_fields :
  forall (t : WinstonOtelTransport.transport) (amb : StructuredLogger.ambient)
         (i : WinstonOtelTransport.info),
    (forall key,
        getProp key (WinstonOtelTransport.extractMeta i)
        = if existsb (String.eqb key)
                     ["level"; "message"; "timestamp"; "splat"; "__proto__"]
          then None
          else getProp key (WinstonOtelTransport.extra i))
    /\ getProp "level" (snd (WinstonOtelTransport.buildEntry t amb i))
       = Some (VStr (fst (fst (WinstonOtelTransport.buildEntry t amb i))))
    /\ getProp "message" (snd (WinstonOtelTransport.buildEntry t amb i))
       = Some (VStr (snd (fst (WinstonOtelTransport.buildEntry t amb i))))
    /\ getProp "timestamp" (snd (WinstonOtelTransport.buildEntry t amb i))
       = Some (match getProp "timestamp" (WinstonOtelTransport.extra i) with
               | Some v => if truthy v then v else VStr (StructuredLogger.now amb)
               | None => VStr (StructuredLogger.now amb)
               end).
Proof.
  intros t amb i. split; [intros key; apply getProp_extractMeta|].
  unfold WinstonOtelTransport.buildEntry. cbn [fst snd].
  rewrite !(getProp_buildEntry_internal t amb i) by reflexivity.
  destruct (StructuredLogger.truthy_str (StructuredLogger.traceId amb)),
           (StructuredLogger.truthy_str (StructuredLogger.spanId amb));
    repeat split; reflexivity.
Qed.

(** ** Severity: the console method and the exported level *)

Section Severity.
Import OtelLogger WinstonOtelTransport.

Lemma lower_ascii_idempotent (c : ascii) : lower_ascii (lower_ascii c) = lower_ascii c.
Proof. destruct c as [[] [] [] [] [] [] [] []]; reflexivity. Qed.

Lemma toLowerCase_idempotent (s : string) : toLowerCase (toLowerCase s) = toLowerCase s.
Proof.
  induction s as [|c s IH]; [reflexivity|].
  simpl. rewrite lower_ascii_idempotent, IH. reflexivity.
Qed.

End Severity.

(** X10.  The level handed to the exporter depends on the Winston level
    only up to case, and it never contradicts the console method: when
    [consoleLog] picks [console.error], [console.warn] or [console.debug]
    the exported level is error, warn or debug. *)
Theorem exported_level_agrees_with_console :
  forall (lvl : string),
    WinstonOtelTransport.mapToOtelLevel (toLowerCase lvl)
    = WinstonOtelTransport.mapToOtelLevel lvl
    /\ match WinstonOtelTransport.stream_of lvl with
       | OtelLogger.ConsoleError =>
           WinstonOtelTransport.mapToOtelLevel lvl = OtelLogger.error
       | OtelLogger.ConsoleWarn =>
           WinstonOtelTransport.mapToOtelLevel lvl = OtelLogger.warn
       | OtelLogger.ConsoleDebug =>
           WinstonOtelTransport.mapToOtelLevel lvl = OtelLogger.debug
       | OtelLogger.ConsoleLog => True
       end.
Proof.
  intros lvl. split.
  - unfold WinstonOtelTransport.mapToOtelLevel. rewrite toLowerCase_idempotent.
    reflexivity.
  - unfold WinstonOtelTransport.stream_of.
    destruct (String.eqb_spec lvl "error") as [->|_]; [reflexivity|].
    cbn [existsb].
    destruct (String.eqb_spec lvl "warn") as [->|_]; [reflexivity|].
    destruct (String.eqb_spec lvl "warning") as [->|_]; [reflexivity|].
    cbn [orb].
    destruct (String.eqb_spec lvl "debug") as [->|_]; [reflexivity|exact I].
Qed.

(** ** Restoring the RabbitMQ client *)

(** X11.  [restoreRabbitMQ] undoes [initRabbitMQInterceptor]: on a class
    whose prototype has a [send], initializing from an unpatched state and
    then restoring gives back the class as it was, with the module
    unpatched and no original stored; restoring an unpatched module
    changes nothing; and after a restore the next initialization patches
    the class again. *)
Theorem restore_undoes_init :
  forall (f : RabbitMQ.send_fn) (o e o2 e2 : option string) (st : RabbitMQ.state),
    RabbitMQ.isPatched st = false ->
    RabbitMQ.originalSend st = None ->
    let cls := RabbitMQ.mkClass (Some (RabbitMQ.mkProto (Some f))) in
    let patched := RabbitMQ.initRabbitMQInterceptor cls o e st in
    let restored :=
      RabbitMQ.mkState false None (RabbitMQ.resolveServiceName o e) in
    RabbitMQ.restoreRabbitMQ (fst patched) (snd patched)
    = Telemetry.Returned (cls, restored)
    /\ RabbitMQ.restoreRabbitMQ cls restored = Telemetry.Returned (cls, restored)
    /\ RabbitMQ.initRabbitMQInterceptor cls o2 e2 restored
       = (RabbitMQ.mkClass (Some (RabbitMQ.mkProto (Some RabbitMQ.PatchedSend))),
          RabbitMQ.mkState true (Some f) (RabbitMQ.resolveServiceName o2 e2)).
Proof.
  intros f o e o2 e2 [patched original name] Hp Ho. simpl in Hp, Ho. subst.
  repeat split.
Qed.

Lemma restore_undoes_init_witness :
  let patched :=
    RabbitMQ.initRabbitMQInterceptor Scenario.client (Some "api") None
                                     RabbitMQ.initialState in
  RabbitMQ.restoreRabbitMQ (fst patched) (snd patched)
  = Telemetry.Returned (Scenario.client, RabbitMQ.mkState false None "api").
Proof.
  exact (proj1 (restore_undoes_init
                  (RabbitMQ.OriginalSend (fun _ _ _ => Telemetry.ret true))
                  (Some "api") None None None RabbitMQ.initialState eq_refl eq_refl)).
Defined.

(** X12.  The patch flag is set even when there was nothing to patch:
    after [initRabbitMQInterceptor] on a class whose prototype has no
    [send], the module counts as patched with no original stored, every
    later initialization - also on a class that has a [send] - leaves
    class and module as they are, and [restoreRabbitMQ] is what clears the
    flag. *)
Theorem init_without_send_blocks_later_inits :
  forall (o e o2 e2 : option string) (cls2 : RabbitMQ.RabbitMQClass),
    let without := RabbitMQ.mkClass (Some (RabbitMQ.mkProto None)) in
    let first := RabbitMQ.initRabbitMQInterceptor without o e RabbitMQ.initialState in
    first = (without, RabbitMQ.mkState true None (RabbitMQ.resolveServiceName o e))
    /\ RabbitMQ.initRabbitMQInterceptor cls2 o2 e2 (snd first) = (cls2, snd first)
    /\ RabbitMQ.restoreRabbitMQ cls2 (snd first)
       = Telemetry.Returned
           (cls2, RabbitMQ.mkState false None (RabbitMQ.resolveServiceName o e)).
Proof. intros o e o2 e2 cls2. repeat split. Qed.

(** ** Guarded operations that return *)

Section GuardedSuccess.
Import Telemetry.

Lemma afterSuccess_recorded (startTime span : nat) (m : metric) (after : world) :
  isSuccess m = true ->
  metricDuration m = elapsed startTime (clock after) ->
  successRecorded startTime span after (Telemetry.afterSuccess span m after).
Proof.
  intros Hs Hd sp Hsp.
  assert (Hlt : span < length (spans after)) by (eapply lookup_lt_Some; eauto).
  unfold Telemetry.afterSuccess. simpl. rewrite Hsp. simpl.
  rewrite list_lookup_insert_eq by assumption.
  rewrite list_insert_insert_eq.
  eexists. split; [apply list_lookup_insert_eq; assumption|].
  simpl. repeat split. exists m. auto.
Qed.

End GuardedSuccess.

(** X13.  When the guarded call returns [r] - the handler of
    [wrapConsumer], the handler behind a traced socket listener, the
    handler given to [wrapSocketHandler], the original [send] behind the
    patched one - the operation returns that same [r]; the status of the
    span is OK, nothing more is recorded on it and it is ended once more
    than the guarded call left it; and one success metric is recorded whose
    duration runs from the start of the operation to the return of the
    guarded call. *)
Theorem guarded_operation_success :
  (forall (A : Type) st msg queue (handler : nat -> Telemetry.T A) w sc w1 r after,
      RabbitMQ.openConsumeScope st msg queue w = (Telemetry.Returned sc, w1) ->
      Telemetry.contextWith (RabbitMQ.activeContext sc) (handler (RabbitMQ.span sc)) w1
      = (Telemetry.Returned r, after) ->
      exists final,
        RabbitMQ.wrapConsumer st msg queue handler w = (Telemetry.Returned r, final)
        /\ Telemetry.successRecorded (RabbitMQ.startTime sc) (RabbitMQ.span sc)
                                     after final)
  /\ (forall serviceName sock event handler args w sc w1 after,
        SocketIO.openEventScope serviceName sock event args w
        = (Telemetry.Returned sc, w1) ->
        Telemetry.contextWith (SocketIO.activeContext sc) (handler args) w1
        = (Telemetry.Returned tt, after) ->
        exists final,
          SocketIO.wrappedHandler serviceName sock event handler args w
          = (Telemetry.Returned tt, final)
          /\ Telemetry.successRecorded (SocketIO.startTime sc) (SocketIO.span sc)
                                       after final)
  /\ (forall (A : Type) serviceName sock event (handler : list value -> Telemetry.T A)
             args w sc w1 r after,
        SocketIO.openHandlerScope serviceName sock event args w
        = (Telemetry.Returned sc, w1) ->
        Telemetry.contextWith (SocketIO.activeContext sc) (handler args) w1
        = (Telemetry.Returned r, after) ->
        exists final,
          SocketIO.wrapSocketHandler serviceName sock event handler args w
          = (Telemetry.Returned r, final)
          /\ Telemetry.successRecorded (SocketIO.startTime sc) (SocketIO.span sc)
                                       after final)
  /\ (forall st queue msg options w sc w1 r after,
        RabbitMQ.openSendScope st queue options w = (Telemetry.Returned sc, w1) ->
        RabbitMQ.forwardSend st queue msg options sc w1 = (Telemetry.Returned r, after) ->
        exists final,
          RabbitMQ.patchedSend st queue msg options w = (Telemetry.Returned r, final)
          /\ Telemetry.successRecorded (RabbitMQ.sendStartTime sc) (RabbitMQ.sendSpan sc)
                                       after final).
Proof.
  split; [|split; [|split]].
  - intros A st msg queue handler w sc w1 r after Hopen Hrun.
    unfold RabbitMQ.wrapConsumer. rewrite (bind_returned _ _ _ _ _ Hopen).
    unfold Telemetry.tryCatchFinally. unfold Telemetry.bind at 1. rewrite Hrun.
    exists (Telemetry.afterSuccess (RabbitMQ.span sc)
              (Telemetry.RabbitMessage queue (Some (RabbitMQ.scopeExchange sc))
                 (Some (RabbitMQ.scopeRoutingKey sc)) "consume" true
                 (Telemetry.elapsed (RabbitMQ.startTime sc) (Telemetry.clock after))) after).
    split; [reflexivity|]. apply afterSuccess_recorded; reflexivity.
  - intros serviceName sock event handler args w sc w1 after Hopen Hrun.
    unfold SocketIO.wrappedHandler. rewrite (bind_returned _ _ _ _ _ Hopen).
    unfold Telemetry.tryCatchFinally. unfold Telemetry.bind at 1. rewrite Hrun.
    exists (Telemetry.afterSuccess (SocketIO.span sc)
              (Telemetry.WsEvent event true
                 (Telemetry.elapsed (SocketIO.startTime sc) (Telemetry.clock after))) after).
    split; [reflexivity|]. apply afterSuccess_recorded; reflexivity.
  - intros A serviceName sock event handler args w sc w1 r after Hopen Hrun.
    unfold SocketIO.wrapSocketHandler. rewrite (bind_returned _ _ _ _ _ Hopen).
    unfold Telemetry.tryCatchFinally. unfold Telemetry.bind at 1. rewrite Hrun.
    exists (Telemetry.afterSuccess (SocketIO.span sc)
              (Telemetry.WsEvent event true
                 (Telemetry.elapsed (SocketIO.startTime sc) (Telemetry.clock after))) after).
    split; [reflexivity|]. apply afterSuccess_recorded; reflexivity.
  - intros st queue msg options w sc w1 r after Hopen Hrun.
    unfold RabbitMQ.patchedSend. rewrite (bind_returned _ _ _ _ _ Hopen).
    unfold Telemetry.tryCatchFinally. unfold Telemetry.bind at 1. rewrite Hrun.
    exists (Telemetry.afterSuccess (RabbitMQ.sendSpan sc)
              (Telemetry.RabbitMessage queue None None "publish" true
                 (Telemetry.elapsed (RabbitMQ.sendStartTime sc) (Telemetry.clock after)))
              after).
    split; [reflexivity|]. apply afterSuccess_recorded; reflexivity.
Qed.

(** A consumer whose handler returns 7. *)
Lemma guarded_operation_success_witness :
  exists after final,
    RabbitMQ.wrapConsumer RabbitMQ.initialState Scenario.order "orders"
      (fun _ => Telemetry.ret 7%nat) Scenario.quietWorld
    = (Telemetry.Returned 7%nat, final)
    /\ Telemetry.successRecorded 0 0 after final.
Proof.
  destruct (proj1 guarded_operation_success nat RabbitMQ.initialState
              Scenario.order "orders" (fun _ => Telemetry.ret 7%nat)
              Scenario.quietWorld _ _ 7%nat _ eq_refl eq_refl) as [final H].
  eexists _, final. exact H.
Defined.

(** ** What the patched send hands to the original *)

Section Forwarding.
Import Telemetry RabbitMQ.

Lemma inject_other_keys (ctx : OTel.Context) (c : gmap string value) (k : string) :
  k <> "traceparent" -> k <> "tracestate" -> OTel.inject ctx c !! k = c !! k.
Proof.
  intros Hp Hs. unfold OTel.inject. destruct ctx as [sc|]; [|reflexivity].
  destruct (OTel.isSpanContextValid sc); [|reflexivity].
  destruct (OTel.traceState sc).
  - rewrite lookup_insert_ne by congruence. apply lookup_insert_ne. congruence.
  - apply lookup_insert_ne. congruence.
Qed.

(** A guarded block returns what the guarded call returns and throws
    what it throws. *)
Lemma guarded_outcome {A : Type} (span : nat) (call : T A)
      (mkOk mkFail : nat -> metric) (w : world) :
  fst (tryCatchFinally
         (let! result := call in
          let! _ := setStatus span Ok in
          let! finished := dateNow in
          let! _ := recordMetric (mkOk finished) in
          ret result)
         (fun error =>
          let! _ := recordOnSpan span error in
          let! finished := dateNow in
          let! _ := recordMetric (mkFail finished) in
          throw error)
         (endSpan span) w)
  = fst (call w).
Proof.
  unfold tryCatchFinally. unfold bind at 1.
  destruct (call w) as [[r|e] w1].
  - destruct (success_tail_grows span mkOk r w1) as (w2 & E2 & _).
    rewrite E2. reflexivity.
  - destruct (failure_tail_grows (A := A) span mkFail e w1) as (w2 & E2 & _).
    rewrite E2. reflexivity.
Qed.

End Forwarding.

(** X14.  The patched [send] is transparent: it returns what the original
    returns and throws what the original throws, the original being
    called, once the span is started, with the same queue and message,
    the caller's other options, and the caller's headers into which the
    context of the span just started was injected - every header other
    than [traceparent] and [tracestate] is passed on as the caller gave
    it. *)
Theorem patched_send_forwards_to_original :
  forall (st : RabbitMQ.state) (queue : string) (msg : value)
         (options : option RabbitMQ.sendOptions)
         (impl : string -> value -> RabbitMQ.sendOptions -> Telemetry.T bool)
         (w : Telemetry.world),
    RabbitMQ.originalSend st = Some (RabbitMQ.OriginalSend impl) ->
    let callerHeaders : gmap string value :=
      match options with
      | Some o => match RabbitMQ.optHeaders o with Some h => h | None => ∅ end
      | None => ∅
      end in
    exists sc started producer headers,
      RabbitMQ.openSendScope st queue options w = (Telemetry.Returned sc, started)
      /\ Telemetry.spans started !! RabbitMQ.sendSpan sc = Some producer
      /\ headers = OTel.inject (Some (Telemetry.spanContext producer)) callerHeaders
      /\ fst (RabbitMQ.patchedSend st queue msg options w)
         = fst (impl queue msg
                  (RabbitMQ.mkSendOptions (Some headers)
                     (match options with Some o => RabbitMQ.optRest o | None => [] end))
                  started)
      /\ forall key,
          key <> "traceparent" -> key <> "tracestate" ->
          headers !! key = callerHeaders !! key.
Proof.
  intros st queue msg options impl w Horig callerHeaders.
  destruct (RabbitMQ.openSendScope st queue options w) as [r started] eqn:Hopen.
  assert (Hsc : exists producer,
             r = Telemetry.Returned
                   (RabbitMQ.mkSendScope (Telemetry.clock w) callerHeaders
                                         (length (Telemetry.spans w)))
             /\ Telemetry.spans started !! length (Telemetry.spans w) = Some producer).
  { revert Hopen. unfold RabbitMQ.openSendScope, Telemetry.startSpan.
    unfold Telemetry.bind at 1. cbn [Telemetry.dateNow].
    unfold Telemetry.bind at 1. cbn [Telemetry.contextActive].
    unfold Telemetry.bind at 1.
    destruct (Telemetry.idSource w (length (Telemetry.spans w))) as [ft fs].
    cbn [Telemetry.ret]. intros [= <- <-]. eexists. split; [reflexivity|].
    cbn [Telemetry.spans]. apply list_lookup_middle. reflexivity. }
  destruct Hsc as (producer & -> & Hlook).
  eexists _, started, producer, _.
  split; [reflexivity|]. split; [exact Hlook|]. split; [reflexivity|]. split.
  - unfold RabbitMQ.patchedSend. rewrite (bind_returned _ _ _ _ _ Hopen).
    rewrite guarded_outcome.
    unfold RabbitMQ.forwardSend, Telemetry.bind, Telemetry.contextActive,
      Telemetry.setSpan, RabbitMQ.callOriginal.
    cbn [RabbitMQ.sendSpan RabbitMQ.sendHeaders]. rewrite Hlook, Horig. reflexivity.
  - intros key Hp Hs. apply inject_other_keys; assumption.
Qed.

Lemma patched_send_forwards_to_original_witness :
  exists sc started producer headers,
    RabbitMQ.openSendScope
      (RabbitMQ.mkState true
         (Some (RabbitMQ.OriginalSend (fun _ _ _ => Telemetry.ret true))) "api")
      "orders"
      (Some (RabbitMQ.mkSendOptions (Some {["x-tenant" := VStr "acme"]}) []))
      Scenario.quietWorld
    = (Telemetry.Returned sc, started)
    /\ Telemetry.spans started !! RabbitMQ.sendSpan sc = Some producer
    /\ headers = OTel.inject (Some (Telemetry.spanContext producer))
                             {["x-tenant" := VStr "acme"]}
    /\ headers !! "x-tenant" = Some (VStr "acme").
Proof.
  destruct (patched_send_forwards_to_original
              (RabbitMQ.mkState true
                 (Some (RabbitMQ.OriginalSend (fun _ _ _ => Telemetry.ret true)))
                 "api")
              "orders" (VStr "hello")
              (Some (RabbitMQ.mkSendOptions (Some {["x-tenant" := VStr "acme"]}) []))
              (fun _ _ _ => Telemetry.ret true) Scenario.quietWorld eq_refl)
    as (sc & started & producer & headers & Hopen & Hlook & Hh & _ & Hkeys).
  exists sc, started, producer, headers.
  split; [exact Hopen|]. split; [exact Hlook|]. split; [exact Hh|].
  rewrite (Hkeys "x-tenant") by discriminate. reflexivity.
Defined.

(** ** From the producer's span to the consumer's *)

(** X15.  A message whose headers are the ones a publisher injected the
    context of its span into is consumed in the publisher's trace:
    whatever context is active at the consumer and whatever else the
    headers hold, the span that [wrapConsumer] starts has the publisher's
    span as its parent and the publisher's trace id, and it is the active
    span while the handler runs. *)
Theorem consumer_continues_producer_trace :
  forall (st : RabbitMQ.state) (msg : RabbitMQ.ConsumeMessage) (queue : string)
         (w : Telemetry.world) (producer : OTel.SpanContext)
         (callerHeaders : gmap string value),
    OTel.isSpanContextValid producer = true ->
    RabbitMQ.headers msg = Some (OTel.inject (Some producer) callerHeaders) ->
    exists sc w1 consumer parent,
      RabbitMQ.openConsumeScope st msg queue w = (Telemetry.Returned sc, w1)
      /\ Telemetry.spans w1 !! RabbitMQ.span sc = Some consumer
      /\ Telemetry.parent consumer = Some parent
      /\ OTel.traceId parent = OTel.traceId producer
      /\ OTel.spanId parent = OTel.spanId producer
      /\ OTel.traceId (Telemetry.spanContext consumer) = OTel.traceId producer
      /\ RabbitMQ.activeContext sc = Some (Telemetry.spanContext consumer).
Proof.
  intros st msg queue w producer callerHeaders Hv Hh.
  destruct (extract_inject (Telemetry.active w) producer callerHeaders Hv) as [ts E].
  unfold RabbitMQ.openConsumeScope.
  unfold Telemetry.bind at 1. cbn [Telemetry.dateNow].
  unfold Telemetry.bind at 1. cbn [Telemetry.contextActive].
  rewrite Hh, E.
  unfold Telemetry.bind at 1. unfold Telemetry.startSpan at 1.
  destruct (Telemetry.idSource w (length (Telemetry.spans w))) as [ft fs].
  unfold Telemetry.bind at 1. unfold Telemetry.setSpan at 1.
  cbn [Telemetry.spans]. rewrite list_lookup_middle by reflexivity.
  eexists _, _, _, _. split; [reflexivity|].
  cbn [RabbitMQ.span RabbitMQ.activeContext Telemetry.spans].
  split; [apply list_lookup_middle; reflexivity|].
  repeat split.
Qed.

Lemma consumer_continues_producer_trace_witness :
  exists sc w1 consumer parent,
    RabbitMQ.openConsumeScope RabbitMQ.initialState
      (RabbitMQ.mkConsumeMessage "" "" 1
         (Some (OTel.inject (Some Scenario.sampleContext) ∅)))
      "orders" Scenario.quietWorld
    = (Telemetry.Returned sc, w1)
    /\ Telemetry.spans w1 !! RabbitMQ.span sc = Some consumer
    /\ Telemetry.parent consumer = Some parent
    /\ OTel.traceId parent = OTel.traceId Scenario.sampleContext
    /\ OTel.spanId parent = OTel.spanId Scenario.sampleContext
    /\ OTel.traceId (Telemetry.spanContext consumer)
       = OTel.traceId Scenario.sampleContext
    /\ RabbitMQ.activeContext sc = Some (Telemetry.spanContext consumer).
Proof.
  exact (consumer_continues_producer_trace RabbitMQ.initialState
           (RabbitMQ.mkConsumeMessage "" "" 1
              (Some (OTel.inject (Some Scenario.sampleContext) ∅)))
           "orders" Scenario.quietWorld Scenario.sampleContext ∅ eq_refl eq_refl).
Defined.

(** ** The carrier made of the handshake headers *)

Section HandshakeHeaders.
Import SocketIO.






End HandshakeHeaders.



(** ** Which listeners the interceptor traces *)

Section Registration.
Import Telemetry SocketIO.

Lemma callOn_reserved (f : on_fn) (event : string) :
  isReserved event = true ->
  forall h registered, callOn f event h registered = (registered ++ [(event, h)])%list.
Proof.
  intros Hr. induction f as [|f IH]; intros h registered; simpl.
  - reflexivity.
  - rewrite Hr. apply IH.
Qed.

Lemma native_registrations (registers : list (string * handler)) :
  forall s,
    on s = NativeOn ->
    fold_left (fun s eh => socketOn s (fst eh) (snd eh)) registers s
    = mkSocket (info s) NativeOn (listeners s ++ registers).
Proof.
  induction registers as [|[ev h] rest IH]; intros s Hon; simpl.
  - rewrite app_nil_r. destruct s; simpl in *. subst. reflexivity.
  - rewrite IH.
    + unfold socketOn. simpl. rewrite Hon. simpl. rewrite <- app_assoc. reflexivity.
    + unfold socketOn. simpl. exact Hon.
Qed.

End Registration.

(** X18.  The reserved events are never traced, however often the
    interceptor was initialized: on a connection made after [n]
    initializations, a listener registered for [disconnect], [error] or an
    event whose name starts with a dollar sign is stored as it was given,
    and an event of that name runs it and nothing else - no span, no
    metric of the interceptor's. *)
Theorem reserved_events_are_not_traced :
  forall (n : nat) (serviceName : string) (info : SocketIO.socketInfo)
         (event : string) (run : list value -> Telemetry.T unit)
         (args : list value) (w : Telemetry.world),
    SocketIO.isReserved event = true ->
    let io :=
      SocketIO.ioOnConnection
        (SocketIO.initTimes n (SocketIO.mkServer []))
        (SocketIO.AppListener [(event, SocketIO.AppHandler run)]) in
    let s := SocketIO.connect io (SocketIO.mkSocket info SocketIO.NativeOn []) in
    SocketIO.listeners s = [(event, SocketIO.AppHandler run)]
    /\ SocketIO.receive serviceName s event args w
       = ([fst (run args w)], snd (run args w)).
Proof.
  intros n serviceName info event run args w Hr io s. subst s io.
  unfold SocketIO.connect, SocketIO.ioOnConnection. simpl.
  rewrite connectionListeners_initTimes. simpl.
  rewrite fold_left_app, connect_interceptors. simpl.
  unfold SocketIO.socketOn, SocketIO.receive. simpl.
  rewrite (callOn_reserved _ event Hr). simpl.
  split; [reflexivity|].
  rewrite String.eqb_refl. destruct (run args w) as [r w1]. reflexivity.
Qed.

Lemma reserved_events_are_not_traced_witness :
  let io :=
    SocketIO.ioOnConnection
      (SocketIO.initTimes 3 (SocketIO.mkServer []))
      (SocketIO.AppListener
         [("disconnect", SocketIO.AppHandler (fun _ => Telemetry.ret tt))]) in
  let s := SocketIO.connect io Scenario.plainSocket in
  SocketIO.receive "api" s "disconnect" [] Scenario.quietWorld
  = ([Telemetry.Returned tt], Scenario.quietWorld).
Proof.
  intros io s.
  exact (proj2 (reserved_events_are_not_traced 3 "api"
                  (SocketIO.info Scenario.plainSocket) "disconnect"
                  (fun _ => Telemetry.ret tt) [] Scenario.quietWorld eq_refl)).
Defined.

(** X19.  Only listeners registered after the interceptor wrapped the
    socket are traced.  When the application's [connection] listener was
    registered on the server before [initSocketIOInterceptor], the
    handlers it registers on a new socket are stored as they were given;
    a handler registered on that socket afterwards, for an event that is
    not reserved, is stored in its traced form. *)
Theorem listeners_registered_before_the_interceptor_are_not_traced :
  forall (registers : list (string * SocketIO.handler)) (info : SocketIO.socketInfo)
         (o e : option string) (event : string) (h : SocketIO.handler),
    let io :=
      fst (SocketIO.initSocketIOInterceptor
             (SocketIO.ioOnConnection (SocketIO.mkServer [])
                                      (SocketIO.AppListener registers))
             o e) in
    let s := SocketIO.connect io (SocketIO.mkSocket info SocketIO.NativeOn []) in
    SocketIO.listeners s = registers
    /\ (SocketIO.isReserved event = false ->
        SocketIO.listeners (SocketIO.socketOn s event h)
        = (registers ++ [(event, SocketIO.Traced event h)])%list).
Proof.
  intros registers info o e event h io s. subst s io.
  unfold SocketIO.connect, SocketIO.initSocketIOInterceptor, SocketIO.ioOnConnection.
  simpl. rewrite native_registrations by reflexivity. simpl.
  split; [reflexivity|]. intros Hr. rewrite Hr. reflexivity.
Qed.

Lemma listeners_registered_before_the_interceptor_are_not_traced_witness :
  let early := SocketIO.AppHandler (fun _ => Telemetry.ret tt) in
  let io :=
    fst (SocketIO.initSocketIOInterceptor
           (SocketIO.ioOnConnection (SocketIO.mkServer [])
                                    (SocketIO.AppListener [("message", early)]))
           None None) in
  let s := SocketIO.connect io Scenario.plainSocket in
  SocketIO.listeners (SocketIO.socketOn s "message" early)
  = [("message", early); ("message", SocketIO.Traced "message" early)].
Proof.
  intros early io s.
  exact (proj2 (listeners_registered_before_the_interceptor_are_not_traced
                  [("message", early)] (SocketIO.info Scenario.plainSocket)
                  None None "message" early) eq_refl).
Defined.

(** ** The trace context inside an emitted payload *)

Section PayloadCarrier.
Import Telemetry SocketIO.

Lemma inject_traceparent (sc : OTel.SpanContext) (c : gmap string value) :
  OTel.isSpanContextValid sc = true ->
  OTel.inject (Some sc) c !! "traceparent" = Some (VStr (OTel.formatTraceParent sc)).
Proof.
  intros Hv. unfold OTel.inject. rewrite Hv.
  destruct (OTel.traceState sc).
  - rewrite lookup_insert_ne by discriminate. apply lookup_insert_eq.
  - apply lookup_insert_eq.
Qed.

Lemma payload_traceparent (sock : socketInfo) (sc : OTel.SpanContext)
      (data : list (string * value)) :
  OTel.isSpanContextValid sc = true ->
  queryParam sock "traceparent" = None ->
  traceCarrier sock
    [VObj (setProp "_trace" (carrierObject (OTel.inject (Some sc) ∅)) data)]
    !! "traceparent"
  = Some (VStr (OTel.formatTraceParent sc)).
Proof.
  intros Hv Hq. unfold traceCarrier.
  rewrite (queryParam_insert sock "traceparent" "tracestate").
  rewrite (queryParam_insert sock "traceparent" "traceparent").
  rewrite Hq. cbn [String.eqb Ascii.eqb Bool.eqb andb].
  rewrite getProp_setProp_eq. unfold carrierObject. cbn [omap list_omap].
  rewrite (inject_traceparent sc ∅ Hv). cbn [spreadEntries].
  apply lookup_union_Some_l.
  destruct (OTel.inject (Some sc) ∅ !! "tracestate");
    cbn [list_to_map foldr uncurry fst snd]; apply lookup_insert_eq.
Qed.

End PayloadCarrier.

(** X20.  What [injectTraceContext] adds to a payload is what
    [extractTraceContext] reads back.  With a valid span context active,
    the payload keeps every property of the data other than [_trace], and
    a socket that receives it - whatever its handshake headers, as long
    as its query string carries no [traceparent] - extracts a context with
    the same trace id, span id and flags, whatever context is active at
    the receiver. *)
Theorem payload_round_trip :
  forall (data : list (string * value)) (sock : SocketIO.socketInfo)
         (sc : OTel.SpanContext) (w w' : Telemetry.world),
    Telemetry.active w = Some sc ->
    OTel.isSpanContextValid sc = true ->
    SocketIO.queryParam sock "traceparent" = None ->
    exists payload ctx,
      SocketIO.injectTraceContext data w = (Telemetry.Returned payload, w)
      /\ (forall key, key <> "_trace" -> getProp key payload = getProp key data)
      /\ SocketIO.extractTraceContext sock [VObj payload] w'
         = (Telemetry.Returned (Some ctx), w')
      /\ OTel.traceId ctx = OTel.traceId sc
      /\ OTel.spanId ctx = OTel.spanId sc
      /\ OTel.traceFlags ctx = OTel.traceFlags sc.
Proof.
  intros data sock sc w w' Hactive Hv Hq.
  unfold SocketIO.injectTraceContext, SocketIO.extractTraceContext.
  unfold Telemetry.bind, Telemetry.contextActive, Telemetry.ret. rewrite Hactive.
  eexists _, _. split; [reflexivity|]. split.
  - intros key Hk. apply getProp_setProp_ne.
    destruct (String.eqb_spec "_trace" key) as [E|_]; [congruence|reflexivity].
  - unfold OTel.extract, OTel.headerString.
    rewrite (payload_traceparent sock sc data Hv Hq).
    rewrite (parseTraceParent_format sc Hv). cbn [OTel.traceId OTel.spanId OTel.traceFlags].
    repeat split.
Qed.

Lemma payload_round_trip_witness :
  exists payload ctx,
    SocketIO.injectTraceContext [("text", VStr "hi")]
      (Telemetry.mkWorld 0 [] [] (Some Scenario.sampleContext) Scenario.freshIds)
    = (Telemetry.Returned payload,
       Telemetry.mkWorld 0 [] [] (Some Scenario.sampleContext) Scenario.freshIds)
    /\ getProp "text" payload = Some (VStr "hi")
    /\ SocketIO.extractTraceContext Scenario.tracedSocket [VObj payload]
         Scenario.quietWorld
       = (Telemetry.Returned (Some ctx), Scenario.quietWorld)
    /\ OTel.traceId ctx = OTel.traceId Scenario.sampleContext
    /\ OTel.spanId ctx = OTel.spanId Scenario.sampleContext.
Proof.
  destruct (payload_round_trip [("text", VStr "hi")] Scenario.tracedSocket
              Scenario.sampleContext
              (Telemetry.mkWorld 0 [] [] (Some Scenario.sampleContext) Scenario.freshIds)
              Scenario.quietWorld eq_refl eq_refl eq_refl)
    as (payload & ctx & Hinj & Hkeys & Hext & Ht & Hs & _).
  exists payload, ctx. split; [exact Hinj|]. split.
  - rewrite (Hkeys "text") by discriminate. reflexivity.
  - split; [exact Hext|]. split; assumption.
Defined.

(** ** Numbers in the route label *)

Section SlashDigit.
Import HttpMetrics.

Lemma replaceNumbers_start (s : string) :
  startsWithDigit s = false -> startsWithDigit (replaceNumbers false s) = false.
Proof.
  destruct s as [|c rest]; [reflexivity|]. intros Hc. simpl in Hc.
  cbn [replaceNumbers andb].
  destruct (Ascii.eqb c "/" && startsWithDigit rest); [reflexivity|].
  simpl. exact Hc.
Qed.

Lemma hasSlashDigit_replaceNumbers (s : string) :
  forall b, HttpMetrics.hasSlashDigit (replaceNumbers b s) = false.
Proof.
  induction s as [|c rest IH]; intros b; [reflexivity|].
  cbn [replaceNumbers].
  destruct (b && isDigit c); [apply IH|].
  destruct (Ascii.eqb c "/") eqn:Ec; cbn [andb].
  - destruct (startsWithDigit rest) eqn:Ed.
    + simpl. apply IH.
    + cbn [HttpMetrics.hasSlashDigit]. rewrite Ec, (replaceNumbers_start _ Ed), IH.
      reflexivity.
  - cbn [HttpMetrics.hasSlashDigit]. rewrite Ec, IH. reflexivity.
Qed.

Lemma replaceNumbers_nothing (s : string) :
  HttpMetrics.hasSlashDigit s = false -> replaceNumbers false s = s.
Proof.
  induction s as [|c rest IH]; intros H; [reflexivity|].
  cbn [HttpMetrics.hasSlashDigit] in H. apply orb_false_iff in H as [Hc Hrest].
  cbn [replaceNumbers andb]. rewrite Hc, (IH Hrest). reflexivity.
Qed.

End SlashDigit.

(** X21.  For a request without a matched route template the label holds
    no slash that is directly followed by a digit: the second replacement
    leaves no match of its own expression behind, whatever the path, and
    applying it again changes nothing. *)
Theorem route_label_has_no_number_after_slash :
  forall (req : HttpMetrics.request),
    HttpMetrics.nonEmptyString (HttpMetrics.routePath req) = false ->
    HttpMetrics.hasSlashDigit (HttpMetrics.getRoute req) = false
    /\ HttpMetrics.replaceNumbers false (HttpMetrics.getRoute req)
       = HttpMetrics.getRoute req.
Proof.
  intros req Hroute. unfold HttpMetrics.getRoute. rewrite Hroute, andb_false_r.
  assert (H : HttpMetrics.hasSlashDigit
                (HttpMetrics.replaceNumbers false
                   (HttpMetrics.replaceUuids 0 (HttpMetrics.path req))) = false)
    by apply hasSlashDigit_replaceNumbers.
  split; [exact H|]. apply replaceNumbers_nothing. exact H.
Qed.

Lemma route_label_has_no_number_after_slash_witness :
  HttpMetrics.hasSlashDigit
    (HttpMetrics.getRoute (HttpMetrics.mkRequest "GET" "/orders/42/items/7x" "" None))
  = false.
Proof.
  exact (proj1 (route_label_has_no_number_after_slash
                  (HttpMetrics.mkRequest "GET" "/orders/42/items/7x" "" None)
                  eq_refl)).
Defined.

(** X22.  The label never contains the router's mount path: with a
    matched route template the label is the template as it is, whatever
    [baseUrl] and [path] hold, and without one it is computed from [path]
    alone. *)
Theorem route_label_ignores_baseUrl :
  forall (req : HttpMetrics.request),
    HttpMetrics.getRoute req
    = match HttpMetrics.routePath req with
      | Some template =>
          if String.eqb template ""
          then HttpMetrics.replaceNumbers false
                 (HttpMetrics.replaceUuids 0 (HttpMetrics.path req))
          else template
      | None =>
          HttpMetrics.replaceNumbers false
            (HttpMetrics.replaceUuids 0 (HttpMetrics.path req))
      end.
Proof.
  intros req. unfold HttpMetrics.getRoute, HttpMetrics.nonEmptyString.
  destruct (HttpMetrics.routePath req) as [template|].
  - destruct (String.eqb template ""); simpl; [|reflexivity].
    rewrite andb_false_r. reflexivity.
  - rewrite andb_false_r. reflexivity.
Qed.

(** ** The request metric *)

Section RequestMetric.
Import Telemetry HttpMetrics.

Lemma runFinishListeners_metrics (req : request) (status : nat) (starts : list nat) :
  forall wF,
    runFinishListeners req status starts wF
    = (Returned tt,
       mkWorld (clock wF) (spans wF)
         (metrics wF
          ++ map (fun startTime =>
                    HttpRequest (method req) (getRoute req) status (elapsed startTime (clock wF)))
                 starts)
         (active wF) (idSource wF)).
Proof.
  induction starts as [|startTime rest IH]; intros wF.
  - simpl. rewrite app_nil_r. destruct wF; reflexivity.
  - cbn [runFinishListeners]. unfold bind at 1. cbn [dateNow].
    unfold bind at 1. cbn [recordMetric]. rewrite IH. cbn [clock spans metrics active idSource map].
    rewrite <- app_assoc. reflexivity.
Qed.

End RequestMetric.

(** X23.  For a request whose path is not excluded and whose [next]
    returns, the middleware registers one more [finish] listener on the
    response and does nothing else besides calling [next]; when the
    response finishes, every listener so registered records one request
    metric with the method of the request, its route label, the status
    code the response has by then, and the difference between the clock
    at the finish and the clock at its middleware call (negative when
    the clock was set back in between). *)
Theorem request_metric_on_finish :
  forall (req : HttpMetrics.request) (res : HttpMetrics.response)
         (next : Telemetry.T unit) (w afterNext : Telemetry.world),
    HttpMetrics.shouldIgnore (HttpMetrics.path req) = false ->
    next w = (Telemetry.Returned tt, afterNext) ->
    HttpMetrics.httpMetricsMiddleware req res next w
    = (Telemetry.Returned
         (HttpMetrics.mkResponse (HttpMetrics.statusCode res)
            (HttpMetrics.finishListeners res ++ [Telemetry.clock w])),
       afterNext)
    /\ forall (status : nat) (starts : list nat) (wF : Telemetry.world),
        HttpMetrics.emitFinish req (HttpMetrics.mkResponse status starts) wF
        = (Telemetry.Returned tt,
           Telemetry.mkWorld (Telemetry.clock wF) (Telemetry.spans wF)
             (Telemetry.metrics wF
              ++ map (fun startTime =>
                        Telemetry.HttpRequest (HttpMetrics.method req)
                          (HttpMetrics.getRoute req) status
                          (Telemetry.elapsed startTime (Telemetry.clock wF)))
                     starts)
             (Telemetry.active wF) (Telemetry.idSource wF)).
Proof.
  intros req res next w afterNext Hignore Hnext. split.
  - unfold HttpMetrics.httpMetricsMiddleware. rewrite Hignore.
    unfold Telemetry.bind at 1. cbn [Telemetry.dateNow].
    unfold Telemetry.bind. rewrite Hnext. reflexivity.
  - intros status starts wF. apply runFinishListeners_metrics.
Qed.

Lemma request_metric_on_finish_witness :
  let req := HttpMetrics.mkRequest "GET" "/users/42" "" None in
  HttpMetrics.httpMetricsMiddleware req (HttpMetrics.mkResponse 0 [])
    (Telemetry.ret tt) Scenario.quietWorld
  = (Telemetry.Returned (HttpMetrics.mkResponse 0 [0%nat]), Scenario.quietWorld)
  /\ HttpMetrics.emitFinish req (HttpMetrics.mkResponse 200 [0%nat])
       (Telemetry.mkWorld 35 [] [] None Scenario.freshIds)
     = (Telemetry.Returned tt,
        Telemetry.mkWorld 35 [] [Telemetry.HttpRequest "GET" "/users/:id" 200 35] None
                          Scenario.freshIds).
Proof.
  intros req.
  destruct (request_metric_on_finish req (HttpMetrics.mkResponse 0 [])
              (Telemetry.ret tt) Scenario.quietWorld Scenario.quietWorld
              eq_refl eq_refl) as [Hcall Hfinish].
  split; [exact Hcall|].
  exact (Hfinish 200%nat [0%nat] (Telemetry.mkWorld 35 [] [] None Scenario.freshIds)).
Defined.

(** ** What the error middleware records *)

Section ErrorTelemetry.
Import Telemetry ErrorHandler.

Lemma error_span_updates (span : nat) (e : thrown) (message : string) (type : value)
      (w : world) :
  (let! _ := recordException span e in
   let! _ := setStatus span (Error message) in
   setAttribute span "error.type" type) w
  = (Returned tt,
     mkWorld (clock w)
       (match spans w !! span with
        | Some s =>
            <[span := mkSpan (name s) (kind s)
                        (setProp "error.type" type (attributes s)) (parent s)
                        (spanContext s) (Error message) (exceptions s ++ [e])%list
                        (endCalls s)]> (spans w)
        | None => spans w
        end)
       (metrics w) (active w) (idSource w)).
Proof.
  unfold bind, recordException, setStatus, setAttribute, updateSpan.
  cbn [spans clock metrics active idSource].
  destruct (spans w !! span) as [s|] eqn:Es.
  - assert (Hlt : span < length (spans w)) by (eapply lookup_lt_Some; eauto).
    rewrite list_lookup_insert_eq by assumption.
    rewrite list_lookup_insert_eq by (rewrite length_insert; assumption).
    rewrite !list_insert_insert_eq. reflexivity.
  - rewrite Es. rewrite Es. reflexivity.
Qed.

End ErrorTelemetry.

(** X24.  For every error whose code can be computed, by the time the
    error middleware calls the response it has recorded exactly one
    error metric of context "http" whose type is the classified type; the
    code of the metric is the error's own [code] whenever the error has
    the Prisma shape - also when it is classified as an Axios error - and
    undefined when it has neither shape.  It starts no span and ends
    none: the span of the active context, if there is one, gets the
    exception, the error status with the error's message and the
    [error.type] attribute; every other span is as it was.  When the code
    cannot be computed the middleware throws a TypeError, the span
    updated but no metric recorded and the response not called. *)
Theorem error_middleware_telemetry :
  forall (error : list (string * value)) (req : ErrorHandler.request)
         (res : ErrorHandler.response) (w : Telemetry.world),
    (ErrorHandler.errorCodeConverts error = true ->
     exists h w' code,
       ErrorHandler.beforeResponse error req w = (Telemetry.Returned h, w')
       /\ ErrorHandler.observabilityErrorMiddleware error req res w
          = ErrorHandler.statusJson res (ErrorHandler.sentStatus h)
                                    (ErrorHandler.sentBody h) w'
       /\ Telemetry.metrics w'
          = (Telemetry.metrics w
             ++ [Telemetry.ErrorCount
                   (ErrorHandler.errorTypeName (ErrorHandler.classifyError error))
                   "http" code])%list
       /\ (ErrorHandler.isPrismaKnownRequestError error = true ->
           code = ErrorHandler.prop "code" error)
       /\ (ErrorHandler.isPrismaKnownRequestError error = false ->
           ErrorHandler.isAxiosError error = false -> code = VUndefined)
       /\ Telemetry.clock w' = Telemetry.clock w
       /\ Telemetry.active w' = Telemetry.active w
       /\ length (Telemetry.spans w') = length (Telemetry.spans w)
       /\ forall i sp,
           Telemetry.spans w !! i = Some sp ->
           exists sp',
             Telemetry.spans w' !! i = Some sp'
             /\ Telemetry.endCalls sp' = Telemetry.endCalls sp
             /\ Telemetry.spanContext sp' = Telemetry.spanContext sp
             /\ (ErrorHandler.activeSpan w <> Some i -> sp' = sp)
             /\ (ErrorHandler.activeSpan w = Some i ->
                 Telemetry.status sp'
                 = Telemetry.Error (ErrorHandler.text (ErrorHandler.prop "message" error))
                 /\ Telemetry.exceptions sp'
                    = (Telemetry.exceptions sp
                       ++ [Telemetry.ErrorObject
                             (ErrorHandler.text (ErrorHandler.prop "name" error))
                             (ErrorHandler.text (ErrorHandler.prop "message" error))])%list
                 /\ getProp "error.type" (Telemetry.attributes sp')
                    = Some (VStr (ErrorHandler.errorTypeName
                                    (ErrorHandler.classifyError error)))))
    /\ (ErrorHandler.errorCodeConverts error = false ->
        exists message w',
          ErrorHandler.observabilityErrorMiddleware error req res w
          = (Telemetry.Threw (Telemetry.ErrorObject "TypeError" message), w')
          /\ Telemetry.metrics w' = Telemetry.metrics w).
Proof.
  intros error req res w. split.
  - intros Hcode.
    assert (Hbefore : forall h w' P,
               ErrorHandler.beforeResponse error req w = (Telemetry.Returned h, w') ->
               P ->
               ErrorHandler.observabilityErrorMiddleware error req res w
               = ErrorHandler.statusJson res (ErrorHandler.sentStatus h)
                                         (ErrorHandler.sentBody h) w'
               /\ P).
    { intros h w' P Hrun HP. split; [|exact HP].
      unfold ErrorHandler.observabilityErrorMiddleware.
      rewrite (bind_returned _ _ _ _ _ Hrun). reflexivity. }
    unfold ErrorHandler.beforeResponse in *.
    unfold Telemetry.bind at 1. cbn [Telemetry.getWorld].
    revert Hbefore. unfold Telemetry.bind at 1. cbn [Telemetry.getWorld].
    destruct (ErrorHandler.activeSpan w) as [span|] eqn:Eactive.
    + unfold Telemetry.bind at 1. rewrite error_span_updates.
      unfold Telemetry.bind at 1. rewrite (errorCode_returns error _ Hcode).
      unfold Telemetry.bind at 1. cbn [Telemetry.recordMetric Telemetry.ret].
      intros Hbefore.
      unfold Telemetry.bind at 1. rewrite error_span_updates.
      unfold Telemetry.bind at 1. rewrite (errorCode_returns error _ Hcode).
      unfold Telemetry.bind at 1. cbn [Telemetry.recordMetric Telemetry.ret].
      eexists _, _, _. split; [reflexivity|].
      apply Hbefore; [reflexivity|].
      cbn [Telemetry.spans Telemetry.clock Telemetry.metrics Telemetry.active].
      split; [reflexivity|].
      split; [intros ->; reflexivity|].
      split; [intros -> ->; reflexivity|].
      split; [reflexivity|]. split; [reflexivity|].
      destruct (Telemetry.spans w !! span) as [s|] eqn:Es.
      * assert (Hlt : span < length (Telemetry.spans w))
          by (eapply lookup_lt_Some; eauto).
        split; [apply length_insert|].
        intros i sp Hsp. destruct (decide (i = span)) as [->|Hne].
        -- rewrite list_lookup_insert_eq by assumption.
           eexists. split; [reflexivity|]. cbn.
           assert (sp = s) by congruence. subst sp.
           split; [reflexivity|]. split; [reflexivity|].
           split; [intros Hc; congruence|]. intros _.
           split; [reflexivity|]. split; [reflexivity|]. apply getProp_setProp_eq.
        -- rewrite list_lookup_insert_ne by congruence.
           exists sp. split; [exact Hsp|]. split; [reflexivity|]. split; [reflexivity|].
           split; [reflexivity|]. intros Hc. congruence.
      * split; [reflexivity|].
        intros i sp Hsp. exists sp. split; [exact Hsp|].
        split; [reflexivity|]. split; [reflexivity|]. split; [reflexivity|].
        intros [= <-]. congruence.
    + unfold Telemetry.bind at 1. cbn [Telemetry.ret].
      unfold Telemetry.bind at 1. rewrite (errorCode_returns error _ Hcode).
      unfold Telemetry.bind at 1. cbn [Telemetry.recordMetric Telemetry.ret].
      intros Hbefore.
      unfold Telemetry.bind at 1. cbn [Telemetry.ret].
      unfold Telemetry.bind at 1. rewrite (errorCode_returns error _ Hcode).
      unfold Telemetry.bind at 1. cbn [Telemetry.recordMetric Telemetry.ret].
      eexists _, _, _. split; [reflexivity|].
      apply Hbefore; [reflexivity|].
      cbn [Telemetry.spans Telemetry.clock Telemetry.metrics Telemetry.active].
      split; [reflexivity|].
      split; [intros ->; reflexivity|].
      split; [intros -> ->; reflexivity|].
      repeat (split; [reflexivity|]).
      intros i sp Hsp. exists sp. split; [exact Hsp|].
      split; [reflexivity|]. split; [reflexivity|]. split; [reflexivity|].
      discriminate.
  - unfold ErrorHandler.errorCodeConverts. intros Hcode.
    destruct (ErrorHandler.isPrismaKnownRequestError error) eqn:Ep; [discriminate|].
    destruct (ErrorHandler.isAxiosError error) eqn:Ea; [|discriminate].
    destruct (toStringThrows (ErrorHandler.errorCodeSource error)) eqn:Et;
      [|discriminate].
    unfold ErrorHandler.observabilityErrorMiddleware, ErrorHandler.beforeResponse.
    unfold Telemetry.bind at 1. unfold Telemetry.bind at 1. cbn [Telemetry.getWorld].
    destruct (span_updates_return error w w) as [w1 E1].
    unfold Telemetry.bind at 1. rewrite E1.
    rewrite Ep, Ea, Et. cbn.
    eexists _, _. split; [reflexivity|].
    revert E1. destruct (ErrorHandler.activeSpan w) as [span|].
    + rewrite error_span_updates. intros [= <-]. reflexivity.
    + intros [= <-]. reflexivity.
Qed.

(** An error with both shapes: classified as an Axios error, counted with
    the Prisma code. *)
Lemma error_middleware_telemetry_witness :
  let both :=
    [ ("isAxiosError", VBool true); ("code", VStr "P2002");
      ("clientVersion", VStr "5.0.0");
      ("name", VStr "PrismaClientKnownRequestError") ] in
  exists h w',
    ErrorHandler.beforeResponse both
      (ErrorHandler.mkRequest "GET" "/x" "/x") Scenario.quietWorld
    = (Telemetry.Returned h, w')
    /\ Telemetry.metrics w' = [Telemetry.ErrorCount "AxiosError" "http" (VStr "P2002")].
Proof.
  intros both.
  destruct (proj1 (error_middleware_telemetry both
                     (ErrorHandler.mkRequest "GET" "/x" "/x")
                     (ErrorHandler.mkResponse (fun _ _ => Telemetry.ret tt))
                     Scenario.quietWorld) eq_refl)
    as (h & w' & code & Hrun & _ & Hmetrics & Hprisma & _).
  exists h, w'. split; [exact Hrun|].
  rewrite Hmetrics, (Hprisma eq_refl). reflexivity.
Defined.

(** ** A patched send without its original *)

(** X25.  When the stored original is gone - the patched [send] is called
    after [restoreRabbitMQ] cleared it - the call fails with a TypeError
    inside the guarded block, and the failure is recorded like any other:
    the span that was started is ended once, carries the exception and
    the error status, one failure metric is recorded, and the TypeError
    reaches the caller. *)
Theorem patched_send_without_original :
  forall (st : RabbitMQ.state) (queue : string) (msg : value)
         (options : option RabbitMQ.sendOptions) (w : Telemetry.world),
    RabbitMQ.originalSend st = None ->
    exists final message sp m,
      RabbitMQ.patchedSend st queue msg options w
      = (Telemetry.Threw (Telemetry.ErrorObject "TypeError" message), final)
      /\ length (Telemetry.spans final) = S (length (Telemetry.spans w))
      /\ Telemetry.spans final !! length (Telemetry.spans w) = Some sp
      /\ Telemetry.endCalls sp = 1%nat
      /\ Telemetry.status sp = Telemetry.Error message
      /\ Telemetry.exceptions sp = [Telemetry.ErrorObject "TypeError" message]
      /\ Telemetry.metrics final = (Telemetry.metrics w ++ [m])%list
      /\ Telemetry.isFailure m = true.
Proof.
  intros st queue msg options w Horig.
  assert (Hlen : Telemetry.grows 1 1 w
                   (snd (RabbitMQ.patchedSend st queue msg options w))).
  { apply patchedSend_grows. intros impl E. congruence. }
  destruct Hlen as [Hlen _].
  set (run := RabbitMQ.patchedSend st queue msg options w) in *.
  assert (Hrun : run = RabbitMQ.patchedSend st queue msg options w) by reflexivity.
  clearbody run. revert Hrun.
  unfold RabbitMQ.patchedSend, RabbitMQ.openSendScope.
  unfold Telemetry.bind at 1. unfold Telemetry.bind at 1. cbn [Telemetry.dateNow].
  unfold Telemetry.bind at 1. cbn [Telemetry.contextActive].
  unfold Telemetry.bind at 1. unfold Telemetry.startSpan at 1.
  destruct (Telemetry.idSource w (length (Telemetry.spans w))) as [ft fs] eqn:Eid.
  cbn [Telemetry.ret RabbitMQ.sendSpan RabbitMQ.sendStartTime].
  match goal with
  | |- context [Telemetry.tryCatchFinally _ _ _ ?w1] => set (started := w1)
  end.
  set (e := Telemetry.ErrorObject "TypeError" "Cannot read properties of null").
  assert (Hnew : exists sp0,
             Telemetry.spans started !! length (Telemetry.spans w) = Some sp0
             /\ Telemetry.endCalls sp0 = 0%nat /\ Telemetry.exceptions sp0 = []).
  { subst started. cbn [Telemetry.spans]. eexists.
    split; [apply list_lookup_middle; reflexivity|]. split; reflexivity. }
  destruct Hnew as (sp0 & Hsp0 & Hend0 & Hexc0).
  rewrite (tryCatchFinally_threw _ _ _ started started e).
  - destruct (catch_and_finally (A := bool) (length (Telemetry.spans w))
                (fun finished =>
                   Telemetry.RabbitMessage queue None None "publish" false
                     (Telemetry.elapsed (Telemetry.clock w) finished)) e started
                (fun _ => eq_refl))
      as (final & Hfinal & Hrec).
    destruct (Hrec sp0 Hsp0) as (sp & Hsp & Hend & Hstatus & Hexc & m & Hm & Hfail).
    rewrite Hfinal. intros ->. cbn [snd] in Hlen.
    exists final, "Cannot read properties of null", sp, m.
    split; [reflexivity|]. split; [lia|].
    split; [exact Hsp|]. split; [rewrite Hend, Hend0; reflexivity|].
    split; [exact Hstatus|]. split; [rewrite Hexc, Hexc0; reflexivity|].
    split; [exact Hm|exact Hfail].
  - apply bind_threw.
    unfold RabbitMQ.forwardSend, Telemetry.bind, Telemetry.contextActive,
      Telemetry.setSpan, RabbitMQ.callOriginal.
    rewrite Horig. reflexivity.
Qed.

(** The patched method of a client, called after the module was restored. *)
Lemma patched_send_without_original_witness :
  let patched :=
    RabbitMQ.initRabbitMQInterceptor Scenario.client None None RabbitMQ.initialState in
  exists restored final message sp,
    RabbitMQ.restoreRabbitMQ (fst patched) (snd patched) = Telemetry.Returned restored
    /\ RabbitMQ.callSend (fst patched) (snd restored) "orders" (VStr "hello") None
         Scenario.quietWorld
       = (Telemetry.Threw (Telemetry.ErrorObject "TypeError" message), final)
    /\ Telemetry.spans final !! 0%nat = Some sp
    /\ Telemetry.endCalls sp = 1%nat.
Proof.
  intros patched.
  destruct (patched_send_without_original
              (RabbitMQ.mkState false None "unknown-service") "orders" (VStr "hello")
              None Scenario.quietWorld eq_refl)
    as (final & message & sp & m & Hrun & _ & Hsp & Hend & _).
  eexists _, final, message, sp.
  split; [reflexivity|]. split; [exact Hrun|]. split; [exact Hsp|exact Hend].
Defined.

(** ** Which paths are excluded, and which labels are the path itself *)

Section Paths.
Import HttpMetrics.

Lemma replaceUuids_nothing (s : string) :
  containsUuid s = false -> replaceUuids 0 s = s.
Proof.
  induction s as [|c rest IH]; intros H; [reflexivity|].
  cbn [containsUuid] in H. apply orb_false_iff in H as [Hm Hrest].
  cbn [replaceUuids]. rewrite Hm, (IH Hrest). reflexivity.
Qed.

End Paths.

(** X26.  A path is excluded from the request metrics exactly when it
    starts with one of the five excluded paths - so every extension of an
    excluded path is excluded as well, also one that is another route,
    and no other path is. *)
Theorem excluded_paths_are_the_prefixed_ones :
  forall (path : string),
    (HttpMetrics.shouldIgnore path = true
     <-> exists ignored rest,
          In ignored ["/health"; "/healthz"; "/ready"; "/metrics"; "/favicon.ico"]
          /\ path = ignored ++ rest)
    /\ (HttpMetrics.shouldIgnore path = true ->
        forall more, HttpMetrics.shouldIgnore (path ++ more) = true).
Proof.
  intros path.
  assert (Hiff : forall p,
             HttpMetrics.shouldIgnore p = true
             <-> exists ignored rest,
                  In ignored HttpMetrics.ignoredPaths /\ p = ignored ++ rest).
  { intros p. unfold HttpMetrics.shouldIgnore. rewrite existsb_exists. split.
    - intros (ignored & Hin & Hs). apply startsWith_app in Hs as [rest Hrest].
      exists ignored, rest. auto.
    - intros (ignored & rest & Hin & Hrest). exists ignored. split; [exact Hin|].
      apply startsWith_app. exists rest. exact Hrest. }
  split; [apply Hiff|].
  intros H more. apply Hiff. apply Hiff in H as (ignored & rest & Hin & ->).
  exists ignored, (rest ++ more). split; [exact Hin|].
  clear. induction ignored as [|c ignored IH]; [reflexivity|].
  rewrite !append_cons. f_equal. exact IH.
Qed.

Lemma excluded_paths_are_the_prefixed_ones_witness :
  HttpMetrics.shouldIgnore ("/metrics" ++ "-dashboard/views") = true.
Proof.
  exact (proj2 (excluded_paths_are_the_prefixed_ones "/metrics") eq_refl
               "-dashboard/views").
Defined.

(** X27.  The two replacements touch nothing but their matches: for a
    request without a matched route template whose path holds no match of
    the UUID pattern and no slash directly followed by a digit, the label
    is the path itself. *)
Theorem route_label_of_a_path_without_ids :
  forall (req : HttpMetrics.request),
    HttpMetrics.nonEmptyString (HttpMetrics.routePath req) = false ->
    HttpMetrics.containsUuid (HttpMetrics.path req) = false ->
    HttpMetrics.hasSlashDigit (HttpMetrics.path req) = false ->
    HttpMetrics.getRoute req = HttpMetrics.path req.
Proof.
  intros req Hroute Huuid Hdigit.
  unfold HttpMetrics.getRoute. rewrite Hroute, andb_false_r.
  rewrite (replaceUuids_nothing _ Huuid). apply replaceNumbers_nothing. exact Hdigit.
Qed.

Lemma route_label_of_a_path_without_ids_witness :
  HttpMetrics.getRoute (HttpMetrics.mkRequest "GET" "/api/v2/users/me" "" None)
  = "/api/v2/users/me".
Proof.
  exact (route_label_of_a_path_without_ids
           (HttpMetrics.mkRequest "GET" "/api/v2/users/me" "" None)
           eq_refl eq_refl eq_refl).
Defined.

(** ** No sensitive key keeps its value *)

Section RedactedThroughout.
Import StructuredLogger.
Variable fields : list string.

Lemma redacted_throughout_obj (k : string) (x : value) (rest : list (string * value)) :
  Nesting.redacted_throughout fields (VObj ((k, x) :: rest))
  = (if isSensitive fields k then Nesting.is_marker x
     else Nesting.redacted_throughout fields x)
    && Nesting.redacted_throughout fields (VObj rest).
Proof. reflexivity. Qed.

Lemma redacted_throughout_arr (x : value) (rest : list value) :
  Nesting.redacted_throughout fields (VArr (x :: rest))
  = Nesting.redacted_throughout fields x
    && Nesting.redacted_throughout fields (VArr rest).
Proof. reflexivity. Qed.

Lemma redacts_scalar (v : value) : is_scalar v = true -> Nesting.redacts fields v.
Proof.
  intros Hs. split; [|split].
  - destruct v; try discriminate; reflexivity.
  - intros k. unfold maskProperty.
    destruct (isSensitive fields k); destruct v; try discriminate; reflexivity.
  - destruct v; try discriminate; reflexivity.
Qed.

Lemma redacted_entries (entries : list (string * value)) :
  Forall (fun kv => Nesting.redacts fields (snd kv)) entries ->
  Nesting.redacted_throughout fields
    (VObj (map (fun kv => (fst kv, maskProperty fields (fst kv) (snd kv))) entries))
  = true.
Proof.
  induction 1 as [|[k x] rest (_ & Hk & _) _ IH]; [reflexivity|].
  cbn [map fst snd]. rewrite redacted_throughout_obj, IH.
  cbn [snd] in Hk. rewrite (Hk k). reflexivity.
Qed.

Lemma redacted_items (items : list value) :
  Forall (Nesting.redacts fields) items ->
  Nesting.redacted_throughout fields (VArr (map (maskItem fields) items)) = true.
Proof.
  induction 1 as [|x rest (_ & _ & Hx) _ IH]; [reflexivity|].
  cbn [map]. rewrite redacted_throughout_arr, IH, Hx. reflexivity.
Qed.

Lemma indexed_redacts (items : list value) :
  Forall (Nesting.redacts fields) items ->
  forall i, Forall (fun kv => Nesting.redacts fields (snd kv)) (indexed i items).
Proof.
  induction 1 as [|x rest Hx _ IH]; intros i; simpl; constructor; auto.
Qed.

Lemma redacts_all (v : value) : Nesting.redacts fields v.
Proof.
  induction v as [| |b|z|s|items IH|props IH] using value_ind';
    try (apply redacts_scalar; reflexivity).
  - assert (Hdata : Nesting.redacted_throughout fields
                      (VObj (maskSensitiveData fields (VArr items))) = true).
    { rewrite maskSensitiveData_arr. apply redacted_entries.
      apply indexed_redacts. exact IH. }
    split; [exact Hdata|split].
    + intros k. unfold maskProperty. destruct (isSensitive fields k); [reflexivity|].
      apply redacted_items. exact IH.
    + exact Hdata.
  - assert (Hdata : Nesting.redacted_throughout fields
                      (VObj (maskSensitiveData fields (VObj props))) = true).
    { rewrite (maskSensitiveData_obj fields props). apply redacted_entries.
      apply Forall_assignable. exact IH. }
    split; [exact Hdata|split].
    + intros k. unfold maskProperty. destruct (isSensitive fields k); [reflexivity|].
      exact Hdata.
    + exact Hdata.
Qed.

End RedactedThroughout.

(** X28.  In what [maskSensitiveData] returns, every sensitive key holds
    the marker, at whatever depth and through whatever nesting of objects
    and arrays - arrays directly inside arrays included - for every list
    of sensitive fields and every input, in the logger and in the Winston
    transport alike. *)
Theorem maskSensitiveData_leaves_no_sensitive_value :
  forall (fields : list string) (data : value),
    Nesting.redacted_throughout fields
      (VObj (StructuredLogger.maskSensitiveData fields data)) = true
    /\ Nesting.redacted_throughout fields
         (VObj (WinstonOtelTransport.maskSensitiveData fields data)) = true.
Proof.
  intros fields data. split; apply (redacts_all fields data).
Qed.
